(** * PluginControl: a shallow embedding of the collapsible map control

    The development follows [src/lib/core/PluginControl.ts] and
    [src/lib/core/types.ts], and, for the React side, the component
    [PluginControlReact] and the hook of [src/lib/hooks/usePluginState.ts].
    The control is a JavaScript object living in a browser: its methods read
    and write the control's private fields, objects on the JavaScript heap,
    DOM elements and listener lists.  All of this is threaded explicitly
    through a [World] record by a small state-and-error monad; a JavaScript
    exception is the [Throw] result. *)

From stdpp Require Import base option list gmap strings.
From Stdlib Require Import ZArith.

Open Scope string_scope.
Open Scope list_scope.

(** ** JavaScript numbers

    Pixel quantities ([panelWidth], the fields of a [DOMRect]) are JavaScript
    numbers.  The code only adds and subtracts them, writes literals and
    formats them into CSS lengths, so the embedding is parametric in the
    arithmetic: it holds for IEEE doubles as well as for the integer instance
    used in the examples.  [num_nonneg n] tells whether [n] is a finite
    number that is not below zero: only then is [`${n}px`] a value the CSS
    parser accepts for [width], which takes no negative length. *)

Class JsNumber (num : Type) := {
  num_add : num → num → num;
  num_sub : num → num → num;
  num_lit : Z → num;
  num_nonneg : num → bool;
}.

#[export] Instance Z_JsNumber : JsNumber Z :=
  {| num_add := Z.add; num_sub := Z.sub; num_lit := λ z, z;
     num_nonneg := λ z, bool_decide (0 ≤ z)%Z |}.

(** ** The state-and-error monad *)

Inductive JsError := TypeError | NotFoundError.

Inductive Res (S A : Type) :=
  | Ok (a : A) (s : S)
  | Throw (e : JsError).
Arguments Ok {S A} a s.
Arguments Throw {S A} e.

Definition M (S A : Type) : Type := S → Res S A.

Definition ret {S A} (a : A) : M S A := λ s, Ok a s.

Definition bind {S A B} (m : M S A) (f : A → M S B) : M S B :=
  λ s, match m s with
       | Ok a s' => f a s'
       | Throw e => Throw e
       end.

Definition throw {S A} (e : JsError) : M S A := λ _, Throw e.
Definition gets {S A} (f : S → A) : M S A := λ s, Ok (f s) s.
Definition modify {S} (f : S → S) : M S unit := λ s, Ok tt (f s).

(** [x!] and [x.prop] on a possibly undefined [x]: a [TypeError] when it is. *)
Definition deref {S A} (o : option A) : M S A :=
  match o with
  | Some a => ret a
  | None => throw TypeError
  end.

Definition when {S} (b : bool) (m : M S unit) : M S unit :=
  if b then m else ret tt.

Notation "'let*' x ':=' c1 'in' c2" := (bind c1 (λ x, c2))
  (at level 10, x pattern, c1 at level 100, c2 at level 200,
   format "'[v' 'let*'  x  ':='  c1  'in' '/' c2 ']'").
Notation "c1 ';;' c2" := (bind c1 (λ _, c2))
  (at level 100, c2 at level 200, right associativity).

(** [handlers.forEach(f)] and similar loops over a list. *)
Fixpoint forEach {S A} (l : list A) (f : A → M S unit) : M S unit :=
  match l with
  | [] => ret tt
  | a :: l' => f a ;; forEach l' f
  end.

(** The world after a run, when there is one. *)
Definition exec {S A} (m : M S A) (s : S) : option S :=
  match m s with
  | Ok _ s' => Some s'
  | Throw _ => None
  end.

Definition throws {S A} (r : Res S A) : bool :=
  match r with
  | Ok _ _ => false
  | Throw _ => true
  end.

(** ** Identifiers *)

(** A reference to an object on the JavaScript heap. *)
Definition loc := nat.
(** A reference to a DOM element. *)
Definition node := nat.
(** A subscriber callback passed to [on]/[off], by its identity.  The body
    of a subscriber is the caller's code: the embedding records that it is
    called, and with what, and does not run it. *)
Definition Handler := nat.

(** [PluginControlEvent] of [types.ts]. *)
Inductive PluginControlEvent := EvCollapse | EvExpand | EvStatechange.

#[export] Instance PluginControlEvent_eq_dec : EqDecision PluginControlEvent.
Proof. solve_decision. Defined.

#[export] Instance PluginControlEvent_countable : Countable PluginControlEvent.
Proof.
  refine (inj_countable'
    (λ e, match e with EvCollapse => 0 | EvExpand => 1 | EvStatechange => 2 end)
    (λ n, match n with 0 => EvCollapse | 1 => EvExpand | _ => EvStatechange end)
    _).
  by intros [].
Defined.

(** The four corners a host may dock a control in. *)
Inductive Corner := TopLeft | TopRight | BottomLeft | BottomRight.

(** The closures the control creates, by the code they run.  A closure
    value is a pair of an identity and its code: [addEventListener] and
    [removeEventListener] compare identities. *)
Inductive Closure :=
  | ToggleClick        (* () => this.toggle() *)
  | CloseClick         (* () => this.collapse() *)
  | ClickOutside       (* this._clickOutsideHandler *)
  | WindowResize       (* this._resizeHandler *)
  | MapResize          (* this._mapResizeHandler *)
  | FrameReposition.   (* () => { this._updatePanelPosition(); } *)

#[export] Instance Closure_eq_dec : EqDecision Closure.
Proof. solve_decision. Defined.

Definition Fn : Type := nat * Closure.

(** ** Observations

    The log records, in order, every entry into [_emit], every call of a
    subscriber with the event object it receives (the [type] and the
    reference held in [state]), and every entry into
    [_updatePanelPosition]. *)
Inductive Effect :=
  | Emit (e : PluginControlEvent)
  | Invoke (h : Handler) (e : PluginControlEvent) (snapshot : loc)
  | Reposition.

#[export] Instance Effect_eq_dec : EqDecision Effect.
Proof. solve_decision. Defined.

Section Model.
Context {num unknown : Type} `{JsNumber num}.

(** ** Data model ([types.ts]) *)

(** [Required<PluginControlOptions>]. *)
Record PluginControlOptions := {
  opt_collapsed : bool;
  opt_position : Corner;
  opt_title : string;
  opt_panelWidth : num;
  opt_className : string;
}.

(** [Partial<PluginControlOptions>]: [None] is an absent key. *)
Record PartialOptions := {
  po_collapsed : option bool;
  po_position : option Corner;
  po_title : option string;
  po_panelWidth : option num;
  po_className : option string;
}.

(** A JavaScript object of shape [PluginState].  [data] holds a reference
    to a [Record<string, unknown>] on the heap, or [undefined]. *)
Record PluginState := {
  collapsed : bool;
  panelWidth : num;
  data : option loc;
}.

(** [Partial<PluginState>].  [None] is an absent key; for the optional
    [data] key, [Some None] is the key present with value [undefined]. *)
Record PartialState := {
  p_collapsed : option bool;
  p_panelWidth : option num;
  p_data : option (option loc);
}.

(** ** The browser side *)

(** The result of [getBoundingClientRect()]. *)
Record DOMRect := {
  rect_top : num;
  rect_bottom : num;
  rect_left : num;
  rect_right : num;
  rect_width : num;
  rect_height : num;
}.

(** A value of a positional style property: [''] or [`${n}px`]. *)
Inductive CssLength := css_unset | css_px (n : num).

Record Style := {
  style_top : CssLength;
  style_bottom : CssLength;
  style_left : CssLength;
  style_right : CssLength;
  style_width : CssLength;
}.

(** A node of the document: an element, or a text node.  The record holds
    the part the control reads or writes: the classes, the place in the
    tree, the inline style and the click listeners.  A text node has no
    class, no child and no listener; its text is not modelled, and neither
    are tag names and attributes other than [class]. *)
Record Element := {
  classList : list string;
  parentNode : option node;
  childNodes : list node;
  style : Style;
  clickListeners : list Fn;
}.

(** The host map: its identity and what [getContainer()] returns. *)
Record MapLibreMap := {
  map_id : nat;
  map_container : node;
}.

(** ** The control's private fields *)

Record Control := {
  _map : option MapLibreMap;
  _mapContainer : option node;
  _container : option node;
  _panel : option node;
  _options : PluginControlOptions;
  _state : loc;
  _eventHandlers : gmap PluginControlEvent (list Handler);
  _resizeHandler : option Fn;
  _mapResizeHandler : option Fn;
  _clickOutsideHandler : option Fn;
}.

(** ** The world *)

Record World := {
  this : Control;
  (* heap: objects of shape PluginState *)
  objects : gmap loc PluginState;
  (* heap: Record<string, unknown> objects *)
  records : gmap loc (gmap string unknown);
  (* DOM elements; an identifier outside the map is a pristine element *)
  elements : gmap node Element;
  (* layout, as reported by getBoundingClientRect *)
  layout : gmap node DOMRect;
  (* 'resize' listeners of window *)
  windowResize : list Fn;
  (* 'click' listeners of document *)
  documentClick : list Fn;
  (* 'resize' listeners of the maps, by map identity *)
  mapResize : list (nat * Fn);
  (* callbacks waiting for requestAnimationFrame *)
  frames : list Fn;
  (* the next closure identity *)
  nextFn : nat;
  trace : list Effect;
}.

(** Field updates, written out. *)

Definition with_this (f : Control → Control) (w : World) : World :=
  {| this := f (this w); objects := objects w; records := records w;
     elements := elements w; layout := layout w;
     windowResize := windowResize w; documentClick := documentClick w;
     mapResize := mapResize w; frames := frames w; nextFn := nextFn w;
     trace := trace w |}.

Definition with_objects (f : gmap loc PluginState → gmap loc PluginState)
    (w : World) : World :=
  {| this := this w; objects := f (objects w); records := records w;
     elements := elements w; layout := layout w;
     windowResize := windowResize w; documentClick := documentClick w;
     mapResize := mapResize w; frames := frames w; nextFn := nextFn w;
     trace := trace w |}.

Definition with_records
    (f : gmap loc (gmap string unknown) → gmap loc (gmap string unknown))
    (w : World) : World :=
  {| this := this w; objects := objects w; records := f (records w);
     elements := elements w; layout := layout w;
     windowResize := windowResize w; documentClick := documentClick w;
     mapResize := mapResize w; frames := frames w; nextFn := nextFn w;
     trace := trace w |}.

Definition with_elements (f : gmap node Element → gmap node Element)
    (w : World) : World :=
  {| this := this w; objects := objects w; records := records w;
     elements := f (elements w); layout := layout w;
     windowResize := windowResize w; documentClick := documentClick w;
     mapResize := mapResize w; frames := frames w; nextFn := nextFn w;
     trace := trace w |}.

Definition with_windowResize (f : list Fn → list Fn) (w : World) : World :=
  {| this := this w; objects := objects w; records := records w;
     elements := elements w; layout := layout w;
     windowResize := f (windowResize w); documentClick := documentClick w;
     mapResize := mapResize w; frames := frames w; nextFn := nextFn w;
     trace := trace w |}.

Definition with_documentClick (f : list Fn → list Fn) (w : World) : World :=
  {| this := this w; objects := objects w; records := records w;
     elements := elements w; layout := layout w;
     windowResize := windowResize w; documentClick := f (documentClick w);
     mapResize := mapResize w; frames := frames w; nextFn := nextFn w;
     trace := trace w |}.

Definition with_mapResize (f : list (nat * Fn) → list (nat * Fn))
    (w : World) : World :=
  {| this := this w; objects := objects w; records := records w;
     elements := elements w; layout := layout w;
     windowResize := windowResize w; documentClick := documentClick w;
     mapResize := f (mapResize w); frames := frames w; nextFn := nextFn w;
     trace := trace w |}.

Definition with_frames (f : list Fn → list Fn) (w : World) : World :=
  {| this := this w; objects := objects w; records := records w;
     elements := elements w; layout := layout w;
     windowResize := windowResize w; documentClick := documentClick w;
     mapResize := mapResize w; frames := f (frames w); nextFn := nextFn w;
     trace := trace w |}.

Definition with_nextFn (f : nat → nat) (w : World) : World :=
  {| this := this w; objects := objects w; records := records w;
     elements := elements w; layout := layout w;
     windowResize := windowResize w; documentClick := documentClick w;
     mapResize := mapResize w; frames := frames w; nextFn := f (nextFn w);
     trace := trace w |}.

Definition with_trace (f : list Effect → list Effect) (w : World) : World :=
  {| this := this w; objects := objects w; records := records w;
     elements := elements w; layout := layout w;
     windowResize := windowResize w; documentClick := documentClick w;
     mapResize := mapResize w; frames := frames w; nextFn := nextFn w;
     trace := f (trace w) |}.

Definition set_map (v : option MapLibreMap) (c : Control) : Control :=
  {| _map := v; _mapContainer := _mapContainer c;
     _container := _container c; _panel := _panel c;
     _options := _options c; _state := _state c;
     _eventHandlers := _eventHandlers c;
     _resizeHandler := _resizeHandler c;
     _mapResizeHandler := _mapResizeHandler c;
     _clickOutsideHandler := _clickOutsideHandler c |}.

Definition set_mapContainer (v : option node) (c : Control) : Control :=
  {| _map := _map c; _mapContainer := v;
     _container := _container c; _panel := _panel c;
     _options := _options c; _state := _state c;
     _eventHandlers := _eventHandlers c;
     _resizeHandler := _resizeHandler c;
     _mapResizeHandler := _mapResizeHandler c;
     _clickOutsideHandler := _clickOutsideHandler c |}.

Definition set_container (v : option node) (c : Control) : Control :=
  {| _map := _map c; _mapContainer := _mapContainer c;
     _container := v; _panel := _panel c;
     _options := _options c; _state := _state c;
     _eventHandlers := _eventHandlers c;
     _resizeHandler := _resizeHandler c;
     _mapResizeHandler := _mapResizeHandler c;
     _clickOutsideHandler := _clickOutsideHandler c |}.

Definition set_panel (v : option node) (c : Control) : Control :=
  {| _map := _map c; _mapContainer := _mapContainer c;
     _container := _container c; _panel := v;
     _options := _options c; _state := _state c;
     _eventHandlers := _eventHandlers c;
     _resizeHandler := _resizeHandler c;
     _mapResizeHandler := _mapResizeHandler c;
     _clickOutsideHandler := _clickOutsideHandler c |}.

Definition set_state (v : loc) (c : Control) : Control :=
  {| _map := _map c; _mapContainer := _mapContainer c;
     _container := _container c; _panel := _panel c;
     _options := _options c; _state := v;
     _eventHandlers := _eventHandlers c;
     _resizeHandler := _resizeHandler c;
     _mapResizeHandler := _mapResizeHandler c;
     _clickOutsideHandler := _clickOutsideHandler c |}.

Definition set_eventHandlers (v : gmap PluginControlEvent (list Handler))
    (c : Control) : Control :=
  {| _map := _map c; _mapContainer := _mapContainer c;
     _container := _container c; _panel := _panel c;
     _options := _options c; _state := _state c;
     _eventHandlers := v;
     _resizeHandler := _resizeHandler c;
     _mapResizeHandler := _mapResizeHandler c;
     _clickOutsideHandler := _clickOutsideHandler c |}.

Definition set_resizeHandler (v : option Fn) (c : Control) : Control :=
  {| _map := _map c; _mapContainer := _mapContainer c;
     _container := _container c; _panel := _panel c;
     _options := _options c; _state := _state c;
     _eventHandlers := _eventHandlers c;
     _resizeHandler := v;
     _mapResizeHandler := _mapResizeHandler c;
     _clickOutsideHandler := _clickOutsideHandler c |}.

Definition set_mapResizeHandler (v : option Fn) (c : Control) : Control :=
  {| _map := _map c; _mapContainer := _mapContainer c;
     _container := _container c; _panel := _panel c;
     _options := _options c; _state := _state c;
     _eventHandlers := _eventHandlers c;
     _resizeHandler := _resizeHandler c;
     _mapResizeHandler := v;
     _clickOutsideHandler := _clickOutsideHandler c |}.

Definition set_clickOutsideHandler (v : option Fn) (c : Control) : Control :=
  {| _map := _map c; _mapContainer := _mapContainer c;
     _container := _container c; _panel := _panel c;
     _options := _options c; _state := _state c;
     _eventHandlers := _eventHandlers c;
     _resizeHandler := _resizeHandler c;
     _mapResizeHandler := _mapResizeHandler c;
     _clickOutsideHandler := v |}.

(** [this.field = v] and reading [this.field]. *)
Definition assign (set : Control → Control) : M World unit :=
  modify (with_this set).
Definition field {A} (get : Control → A) : M World A :=
  gets (λ w, get (this w)).

Definition log (e : Effect) : M World unit :=
  modify (with_trace (λ t, t ++ [e])).

(** ** The JavaScript heap *)

(** An object literal [{ ... }] of shape [PluginState]: a new object. *)
Definition alloc_object (st : PluginState) : M World loc :=
  λ w, let l := fresh (dom (objects w)) in
       Ok l (with_objects (<[l := st]>) w).

(** Reading the fields of the object behind a reference. *)
Definition read_object (l : loc) : M World PluginState :=
  let* o := gets (λ w, objects w !! l) in deref o.

(** Writing the fields of an existing object in place. *)
Definition write_object (l : loc) (f : PluginState → PluginState)
    : M World unit :=
  let* st := read_object l in modify (with_objects (<[l := f st]>)).

(** An object literal of shape [Record<string, unknown>]. *)
Definition alloc_record (m : gmap string unknown) : M World loc :=
  λ w, let l := fresh (dom (records w)) in
       Ok l (with_records (<[l := m]>) w).

Definition set_collapsed (b : bool) (st : PluginState) : PluginState :=
  {| collapsed := b; panelWidth := panelWidth st; data := data st |}.
Definition set_panelWidth (n : num) (st : PluginState) : PluginState :=
  {| collapsed := collapsed st; panelWidth := n; data := data st |}.
Definition set_data (d : option loc) (st : PluginState) : PluginState :=
  {| collapsed := collapsed st; panelWidth := panelWidth st; data := d |}.

(** [{ ...st, ...p }]: every key present in [p] overrides the one of [st]. *)
Definition spread (st : PluginState) (p : PartialState) : PluginState :=
  {| collapsed := default (collapsed st) (p_collapsed p);
     panelWidth := default (panelWidth st) (p_panelWidth p);
     data := default (data st) (p_data p) |}.

(** A JavaScript [Set] of functions, in insertion order. *)
Definition set_add {A} `{EqDecision A} (a : A) (l : list A) : list A :=
  if decide (a ∈ l) then l else l ++ [a].
Definition set_delete {A} `{EqDecision A} (a : A) (l : list A) : list A :=
  filter (λ x, x ≠ a) l.

(** ** The DOM *)

Definition blank_style : Style :=
  {| style_top := css_unset; style_bottom := css_unset;
     style_left := css_unset; style_right := css_unset;
     style_width := css_unset |}.

(** What [document.createElement] returns. *)
Definition blank_element : Element :=
  {| classList := []; parentNode := None; childNodes := [];
     style := blank_style; clickListeners := [] |}.

Definition lookup_element (els : gmap node Element) (n : node) : Element :=
  default blank_element (els !! n).
Definition element (w : World) (n : node) : Element :=
  lookup_element (elements w) n.

Definition set_classList (v : list string) (e : Element) : Element :=
  {| classList := v; parentNode := parentNode e; childNodes := childNodes e;
     style := style e; clickListeners := clickListeners e |}.
Definition set_parentNode (v : option node) (e : Element) : Element :=
  {| classList := classList e; parentNode := v; childNodes := childNodes e;
     style := style e; clickListeners := clickListeners e |}.
Definition set_childNodes (v : list node) (e : Element) : Element :=
  {| classList := classList e; parentNode := parentNode e; childNodes := v;
     style := style e; clickListeners := clickListeners e |}.
Definition set_style (v : Style) (e : Element) : Element :=
  {| classList := classList e; parentNode := parentNode e;
     childNodes := childNodes e; style := v;
     clickListeners := clickListeners e |}.
Definition set_clickListeners (v : list Fn) (e : Element) : Element :=
  {| classList := classList e; parentNode := parentNode e;
     childNodes := childNodes e; style := style e; clickListeners := v |}.

(** The [class] attribute as a token list: the names between ASCII
    whitespace, each once, in the order of their first occurrence. *)
Definition is_space (a : Ascii.ascii) : bool :=
  bool_decide (Ascii.nat_of_ascii a ∈ [9; 10; 12; 13; 32]).

Fixpoint tokens_from (cur : string) (s : string) : list string :=
  match s with
  | EmptyString => if decide (cur = "") then [] else [cur]
  | String a s' =>
      if is_space a
      then (if decide (cur = "") then [] else [cur]) ++ tokens_from "" s'
      else tokens_from (cur +:+ String a "") s'
  end.

(** The names in a [class] attribute, in order, repetitions included. *)
Definition class_names (s : string) : list string := tokens_from "" s.

(** The token set of a [class] attribute, and [el.className = v]. *)
Definition class_tokens (v : string) : list string :=
  foldl (λ acc t, set_add t acc) [] (class_names v).
Definition set_className (v : string) (e : Element) : Element :=
  set_classList (class_tokens v) e.

Definition set_top (v : CssLength) (s : Style) : Style :=
  {| style_top := v; style_bottom := style_bottom s;
     style_left := style_left s; style_right := style_right s;
     style_width := style_width s |}.
Definition set_bottom (v : CssLength) (s : Style) : Style :=
  {| style_top := style_top s; style_bottom := v;
     style_left := style_left s; style_right := style_right s;
     style_width := style_width s |}.
Definition set_left (v : CssLength) (s : Style) : Style :=
  {| style_top := style_top s; style_bottom := style_bottom s;
     style_left := v; style_right := style_right s;
     style_width := style_width s |}.
Definition set_right (v : CssLength) (s : Style) : Style :=
  {| style_top := style_top s; style_bottom := style_bottom s;
     style_left := style_left s; style_right := v;
     style_width := style_width s |}.
Definition set_width (v : CssLength) (s : Style) : Style :=
  {| style_top := style_top s; style_bottom := style_bottom s;
     style_left := style_left s; style_right := style_right s;
     style_width := v |}.

(** [style.width = `${n}px`]: the CSS parser drops a declaration whose value
    is not a valid width, and the former value stays. *)
Definition set_width_px (n : num) (s : Style) : Style :=
  if num_nonneg n then set_width (css_px n) s else s.

Definition alter_element (n : node) (f : Element → Element) (w : World)
    : World :=
  with_elements (<[n := f (element w n)]>) w.

Definition update_element (n : node) (f : Element → Element)
    : M World unit :=
  modify (alter_element n f).

(** [el.style.prop = v]. *)
Definition update_style (n : node) (f : Style → Style) : M World unit :=
  update_element n (λ e, set_style (f (style e)) e).

Definition createElement : M World node :=
  λ w, let n := fresh (dom (elements w)) in
       Ok n (with_elements (<[n := blank_element]>) w).

(** [parent.appendChild(child)]: the child leaves its former parent. *)
Definition appendChild (parent child : node) : M World unit :=
  let* old := gets (λ w, parentNode (element w child)) in
  match old with
  | Some q =>
      update_element q (λ e, set_childNodes (set_delete child (childNodes e)) e)
  | None => ret tt
  end ;;
  update_element parent (λ e, set_childNodes (childNodes e ++ [child]) e) ;;
  update_element child (set_parentNode (Some parent)).

(** [parent.removeChild(child)]: a [NotFoundError] unless [child] is a
    child of [parent]. *)
Definition removeChild (parent child : node) : M World unit :=
  let* par := gets (λ w, parentNode (element w child)) in
  if decide (par = Some parent) then
    update_element parent
      (λ e, set_childNodes (set_delete child (childNodes e)) e) ;;
    update_element child (set_parentNode None)
  else throw NotFoundError.

(** [document.createTextNode], and the text nodes the HTML parser makes:
    a node without classes, children or listeners. *)
Definition createTextNode : M World node := createElement.

(** Markup as the HTML parser reads it: a text node, or an element with its
    [class] attribute and its content. *)
#[local] Unset Elimination Schemes.
Inductive Markup :=
  | MText
  | MElement (class : string) (content : list Markup).
#[local] Set Elimination Schemes.

(** The parser at work inside [parent]: each node is created and appended
    to its parent, then its content is parsed into it. *)
Fixpoint parse_into (parent : node) (m : Markup) {struct m} : M World unit :=
  match m with
  | MText =>
      let* t := createTextNode in
      appendChild parent t
  | MElement class content =>
      let* e := createElement in
      update_element e (set_className class) ;;
      appendChild parent e ;;
      (fix parse_all (l : list Markup) : M World unit :=
         match l with
         | [] => ret tt
         | x :: l' => parse_into e x ;; parse_all l'
         end) content
  end.

(** Removing every child of [n], as assigning [innerHTML] or [textContent]
    does first. *)
Definition removeChildren (n : node) : M World unit :=
  let* children := gets (λ w, childNodes (element w n)) in
  forEach children (λ c, update_element c (set_parentNode None)) ;;
  update_element n (set_childNodes []).

(** [n.innerHTML = markup], with the markup as the parser reads it. *)
Definition set_innerHTML (n : node) (markup : list Markup) : M World unit :=
  removeChildren n ;;
  forEach markup (parse_into n).

(** [n.textContent = text]: one text node, none for the empty string. *)
Definition set_textContent (n : node) (text : string) : M World unit :=
  removeChildren n ;;
  if decide (text = "") then ret tt
  else
    let* t := createTextNode in
    appendChild n t.

Definition classList_contains (w : World) (n : node) (c : string) : bool :=
  bool_decide (c ∈ classList (element w n)).
Definition classList_add (n : node) (c : string) : M World unit :=
  update_element n (λ e, set_classList (set_add c (classList e)) e).
Definition classList_remove (n : node) (c : string) : M World unit :=
  update_element n (λ e, set_classList (set_delete c (classList e)) e).

(** The descendants of [n] in document order. *)
Fixpoint descendants (fuel : nat) (els : gmap node Element) (n : node)
    : list node :=
  match fuel with
  | 0 => []
  | S fuel' =>
      flat_map (λ c, c :: descendants fuel' els c)
               (childNodes (lookup_element els n))
  end.

(** [n.querySelector('.' + c)]. *)
Definition querySelector (w : World) (n : node) (c : string) : option node :=
  head (filter (λ d, c ∈ classList (element w d))
               (descendants (S (size (elements w))) (elements w) n)).

Fixpoint contains_from (fuel : nat) (els : gmap node Element)
    (n target : node) : bool :=
  bool_decide (target = n) ||
  match fuel with
  | 0 => false
  | S fuel' =>
      match parentNode (lookup_element els target) with
      | Some q => contains_from fuel' els n q
      | None => false
      end
  end.

(** [n.contains(target)]. *)
Definition contains (w : World) (n target : node) : bool :=
  contains_from (S (size (elements w))) (elements w) n target.

Definition zero_rect : DOMRect :=
  {| rect_top := num_lit 0; rect_bottom := num_lit 0;
     rect_left := num_lit 0; rect_right := num_lit 0;
     rect_width := num_lit 0; rect_height := num_lit 0 |}.

(** [n.getBoundingClientRect()]: an element without layout has the zero
    rectangle. *)
Definition getBoundingClientRect (w : World) (n : node) : DOMRect :=
  default zero_rect (layout w !! n).

(** Evaluating a function expression: a closure with a new identity. *)
Definition closure (c : Closure) : M World Fn :=
  λ w, Ok (nextFn w, c) (with_nextFn S w).

Fixpoint remove_first {A} `{EqDecision A} (a : A) (l : list A) : list A :=
  match l with
  | [] => []
  | x :: l' => if decide (x = a) then l' else x :: remove_first a l'
  end.

(** ** The control ([PluginControl.ts]) *)

Definition DEFAULT_OPTIONS : PluginControlOptions :=
  {| opt_collapsed := true; opt_position := TopRight;
     opt_title := "Plugin Control"; opt_panelWidth := num_lit 300;
     opt_className := "" |}.

(** [{ ...DEFAULT_OPTIONS, ...options }]. *)
Definition spread_options (d : PluginControlOptions)
    (options : option PartialOptions) : PluginControlOptions :=
  match options with
  | None => d
  | Some p =>
      {| opt_collapsed := default (opt_collapsed d) (po_collapsed p);
         opt_position := default (opt_position d) (po_position p);
         opt_title := default (opt_title d) (po_title p);
         opt_panelWidth := default (opt_panelWidth d) (po_panelWidth p);
         opt_className := default (opt_className d) (po_className p) |}
  end.

(** [new PluginControl(options)]: the world's [this] becomes the new
    control. *)
Definition new_PluginControl (options : option PartialOptions)
    : M World unit :=
  let opts := spread_options DEFAULT_OPTIONS options in
  let* d := alloc_record ∅ in
  let* st := alloc_object {| collapsed := opt_collapsed opts;
                             panelWidth := opt_panelWidth opts;
                             data := Some d |} in
  assign (λ _,
    {| _map := None; _mapContainer := None; _container := None;
       _panel := None; _options := opts; _state := st;
       _eventHandlers := ∅; _resizeHandler := None;
       _mapResizeHandler := None; _clickOutsideHandler := None |}).

(** Reading [this._state.*]. *)
Definition read_state : M World PluginState :=
  let* l := field _state in read_object l.

Definition getState : M World loc :=
  let* st := read_state in
  alloc_object st.

Definition _emit (event : PluginControlEvent) : M World unit :=
  log (Emit event) ;;
  let* handlers := field (λ c, _eventHandlers c !! event) in
  match handlers with
  | Some hs =>
      let* snapshot := getState in
      forEach hs (λ handler, log (Invoke handler event snapshot))
  | None => ret tt
  end.

Definition setState (newState : PartialState) : M World unit :=
  let* st := read_state in
  let* l := alloc_object (spread st newState) in
  assign (set_state l) ;;
  _emit EvStatechange.

(** [_getControlPosition] only reads: it is a function of the world. *)
Definition _getControlPosition (w : World) : Corner :=
  match c ← _container (this w); parentNode (element w c) with
  | None => TopRight
  | Some parent =>
      if classList_contains w parent "maplibregl-ctrl-top-left"
      then TopLeft
      else if classList_contains w parent "maplibregl-ctrl-top-right"
      then TopRight
      else if classList_contains w parent "maplibregl-ctrl-bottom-left"
      then BottomLeft
      else if classList_contains w parent "maplibregl-ctrl-bottom-right"
      then BottomRight
      else TopRight
  end.

(** The class the host gives to the container of each corner. *)
Definition corner_class (corner : Corner) : string :=
  match corner with
  | TopLeft => "maplibregl-ctrl-top-left"
  | TopRight => "maplibregl-ctrl-top-right"
  | BottomLeft => "maplibregl-ctrl-bottom-left"
  | BottomRight => "maplibregl-ctrl-bottom-right"
  end.

Definition panelGap : num := num_lit 5.

Definition _updatePanelPosition : M World unit :=
  log Reposition ;;
  let* container := field _container in
  let* panel := field _panel in
  let* mapContainer := field _mapContainer in
  match container, panel, mapContainer with
  | Some container, Some panel, Some mapContainer =>
      let* button :=
        gets (λ w, querySelector w container "plugin-control-toggle") in
      match button with
      | None => ret tt
      | Some button =>
          let* buttonRect := gets (λ w, getBoundingClientRect w button) in
          let* mapRect := gets (λ w, getBoundingClientRect w mapContainer) in
          let* position := gets _getControlPosition in
          let buttonTop := num_sub (rect_top buttonRect) (rect_top mapRect) in
          let buttonBottom :=
            num_sub (rect_bottom mapRect) (rect_bottom buttonRect) in
          let buttonLeft :=
            num_sub (rect_left buttonRect) (rect_left mapRect) in
          let buttonRight :=
            num_sub (rect_right mapRect) (rect_right buttonRect) in
          update_style panel (set_top css_unset) ;;
          update_style panel (set_bottom css_unset) ;;
          update_style panel (set_left css_unset) ;;
          update_style panel (set_right css_unset) ;;
          match position with
          | TopLeft =>
              update_style panel (set_top (css_px
                (num_add (num_add buttonTop (rect_height buttonRect))
                         panelGap))) ;;
              update_style panel (set_left (css_px buttonLeft))
          | TopRight =>
              update_style panel (set_top (css_px
                (num_add (num_add buttonTop (rect_height buttonRect))
                         panelGap))) ;;
              update_style panel (set_right (css_px buttonRight))
          | BottomLeft =>
              update_style panel (set_bottom (css_px
                (num_add (num_add buttonBottom (rect_height buttonRect))
                         panelGap))) ;;
              update_style panel (set_left (css_px buttonLeft))
          | BottomRight =>
              update_style panel (set_bottom (css_px
                (num_add (num_add buttonBottom (rect_height buttonRect))
                         panelGap))) ;;
              update_style panel (set_right (css_px buttonRight))
          end
      end
  | _, _, _ => ret tt
  end.

Definition toggle : M World unit :=
  let* l := field _state in
  write_object l (λ st, set_collapsed (negb (collapsed st)) st) ;;
  let* panel := field _panel in
  match panel with
  | Some panel =>
      let* st := read_state in
      if collapsed st then
        classList_remove panel "expanded" ;;
        _emit EvCollapse
      else
        classList_add panel "expanded" ;;
        _updatePanelPosition ;;
        _emit EvExpand
  | None => ret tt
  end ;;
  _emit EvStatechange.

Definition expand : M World unit :=
  let* st := read_state in
  if collapsed st then toggle else ret tt.

Definition collapse : M World unit :=
  let* st := read_state in
  if negb (collapsed st) then toggle else ret tt.

Definition on (event : PluginControlEvent) (handler : Handler)
    : M World unit :=
  let* has := field (λ c, bool_decide (is_Some (_eventHandlers c !! event))) in
  when (negb has)
    (assign (λ c, set_eventHandlers (<[event := []]> (_eventHandlers c)) c)) ;;
  let* found := field (λ c, _eventHandlers c !! event) in
  let* hs := deref found in
  assign (λ c, set_eventHandlers
                 (<[event := set_add handler hs]> (_eventHandlers c)) c).

Definition off (event : PluginControlEvent) (handler : Handler)
    : M World unit :=
  let* found := field (λ c, _eventHandlers c !! event) in
  match found with
  | Some hs =>
      assign (λ c, set_eventHandlers
                     (<[event := set_delete handler hs]> (_eventHandlers c)) c)
  | None => ret tt
  end.

Definition getMap : M World (option MapLibreMap) := field _map.
Definition getContainer : M World (option node) := field _container.

(** [el.addEventListener('click', f)] on an element. *)
Definition addClickListener (n : node) (f : Fn) : M World unit :=
  update_element n (λ e, set_clickListeners (set_add f (clickListeners e)) e).

(** The markup of the toggle button: the icon, a [span] of class
    [plugin-control-icon] that holds an [svg] with four [rect]s.  The line
    breaks and the indentation between the tags are text nodes. *)
Definition toggle_icon : list Markup :=
  [ MText;
    MElement "plugin-control-icon"                       (* span *)
      [ MText;
        MElement ""                                      (* svg *)
          [ MText; MElement "" [];                       (* rect *)
            MText; MElement "" [];                       (* rect *)
            MText; MElement "" [];                       (* rect *)
            MText; MElement "" [];                       (* rect *)
            MText ];
        MText ];
    MText ].

(** The markup of the close button: the character reference [&times;]. *)
Definition close_label : list Markup := [ MText ].

(** The markup of the content area: a [p] of class
    [plugin-control-placeholder] that holds a text, between two runs of
    whitespace. *)
Definition content_placeholder : list Markup :=
  [ MText; MElement "plugin-control-placeholder" [ MText ]; MText ].

Definition _createContainer : M World node :=
  let* container := createElement in
  let* className := field (λ c, opt_className (_options c)) in
  update_element container (set_className
    ("maplibregl-ctrl maplibregl-ctrl-group plugin-control" +:+
     (if decide (className = "") then "" else " " +:+ className))) ;;
  let* toggleBtn := createElement in
  update_element toggleBtn (set_className "plugin-control-toggle") ;;
  set_innerHTML toggleBtn toggle_icon ;;
  let* f := closure ToggleClick in
  addClickListener toggleBtn f ;;
  appendChild container toggleBtn ;;
  ret container.

Definition _createPanel : M World node :=
  let* panel := createElement in
  update_element panel (set_className "plugin-control-panel") ;;
  let* width := field (λ c, opt_panelWidth (_options c)) in
  update_style panel (set_width_px width) ;;
  let* header := createElement in
  update_element header (set_className "plugin-control-header") ;;
  let* title := createElement in
  update_element title (set_className "plugin-control-title") ;;
  let* text := field (λ c, opt_title (_options c)) in
  set_textContent title text ;;
  let* closeBtn := createElement in
  update_element closeBtn (set_className "plugin-control-close") ;;
  set_innerHTML closeBtn close_label ;;
  let* f := closure CloseClick in
  addClickListener closeBtn f ;;
  appendChild header title ;;
  appendChild header closeBtn ;;
  let* content := createElement in
  update_element content (set_className "plugin-control-content") ;;
  set_innerHTML content content_placeholder ;;
  appendChild panel header ;;
  appendChild panel content ;;
  ret panel.

Definition _setupEventListeners : M World unit :=
  let* f := closure ClickOutside in
  assign (set_clickOutsideHandler (Some f)) ;;
  modify (with_documentClick (set_add f)) ;;
  let* g := closure WindowResize in
  assign (set_resizeHandler (Some g)) ;;
  modify (with_windowResize (set_add g)) ;;
  let* h := closure MapResize in
  assign (set_mapResizeHandler (Some h)) ;;
  let* map := field _map in
  match map with
  | Some map => modify (with_mapResize (λ l, l ++ [(map_id map, h)]))
  | None => ret tt
  end.

Definition requestAnimationFrame (f : Fn) : M World unit :=
  modify (with_frames (λ l, l ++ [f])).

Definition onAdd (map : MapLibreMap) : M World (option node) :=
  assign (set_map (Some map)) ;;
  assign (set_mapContainer (Some (map_container map))) ;;
  let* container := _createContainer in
  assign (set_container (Some container)) ;;
  let* panel := _createPanel in
  assign (set_panel (Some panel)) ;;
  let* mapContainer := field _mapContainer in
  let* mapContainer := deref mapContainer in
  let* panel := field _panel in
  let* panel := deref panel in
  appendChild mapContainer panel ;;
  _setupEventListeners ;;
  let* st := read_state in
  when (negb (collapsed st))
    (let* panel := field _panel in
     let* panel := deref panel in
     classList_add panel "expanded" ;;
     let* f := closure FrameReposition in
     requestAnimationFrame f) ;;
  field _container.

(** [el?.parentNode?.removeChild(el)]. *)
Definition detach (el : option node) : M World unit :=
  match el with
  | None => ret tt
  | Some el =>
      let* parent := gets (λ w, parentNode (element w el)) in
      match parent with
      | None => ret tt
      | Some parent => removeChild parent el
      end
  end.

Definition onRemove : M World unit :=
  let* resizeHandler := field _resizeHandler in
  match resizeHandler with
  | Some f =>
      modify (with_windowResize (set_delete f)) ;;
      assign (set_resizeHandler None)
  | None => ret tt
  end ;;
  let* mapResizeHandler := field _mapResizeHandler in
  let* map := field _map in
  match mapResizeHandler, map with
  | Some f, Some map =>
      modify (with_mapResize (remove_first (map_id map, f))) ;;
      assign (set_mapResizeHandler None)
  | _, _ => ret tt
  end ;;
  let* clickOutsideHandler := field _clickOutsideHandler in
  match clickOutsideHandler with
  | Some f =>
      modify (with_documentClick (set_delete f)) ;;
      assign (set_clickOutsideHandler None)
  | None => ret tt
  end ;;
  let* panel := field _panel in
  detach panel ;;
  let* container := field _container in
  detach container ;;
  assign (set_map None) ;;
  assign (set_mapContainer None) ;;
  assign (set_container None) ;;
  assign (set_panel None) ;;
  assign (set_eventHandlers ∅).

(** The bodies of the closures, run when the browser or the map calls
    them; [target] is the [target] of the click. *)
Definition call (f : Closure) (target : node) : M World unit :=
  match f with
  | ToggleClick => toggle
  | CloseClick => collapse
  | ClickOutside =>
      let* container := field _container in
      let* panel := field _panel in
      match container, panel with
      | Some container, Some panel =>
          let* w := gets id in
          if negb (contains w container target) &&
             negb (contains w panel target)
          then collapse else ret tt
      | _, _ => ret tt
      end
  | WindowResize | MapResize =>
      let* st := read_state in
      when (negb (collapsed st)) _updatePanelPosition
  | FrameReposition => _updatePanelPosition
  end.

(** ** What a caller can do with an object it holds a reference to *)

(** [o.collapsed = b], [o.panelWidth = n], [o.data = d]. *)
Definition assign_collapsed (o : loc) (b : bool) : M World unit :=
  write_object o (set_collapsed b).
Definition assign_panelWidth (o : loc) (n : num) : M World unit :=
  write_object o (set_panelWidth n).
Definition assign_data (o : loc) (d : option loc) : M World unit :=
  write_object o (set_data d).

(** [o.data[k] = v]: a [TypeError] when [o.data] is undefined. *)
Definition assign_data_key (o : loc) (k : string) (v : unknown)
    : M World unit :=
  let* st := read_object o in
  let* r := deref (data st) in
  let* m := gets (λ w, records w !! r) in
  let* m := deref m in
  modify (with_records (<[r := <[k := v]> m]>)).

(** The mapping reached through [o.data], if any. *)
Definition data_of (w : World) (o : loc) : option (gmap string unknown) :=
  st ← objects w !! o; r ← data st; records w !! r.

(** The live state of the control: the fields of [this._state]. *)
Definition live (w : World) : option PluginState :=
  objects w !! _state (this w).

(** The mapping reached through [this._state.data]. *)
Definition live_data (w : World) : option (gmap string unknown) :=
  data_of w (_state (this w)).

(** Whether the panel is shown: the ['expanded'] class on [this._panel]. *)
Definition panel_expanded (w : World) (panel : node) : bool :=
  classList_contains w panel "expanded".

(** What the log gained between two worlds. *)
Definition emitted (w w' : World) : list Effect :=
  drop (length (trace w)) (trace w').

(** The events among the entries of a log, in order. *)
Definition events (t : list Effect) : list PluginControlEvent :=
  omap (λ e, match e with Emit ev => Some ev | _ => None end) t.

(** The number of calls of [h] for [ev] in a log. *)
Definition is_call (h : Handler) (ev : PluginControlEvent) (e : Effect)
    : bool :=
  match e with
  | Invoke h' ev' _ => bool_decide (h' = h) && bool_decide (ev' = ev)
  | _ => false
  end.
Definition calls (h : Handler) (ev : PluginControlEvent) (t : list Effect)
    : nat :=
  length (List.filter (is_call h ev) t).

(** What the log of one emission looks like: the entry into [_emit],
    then one call per subscriber, all with the same event object. *)
Definition emission (c : Control) (ev : PluginControlEvent) (snapshot : loc)
    : list Effect :=
  Emit ev ::
  match _eventHandlers c !! ev with
  | Some hs => map (λ h, Invoke h ev snapshot) hs
  | None => []
  end.

(** [h] is registered for [ev]. *)
Definition subscribed (c : Control) (ev : PluginControlEvent) (h : Handler)
    : Prop :=
  ∃ hs, _eventHandlers c !! ev = Some hs ∧ h ∈ hs.

(** A control that holds no element, no map and no listener: one that was
    never added to a map, or was removed from it. *)
Definition unattached (c : Control) : Prop :=
  _map c = None ∧ _mapContainer c = None ∧ _container c = None ∧
  _panel c = None ∧ _resizeHandler c = None ∧ _clickOutsideHandler c = None.

(** The invariant of the data model: while a panel exists, the [collapsed]
    flag is the negation of the panel's ['expanded'] class. *)
Definition mirrors (w : World) : Prop :=
  ∀ st panel, live w = Some st → _panel (this w) = Some panel →
    panel_expanded w panel = negb (collapsed st).

(** A run that leaves the control, the heap and the log alone, removes no
    element and keeps the classes of every element that existed before. *)
Definition dom_step (w w' : World) : Prop :=
  this w' = this w ∧ objects w' = objects w ∧ records w' = records w ∧
  trace w' = trace w ∧
  dom (elements w) ⊆ dom (elements w') ∧
  ∀ n, n ∈ dom (elements w) →
       classList (element w' n) = classList (element w n).

(** The calls a host or a caller can make on the control, and the calls of
    the control's closures by the browser or the map. *)
Inductive Call :=
  | CallToggle
  | CallExpand
  | CallCollapse
  | CallSetState (p : PartialState)
  | CallGetState
  | CallOn (e : PluginControlEvent) (h : Handler)
  | CallOff (e : PluginControlEvent) (h : Handler)
  | CallOnAdd (map : MapLibreMap)
  | CallOnRemove
  | CallClosure (f : Closure) (target : node).

Definition perform (c : Call) : M World unit :=
  match c with
  | CallToggle => toggle
  | CallExpand => expand
  | CallCollapse => collapse
  | CallSetState p => setState p
  | CallGetState => getState ;; ret tt
  | CallOn e h => on e h
  | CallOff e h => off e h
  | CallOnAdd map => onAdd map ;; ret tt
  | CallOnRemove => onRemove
  | CallClosure f target => call f target
  end.

(** Every call but a [setState] that carries a [collapsed] key. *)
Definition keeps_collapsed (c : Call) : Prop :=
  match c with
  | CallSetState p => p_collapsed p = None
  | _ => True
  end.

(** ** Well-formed worlds

    [this._state] always refers to an object, and a [Set] holds no
    element twice. *)
Definition wf (w : World) : Prop :=
  is_Some (live w) ∧
  map_Forall (λ _ hs, NoDup hs) (_eventHandlers (this w)).

#[global] Instance wf_dec (w : World) : Decision (wf w).
Proof. unfold wf. apply _. Defined.

(** ** The host

    What the host's [map.addControl(control, position)] does with the
    control: it calls [onAdd] and appends the returned element to the
    container of the chosen corner. *)
Definition addControl (map : MapLibreMap) (cornerContainer : node)
    : M World unit :=
  let* c := onAdd map in
  match c with
  | Some c => appendChild cornerContainer c
  | None => ret tt
  end.

(** The world a program leaves behind ([w] itself when it throws). *)
Definition after {A} (m : M World A) (w : World) : World :=
  default w (exec m w).

(** ** The statements of the specification, for [setState] and the
    positioner *)

(** The one-level-deep merge of two [data] mappings the specification
    describes for [setState]: the keys of [p] override, the other keys of
    [old] are kept. *)
Definition spec_merge_data (old p : gmap string unknown)
    : gmap string unknown :=
  p ∪ old.

(** The four candidate offsets of the specification. *)
Definition spec_top (toggle container : DOMRect) : num :=
  num_sub (rect_top toggle) (rect_top container).
Definition spec_bottom (toggle container : DOMRect) : num :=
  num_sub (rect_bottom container) (rect_bottom toggle).
Definition spec_left (toggle container : DOMRect) : num :=
  num_sub (rect_left toggle) (rect_left container).
Definition spec_right (toggle container : DOMRect) : num :=
  num_sub (rect_right container) (rect_right toggle).

Definition spec_gap : num := num_lit 5.

(** The table of the specification: the two properties set for each
    corner, the other two unset; [width] is not a positional property. *)
Definition spec_panel_style (corner : Corner) (toggle container : DOMRect)
    (width : CssLength) : Style :=
  let below :=
    css_px (num_add (num_add (spec_top toggle container)
                             (rect_height toggle)) spec_gap) in
  let above :=
    css_px (num_add (num_add (spec_bottom toggle container)
                             (rect_height toggle)) spec_gap) in
  match corner with
  | TopLeft =>
      {| style_top := below; style_bottom := css_unset;
         style_left := css_px (spec_left toggle container);
         style_right := css_unset; style_width := width |}
  | TopRight =>
      {| style_top := below; style_bottom := css_unset;
         style_left := css_unset;
         style_right := css_px (spec_right toggle container);
         style_width := width |}
  | BottomLeft =>
      {| style_top := css_unset; style_bottom := above;
         style_left := css_px (spec_left toggle container);
         style_right := css_unset; style_width := width |}
  | BottomRight =>
      {| style_top := css_unset; style_bottom := above;
         style_left := css_unset;
         style_right := css_px (spec_right toggle container);
         style_width := width |}
  end.

(** ** The React wrapper ([PluginControlReact])

    The effect that follows the [collapsed] prop.  [current] tells whether
    [controlRef.current] holds the control; [collapsedProp] is
    [options.collapsed], [None] when it is undefined. *)
Definition PluginControlReact_sync (current : bool)
    (collapsedProp : option bool) : M World unit :=
  when current
    (let* currentState := getState in
     let* st := read_object currentState in
     match collapsedProp with
     | Some c =>
         if negb (eqb c (collapsed st))
         then (if c then collapse else expand)
         else ret tt
     | None => ret tt
     end).

(** ** The state hook ([usePluginState])

    [React.useState] keeps a reference to the current state object and
    replaces it by what an updater returns for it; the hook's logic is in
    the initial value and in the updaters, which build new objects. *)

(** The module's [const DEFAULT_STATE = { collapsed: true, panelWidth: 300,
    data: {} }], evaluated once when the module is loaded. *)
Definition load_DEFAULT_STATE : M World loc :=
  let* d := alloc_record ∅ in
  alloc_object {| collapsed := true; panelWidth := num_lit 300;
                  data := Some d |}.

(** [{ ...DEFAULT_STATE, ...initialState }]: the initial value, and what
    [reset] sets. *)
Definition usePluginState_initial (DEFAULT_STATE : loc)
    (initialState : option PartialState) : M World loc :=
  let* st := read_object DEFAULT_STATE in
  alloc_object
    match initialState with
    | Some p => spread st p
    | None => st
    end.

(** [(prev) => ({ ...prev, collapsed })]. *)
Definition setCollapsed_updater (c : bool) (prev : loc) : M World loc :=
  let* st := read_object prev in
  alloc_object (set_collapsed c st).

(** [(prev) => ({ ...prev, panelWidth })]. *)
Definition setPanelWidth_updater (n : num) (prev : loc) : M World loc :=
  let* st := read_object prev in
  alloc_object (set_panelWidth n st).

(** [{ ...o }] for a possibly undefined [Record<string, unknown>]: the
    entries of the mapping, none when it is undefined. *)
Definition record_entries (o : option loc) : M World (gmap string unknown) :=
  match o with
  | None => ret ∅
  | Some r => let* m := gets (λ w, records w !! r) in deref m
  end.

(** [(prev) => ({ ...prev, data: { ...prev.data, ...data } })]. *)
Definition setData_updater (data' : loc) (prev : loc) : M World loc :=
  let* st := read_object prev in
  let* old := record_entries (data st) in
  let* new := record_entries (Some data') in
  let* merged := alloc_record (new ∪ old) in
  alloc_object (set_data (Some merged) st).

(** [(prev) => ({ ...prev, collapsed: !prev.collapsed })]. *)
Definition toggle_updater (prev : loc) : M World loc :=
  let* st := read_object prev in
  alloc_object (set_collapsed (negb (collapsed st)) st).

(** The updates a component can request through the hook. *)
Inductive Update :=
  | UpdCollapsed (c : bool)
  | UpdPanelWidth (n : num)
  | UpdData (data' : loc)
  | UpdToggle
  | UpdReset.

(** One update of the hook's state cell: the new current state object. *)
Definition apply_update (DEFAULT_STATE : loc)
    (initialState : option PartialState) (u : Update) (prev : loc)
    : M World loc :=
  match u with
  | UpdCollapsed c => setCollapsed_updater c prev
  | UpdPanelWidth n => setPanelWidth_updater n prev
  | UpdData d => setData_updater d prev
  | UpdToggle => toggle_updater prev
  | UpdReset => usePluginState_initial DEFAULT_STATE initialState
  end.

(** A sequence of updates, threaded through the state cell. *)
Fixpoint apply_updates (DEFAULT_STATE : loc)
    (initialState : option PartialState) (us : list Update) (prev : loc)
    : M World loc :=
  match us with
  | [] => ret prev
  | u :: us' =>
      let* next := apply_update DEFAULT_STATE initialState u prev in
      apply_updates DEFAULT_STATE initialState us' next
  end.

(** ** The React wrapper's lifecycle

    The effect that runs when the component mounts, with the [map] prop,
    the remaining props as [options], the [onStateChange] prop and the
    host's container of each position.  It returns whether
    [controlRef.current] holds a control afterwards.  The subscriber is the
    function [(event) => onStateChange(event.state)], named by the callback
    it forwards to. *)
Definition PluginControlReact_mount (map : option MapLibreMap)
    (options : PartialOptions) (onStateChange : option Handler)
    (controlPositions : Corner → node) : M World bool :=
  match map with
  | None => ret false
  | Some map =>
      new_PluginControl (Some options) ;;
      match onStateChange with
      | Some h => on EvStatechange h
      | None => ret tt
      end ;;
      addControl map
        (controlPositions (default TopRight (po_position options))) ;;
      ret true
  end.

(** The cleanup of that effect: [if (map.hasControl(control))
    map.removeControl(control)], where the host's [removeControl] calls
    [onRemove]. *)
Definition PluginControlReact_cleanup (hasControl : bool) : M World unit :=
  when hasControl onRemove.

(** ** Notions used in the statements *)

(** The classes of the element the container sits in ([parent.classList]),
    none when there is no such element. *)
Definition parent_classes (w : World) : list string :=
  match c ← _container (this w); parentNode (element w c) with
  | Some parent => classList (element w parent)
  | None => []
  end.

(** Every [data] reference held by an object refers to a mapping. *)
Definition closed_heap (w : World) : Prop :=
  map_Forall (λ _ st, ∀ r, data st = Some r → is_Some (records w !! r))
             (objects w).

#[global] Instance closed_heap_dec (w : World) : Decision (closed_heap w).
Proof.
  apply map_Forall_dec. intros l st. destruct (data st) as [r|].
  - destruct (decide (is_Some (records w !! r))) as [Hy|Hn].
    + left. by intros ? [= <-].
    + right. intros Hall. by apply Hn, Hall.
  - left. by intros ? ?.
Defined.

(** The arguments of the hook and of an update refer to existing
    mappings. *)
Definition initial_ok (w : World) (initialState : option PartialState)
    : Prop :=
  ∀ p r, initialState = Some p → p_data p = Some (Some r) →
         is_Some (records w !! r).
Definition update_ok (w : World) (u : Update) : Prop :=
  match u with
  | UpdData d => is_Some (records w !! d)
  | _ => True
  end.

(** The fields [{ ...DEFAULT_STATE, ...initialState }] has. *)
Definition initial_fields (stD : PluginState)
    (initialState : option PartialState) : PluginState :=
  match initialState with
  | Some p => spread stD p
  | None => stD
  end.

(** A control that holds nothing of a map: no map, no element and none of
    its three listeners. *)
Definition holds_nothing (c : Control) : Prop :=
  unattached c ∧ _mapResizeHandler c = None.

(** The map's resize listener is held only together with the map.  This is
    so after construction and after every call. *)
Definition map_listener_ok (c : Control) : Prop :=
  is_Some (_mapResizeHandler c) → is_Some (_map c).

(** The value [style.width] has after [style.width = `${n}px`] on a new
    element. *)
Definition css_width (n : num) : CssLength :=
  if num_nonneg n then css_px n else css_unset.

(** The classes of the container: the three classes of a control, then the
    names of the [className] option that are not yet there, in order. *)
Definition container_classes (className : string) : list string :=
  foldl (λ acc t, set_add t acc)
        ["maplibregl-ctrl"; "maplibregl-ctrl-group"; "plugin-control"]
        (class_names className).

(** [renders new els parent k m]: in [els], the node [k] is the rendering
    of the markup [m] inside [parent].  It is one of the nodes in [new], its
    parent is [parent], it has the classes of [m], no listener and no inline
    style, and its children render the content of [m], one by one. *)
Fixpoint renders (new : gset node) (els : gmap node Element)
    (parent k : node) (m : Markup) {struct m} : Prop :=
  k ∈ new ∧
  match m with
  | MText =>
      lookup_element els k = set_parentNode (Some parent) blank_element
  | MElement class content =>
      set_childNodes [] (lookup_element els k)
      = set_parentNode (Some parent) (set_className class blank_element) ∧
      (fix all (ks : list node) (ms : list Markup) {struct ms} : Prop :=
         match ms, ks with
         | [], [] => True
         | m' :: ms', k' :: ks' => renders new els k k' m' ∧ all ks' ms'
         | _, _ => False
         end) (childNodes (lookup_element els k)) content
  end.

(** The children [ks] of [parent] render the markup [ms]. *)
Definition renders_all (new : gset node) (els : gmap node Element)
    (parent : node) (ks : list node) (ms : list Markup) : Prop :=
  Forall2 (renders new els parent) ks ms.

(** What [textContent = text] leaves in an element, as markup. *)
Definition text_markup (text : string) : list Markup :=
  if decide (text = "") then [] else [MText].

(** [grown w n ks w']: [w'] is [w] with new nodes below [n].  Only the
    elements differ: those of [w] other than [n] are as they were, and [n]
    has got the children [ks] after its own. *)
Definition grown (w : World) (n : node) (ks : list node) (w' : World)
    : Prop :=
  w' = with_elements (λ _, elements w') w ∧
  dom (elements w) ⊆ dom (elements w') ∧
  (∀ x, x ∈ dom (elements w) → x ≠ n → element w' x = element w x) ∧
  element w' n = set_childNodes (childNodes (element w n) ++ ks) (element w n).

(** [extends w0 w]: [w] is [w0] with new elements.  Only the elements and
    the counter of closures differ, and every element of [w0] is as it
    was. *)
Definition extends (w0 w : World) : Prop :=
  w = with_nextFn (λ _, nextFn w) (with_elements (λ _, elements w) w0) ∧
  (nextFn w0 ≤ nextFn w)%nat ∧
  dom (elements w0) ⊆ dom (elements w) ∧
  (∀ n, n ∈ dom (elements w0) → element w n = element w0 n).

(** The control as the host leaves it: the container, whose only child is
    the toggle button, sits in the container of a corner; the panel is
    another element. *)
Definition docked (w : World) (c b p cornerContainer : node)
    (corner : Corner) : Prop :=
  _container (this w) = Some c ∧ _panel (this w) = Some p ∧
  p ≠ c ∧ p ≠ b ∧ p ≠ cornerContainer ∧
  childNodes (element w c) = [b] ∧
  "plugin-control-toggle" ∈ classList (element w b) ∧
  parentNode (element w c) = Some cornerContainer ∧
  classList (element w cornerContainer) = [corner_class corner].

(** Every listener that is registered was created before: its identity is
    below the counter. *)
Definition listeners_known (w : World) : Prop :=
  Forall (λ f : Fn, (fst f < nextFn w)%nat)
         (windowResize w ++ documentClick w ++ (snd <$> mapResize w)).

(** The children of an element are elements of the page. *)
Definition children_exist (w : World) (n : node) : Prop :=
  Forall (λ x, x ∈ dom (elements w)) (childNodes (element w n)).

End Model.

(** ** A concrete page

    Numbers are integers and [data] values are integers.  The page holds the
    map container (element 0, 800 by 600 at (20, 10)) and, inside it, the
    host's container for the top-right corner (element 1).  The layout also
    lists the rectangle the browser gives to the toggle button once it is
    created (element 3, 29 by 29). *)

Definition no_control : Control (num := Z) :=
  {| _map := None; _mapContainer := None; _container := None; _panel := None;
     _options := DEFAULT_OPTIONS; _state := 0; _eventHandlers := ∅;
     _resizeHandler := None; _mapResizeHandler := None;
     _clickOutsideHandler := None |}.

Definition map_rect : DOMRect (num := Z) :=
  {| rect_top := 10%Z; rect_bottom := 610%Z; rect_left := 20%Z;
     rect_right := 820%Z; rect_width := 800%Z; rect_height := 600%Z |}.

Definition button_rect : DOMRect (num := Z) :=
  {| rect_top := 20%Z; rect_bottom := 49%Z; rect_left := 781%Z;
     rect_right := 810%Z; rect_width := 29%Z; rect_height := 29%Z |}.

Definition page : World (num := Z) (unknown := Z) :=
  {| this := no_control; objects := ∅; records := ∅;
     elements :=
       {[ 0 := set_childNodes [1] blank_element;
          1 := set_parentNode (Some 0)
                 (set_classList ["maplibregl-ctrl-top-right"] blank_element) ]};
     layout := {[ 0 := map_rect; 3 := button_rect ]};
     windowResize := []; documentClick := []; mapResize := []; frames := [];
     nextFn := 0; trace := [] |}.

Definition the_map : MapLibreMap := {| map_id := 0; map_container := 0 |}.

(** A control that was constructed with the default options. *)
Definition constructed : World (num := Z) (unknown := Z) :=
  after (new_PluginControl None) page.

(** The same control with two subscribers, added to the map's top-right
    corner: attached and collapsed. *)
Definition attached : World (num := Z) (unknown := Z) :=
  after (on EvExpand 7 ;; on EvStatechange 8 ;; addControl the_map 1)
        constructed.

(** A control whose [data] is [{ a: 1 }], and a caller's mapping
    [{ b: 2 }] (record 2) about to be passed to [setState]. *)
Definition with_data : World (num := Z) (unknown := Z) :=
  after (let* d := alloc_record {[ "a" := 1%Z ]} in
         setState {| p_collapsed := None; p_panelWidth := None;
                     p_data := Some (Some d) |} ;;
         alloc_record {[ "b" := 2%Z ]})
        constructed.

(** The world after [const snapshot = control.getState()] (object 1). *)
Definition snapshot_taken : World (num := Z) (unknown := Z) :=
  after getState constructed.

(** The state of a control constructed with the default options; its
    [data] is the empty mapping (record 0). *)
Definition initial_state : PluginState (num := Z) :=
  {| collapsed := true; panelWidth := 300%Z; data := Some 0 |}.

(** [{ data: <record 2> }], [{ collapsed: false }]. *)
Definition only_data : PartialState (num := Z) :=
  {| p_collapsed := None; p_panelWidth := None; p_data := Some (Some 2) |}.
Definition only_collapsed_false : PartialState (num := Z) :=
  {| p_collapsed := Some false; p_panelWidth := None; p_data := None |}.

(** The attached control after [toggle()]: expanded, the panel shown. *)
Definition shown : World (num := Z) (unknown := Z) :=
  after toggle attached.

(** The state of an expanded control with the default options. *)
Definition expanded_state : PluginState (num := Z) :=
  {| collapsed := false; panelWidth := 300%Z; data := Some 0 |}.

(** The heap of a component that uses the hook: the module's default state
    (object 0, with the empty mapping 0), the hook's initial state (object
    1), the state after [setData({ a: 1 })] (object 2, whose [data] is the
    mapping 2), and a mapping [{ b: 2 }] (3) about to be passed to
    [setData]. *)
Definition hook_heap : World (num := Z) (unknown := Z) :=
  after (let* d := load_DEFAULT_STATE in
         let* s := usePluginState_initial d None in
         let* r := alloc_record {[ "a" := 1%Z ]} in
         setData_updater r s ;;
         alloc_record {[ "b" := 2%Z ]})
        page.

(** A control constructed with [className: 'wide dark wide'] and
    [panelWidth: -5]: the class attribute lists a name twice, and the width
    is not one the CSS parser accepts. *)
Definition styled_options : PartialOptions (num := Z) :=
  {| po_collapsed := None; po_position := None; po_title := None;
     po_panelWidth := Some (-5)%Z; po_className := Some "wide dark wide" |}.

Definition styled : World (num := Z) (unknown := Z) :=
  after (new_PluginControl (Some styled_options)) page.

Definition styled_state : PluginState (num := Z) :=
  {| collapsed := true; panelWidth := (-5)%Z; data := Some 0 |}.

(** The props [collapsed={false}] and nothing else. *)
Definition props_expanded : PartialOptions (num := Z) :=
  {| po_collapsed := Some false; po_position := None; po_title := None;
     po_panelWidth := None; po_className := None |}.

(** * Properties *)

Section Properties.
Context {num unknown : Type} `{JsNumber num}.
Implicit Types (w : World (num := num) (unknown := unknown)).
Implicit Types (st : PluginState (num := num)).

(** ** The log and the monad *)

Lemma with_trace_app (l1 l2 : list Effect) w :
  with_trace (λ t, t ++ l2) (with_trace (λ t, t ++ l1) w)
  = with_trace (λ t, t ++ (l1 ++ l2)) w.
Proof. destruct w; unfold with_trace; simpl. by rewrite app_assoc. Qed.

Lemma with_trace_nil w : with_trace (λ t, t ++ []) w = w.
Proof. destruct w; unfold with_trace; simpl. by rewrite app_nil_r. Qed.

Lemma forEach_log {A} (f : A → Effect) (l : list A) w :
  forEach l (λ a, log (f a)) w = Ok tt (with_trace (λ t, t ++ map f l) w).
Proof.
  revert w. induction l as [|a l IH]; intros w; simpl.
  - by rewrite with_trace_nil.
  - unfold bind, log at 1, modify. rewrite IH, with_trace_app. done.
Qed.

(** ** The heap and emissions *)

Lemma read_state_ok w st : live w = Some st → read_state w = Ok st w.
Proof.
  unfold live, read_state, read_object, field, bind, gets, deref.
  intros ->. done.
Qed.

Lemma getState_ok w st :
  live w = Some st →
  getState w = Ok (fresh (dom (objects w)))
                  (with_objects (<[fresh (dom (objects w)) := st]>) w).
Proof.
  intros Hl. unfold getState, bind. rewrite (read_state_ok _ _ Hl). done.
Qed.

Lemma emit_ok w e st :
  live w = Some st → _emit e w = Ok tt (after (_emit e) w).
Proof.
  intros Hl. unfold after, exec.
  unfold _emit, bind, field, gets. unfold log at 1. unfold modify; simpl.
  destruct (_eventHandlers (this w) !! e) as [hs|]; [|done].
  rewrite (getState_ok _ st); [|done].
  rewrite forEach_log. done.
Qed.

Lemma after_emit w e st :
  live w = Some st →
  after (_emit e) w =
    match _eventHandlers (this w) !! e with
    | Some hs =>
        with_trace (λ t, t ++ emission (this w) e (fresh (dom (objects w))))
          (with_objects (<[fresh (dom (objects w)) := st]>) w)
    | None => with_trace (λ t, t ++ [Emit e]) w
    end.
Proof.
  intros Hl. unfold after, exec.
  unfold _emit, bind, field, gets. unfold log at 1. unfold modify; simpl.
  unfold emission.
  destruct (_eventHandlers (this w) !! e) as [hs|]; [|done].
  rewrite (getState_ok _ st); [|done].
  rewrite forEach_log. simpl.
  destruct w; unfold with_trace, with_objects; simpl. f_equal.
  by rewrite <- app_assoc.
Qed.


Lemma bind_run {A B} (m : M _ A) (f : A → M _ B) w a w' :
  m w = Ok a w' → (let* x := m in f x) w = f a w'.
Proof. unfold bind. by intros ->. Qed.

Lemma fresh_object w : objects w !! fresh (dom (objects w)) = None.
Proof. apply not_elem_of_dom, is_fresh. Qed.

Lemma fresh_not_state w st :
  live w = Some st → fresh (dom (objects w)) ≠ _state (this w).
Proof. unfold live. intros Hl Heq. rewrite <- Heq, fresh_object in Hl. done. Qed.

Lemma write_object_ok w l f st :
  objects w !! l = Some st →
  write_object l f w = Ok tt (with_objects (<[l := f st]>) w).
Proof.
  intros Hl. unfold write_object, read_object, bind, gets, deref, modify.
  by rewrite Hl.
Qed.

Lemma after_emit_this w e st :
  live w = Some st → this (after (_emit e) w) = this w.
Proof. intros Hl. rewrite (after_emit _ _ st Hl). by destruct (_ !! e). Qed.

Lemma after_emit_elements w e st :
  live w = Some st → elements (after (_emit e) w) = elements w.
Proof. intros Hl. rewrite (after_emit _ _ st Hl). by destruct (_ !! e). Qed.

Lemma after_emit_records w e st :
  live w = Some st → records (after (_emit e) w) = records w.
Proof. intros Hl. rewrite (after_emit _ _ st Hl). by destruct (_ !! e). Qed.

Lemma after_emit_trace w e st :
  live w = Some st →
  trace (after (_emit e) w)
  = trace w ++ emission (this w) e (fresh (dom (objects w))).
Proof.
  intros Hl. rewrite (after_emit _ _ st Hl). unfold emission.
  by destruct (_ !! e).
Qed.

Lemma after_emit_objects w e st l :
  live w = Some st → is_Some (objects w !! l) →
  objects (after (_emit e) w) !! l = objects w !! l.
Proof.
  intros Hl [x Hx]. rewrite (after_emit _ _ st Hl).
  destruct (_ !! e); simpl; [|done].
  apply lookup_insert_ne. intros <-. by rewrite fresh_object in Hx.
Qed.

Lemma after_emit_live w e st :
  live w = Some st → live (after (_emit e) w) = Some st.
Proof.
  intros Hl. unfold live. rewrite (after_emit_this _ _ st Hl).
  rewrite (after_emit_objects _ _ st); [done..|]. by exists st.
Qed.

(** The snapshot handed to the subscribers is a new object holding a copy
    of the fields of the live state. *)
Lemma after_emit_snapshot w e st hs :
  live w = Some st → _eventHandlers (this w) !! e = Some hs →
  objects (after (_emit e) w) !! fresh (dom (objects w)) = Some st.
Proof.
  intros Hl Hh. rewrite (after_emit _ _ st Hl), Hh. simpl.
  apply lookup_insert_eq.
Qed.


(** ** Elements and the positioner *)

Lemma lookup_element_insert_eq (els : gmap node (Element (num := num))) n e :
  lookup_element (<[n := e]> els) n = e.
Proof. unfold lookup_element. by rewrite lookup_insert_eq. Qed.

Lemma lookup_element_insert_ne (els : gmap node (Element (num := num))) n n' e :
  n ≠ n' → lookup_element (<[n := e]> els) n' = lookup_element els n'.
Proof. intros. unfold lookup_element. by rewrite lookup_insert_ne. Qed.


Lemma element_alter w n f n' :
  element (alter_element n f w) n'
  = if decide (n' = n) then f (element w n) else element w n'.
Proof.
  unfold alter_element, element; simpl. case_decide as Hn.
  - subst. apply lookup_element_insert_eq.
  - by apply lookup_element_insert_ne.
Qed.

Lemma alter_alter w n f g :
  alter_element n g (alter_element n f w) = alter_element n (g ∘ f) w.
Proof.
  unfold alter_element at 1. rewrite element_alter, decide_True by done.
  destruct w; unfold alter_element, with_elements; simpl.
  by rewrite insert_insert_eq.
Qed.

Lemma reposition_present w container panel mapContainer button :
  _container (this w) = Some container →
  _panel (this w) = Some panel →
  _mapContainer (this w) = Some mapContainer →
  querySelector w container "plugin-control-toggle" = Some button →
  _updatePanelPosition w =
    Ok tt (alter_element panel
             (λ e, set_style
                  (spec_panel_style (_getControlPosition w)
                     (getBoundingClientRect w button)
                     (getBoundingClientRect w mapContainer)
                     (style_width (style e))) e)
             (with_trace (λ t, t ++ [Reposition]) w)).
Proof.
  intros Hc Hp Hm Hq.
  unfold _updatePanelPosition, bind, field, gets, log, modify. simpl.
  rewrite Hc, Hp, Hm.
  change (querySelector (with_trace (λ t, t ++ [Reposition]) w))
    with (querySelector w). rewrite Hq.
  change (_getControlPosition (with_trace (λ t, t ++ [Reposition]) w))
    with (_getControlPosition w).
  set (w1 := with_trace (λ t, t ++ [Reposition]) w).
  change (getBoundingClientRect w1) with (getBoundingClientRect w).
  unfold update_style, update_element, modify.
  destruct (_getControlPosition w); rewrite !alter_alter; f_equal;
    unfold alter_element; f_equal; f_equal;
    destruct (element w1 panel) as [? ? ? [] ?]; reflexivity.
Qed.


Lemma descendants_ext fuel (els els' : gmap node (Element (num := num))) n :
  (∀ m, childNodes (lookup_element els' m) = childNodes (lookup_element els m)) →
  descendants fuel els' n = descendants fuel els n.
Proof.
  intros Hch. revert n. induction fuel as [|fuel IH]; intros n; [done|].
  simpl. rewrite Hch. apply flat_map_ext. intros c. by rewrite IH.
Qed.

(** Changing an element of the page without touching its children, nor
    whether it has the class [c], does not change what [querySelector]
    finds for [c]. *)
Lemma querySelector_alter_class w p f n c :
  p ∈ dom (elements w) →
  (∀ e, childNodes (f e) = childNodes e) →
  (∀ e, c ∈ classList (f e) ↔ c ∈ classList e) →
  querySelector (alter_element p f w) n c = querySelector w n c.
Proof.
  intros Hp Hch Hcl. unfold querySelector.
  assert (size (elements (alter_element p f w)) = size (elements w)) as ->.
  { unfold alter_element. simpl. apply map_size_insert_Some.
    by apply elem_of_dom. }
  rewrite (descendants_ext _ (elements w)).
  2:{ intros m. change (lookup_element (elements ?w0) ?n0) with (element w0 n0).
      rewrite element_alter. case_decide; subst; [apply Hch|done]. }
  f_equal. apply list_filter_iff. intros d.
  rewrite element_alter. case_decide; subst; [apply Hcl|done].
Qed.

Lemma querySelector_alter w p f n c :
  p ∈ dom (elements w) →
  (∀ e, childNodes (f e) = childNodes e) →
  (∀ e, classList (f e) = classList e) →
  querySelector (alter_element p f w) n c = querySelector w n c.
Proof.
  intros Hp Hch Hcl. apply querySelector_alter_class; [done..|].
  intros e. by rewrite Hcl.
Qed.

(** Likewise for the corner: it depends on the parent of the container and
    on which corner classes that parent has. *)
Lemma getControlPosition_alter_class w p f :
  (∀ e, parentNode (f e) = parentNode e) →
  (∀ e corner, corner_class corner ∈ classList (f e)
               ↔ corner_class corner ∈ classList e) →
  _getControlPosition (alter_element p f w) = _getControlPosition w.
Proof.
  intros Hpa Hcl. unfold _getControlPosition, classList_contains.
  change (this (alter_element p f w)) with (this w).
  destruct (_container (this w)) as [c|]; [simpl|done].
  rewrite element_alter.
  assert (parentNode (if decide (c = p) then f (element w p) else element w c)
          = parentNode (element w c)) as ->.
  { case_decide; subst; [apply Hpa|done]. }
  destruct (parentNode (element w c)) as [q|]; [|done].
  rewrite element_alter.
  assert (∀ corner,
            bool_decide
              (corner_class corner
               ∈ classList (if decide (q = p) then f (element w p)
                            else element w q))
            = bool_decide (corner_class corner ∈ classList (element w q)))
    as Hsame.
  { intros corner. apply bool_decide_ext.
    case_decide; subst; [apply Hcl|done]. }
  pose proof (Hsame TopLeft) as H1. pose proof (Hsame TopRight) as H2.
  pose proof (Hsame BottomLeft) as H3. pose proof (Hsame BottomRight) as H4.
  unfold corner_class in H1, H2, H3, H4. by rewrite H1, H2, H3, H4.
Qed.

Lemma getControlPosition_alter w p f :
  (∀ e, parentNode (f e) = parentNode e) →
  (∀ e, classList (f e) = classList e) →
  _getControlPosition (alter_element p f w) = _getControlPosition w.
Proof.
  intros Hpa Hcl. apply getControlPosition_alter_class; [done|].
  intros e corner. by rewrite Hcl.
Qed.

Lemma elem_of_set_add_iff {A} `{EqDecision A} (a x : A) l :
  x ∈ set_add a l ↔ x = a ∨ x ∈ l.
Proof.
  unfold set_add. case_decide as Hin.
  - split; [by right|]. by intros [->|?].
  - rewrite elem_of_app, list_elem_of_singleton. tauto.
Qed.

Lemma reposition_absent w :
  _container (this w) = None ∨ _panel (this w) = None ∨
  _mapContainer (this w) = None →
  _updatePanelPosition w = Ok tt (with_trace (λ t, t ++ [Reposition]) w).
Proof.
  intros Habs.
  unfold _updatePanelPosition, bind, field, gets, log, modify. simpl.
  destruct (_container (this w)), (_panel (this w)),
    (_mapContainer (this w)); try done.
  by destruct Habs as [?|[?|?]].
Qed.

Lemma reposition_cases w :
  _updatePanelPosition w = Ok tt (with_trace (λ t, t ++ [Reposition]) w) ∨
  ∃ panel sty,
    _updatePanelPosition w =
      Ok tt (alter_element panel (λ e, set_style (sty e) e)
               (with_trace (λ t, t ++ [Reposition]) w)).
Proof.
  destruct (_container (this w)) as [c|] eqn:Hc;
    [|left; apply reposition_absent; auto].
  destruct (_panel (this w)) as [p|] eqn:Hp;
    [|left; apply reposition_absent; auto].
  destruct (_mapContainer (this w)) as [m|] eqn:Hm;
    [|left; apply reposition_absent; auto].
  destruct (querySelector w c "plugin-control-toggle") as [b|] eqn:Hq.
  - right. eexists p, _. by apply (reposition_present w c p m b).
  - left. unfold _updatePanelPosition, bind, field, gets, log, modify. simpl.
    rewrite Hc, Hp, Hm.
    change (querySelector (with_trace (λ t, t ++ [Reposition]) w))
      with (querySelector w). by rewrite Hq.
Qed.

Lemma reposition_ok w :
  _updatePanelPosition w = Ok tt (after _updatePanelPosition w).
Proof.
  unfold after, exec.
  destruct (reposition_cases w) as [-> | (p & sty & ->)]; done.
Qed.

Lemma after_reposition_this w : this (after _updatePanelPosition w) = this w.
Proof.
  unfold after, exec.
  destruct (reposition_cases w) as [-> | (p & sty & ->)]; done.
Qed.

Lemma after_reposition_objects w :
  objects (after _updatePanelPosition w) = objects w.
Proof.
  unfold after, exec.
  destruct (reposition_cases w) as [-> | (p & sty & ->)]; done.
Qed.

Lemma after_reposition_records w :
  records (after _updatePanelPosition w) = records w.
Proof.
  unfold after, exec.
  destruct (reposition_cases w) as [-> | (p & sty & ->)]; done.
Qed.

Lemma after_reposition_trace w :
  trace (after _updatePanelPosition w) = trace w ++ [Reposition].
Proof.
  unfold after, exec.
  destruct (reposition_cases w) as [-> | (p & sty & ->)]; done.
Qed.

Lemma after_reposition_classList w n :
  classList (element (after _updatePanelPosition w) n)
  = classList (element w n).
Proof.
  unfold after, exec.
  destruct (reposition_cases w) as [-> | (p & sty & ->)]; simpl; [done|].
  rewrite element_alter. by case_decide; subst.
Qed.

Lemma after_reposition_live w : live (after _updatePanelPosition w) = live w.
Proof.
  unfold live. by rewrite after_reposition_this, after_reposition_objects.
Qed.


(** ** Closed forms of [toggle] and [setState] *)

Lemma toggle_expanding w st p :
  live w = Some st → collapsed st = true → _panel (this w) = Some p →
  toggle w = Ok tt
    (after (_emit EvStatechange)
      (after (_emit EvExpand)
        (after _updatePanelPosition
          (alter_element p
             (λ e, set_classList (set_add "expanded" (classList e)) e)
             (with_objects
                (<[_state (this w) := set_collapsed false st]>) w))))).
Proof.
  intros Hl Hc Hp. unfold toggle.
  rewrite (bind_run _ _ w (_state (this w)) w) by done.
  erewrite bind_run by (by apply write_object_ok).
  cbv beta. rewrite Hc. simpl negb.
  set (w1 := with_objects _ w).
  assert (live w1 = Some (set_collapsed false st)) as Hl1
    by apply lookup_insert_eq.
  set (w2 := alter_element p _ w1).
  assert (live w2 = Some (set_collapsed false st)) as Hl2 by done.
  assert (live (after _updatePanelPosition w2)
          = Some (set_collapsed false st)) as Hl3
    by by rewrite after_reposition_live.
  rewrite (bind_run _ _ w1 (Some p) w1)
    by (unfold field, gets; by simpl; rewrite Hp).
  erewrite (bind_run _ _ w1); cycle 1.
  { erewrite bind_run by (by apply read_state_ok). simpl.
    rewrite (bind_run _ _ w1 tt w2) by done.
    rewrite (bind_run _ _ w2 tt _ (reposition_ok w2)).
    by eapply emit_ok. }
  eapply emit_ok. by erewrite after_emit_live.
Qed.

Lemma toggle_collapsing w st p :
  live w = Some st → collapsed st = false → _panel (this w) = Some p →
  toggle w = Ok tt
    (after (_emit EvStatechange)
      (after (_emit EvCollapse)
        (alter_element p
           (λ e, set_classList (set_delete "expanded" (classList e)) e)
           (with_objects
              (<[_state (this w) := set_collapsed true st]>) w)))).
Proof.
  intros Hl Hc Hp. unfold toggle.
  rewrite (bind_run _ _ w (_state (this w)) w) by done.
  erewrite bind_run by (by apply write_object_ok).
  cbv beta. rewrite Hc. simpl negb.
  set (w1 := with_objects _ w).
  assert (live w1 = Some (set_collapsed true st)) as Hl1
    by apply lookup_insert_eq.
  set (w2 := alter_element p _ w1).
  assert (live w2 = Some (set_collapsed true st)) as Hl2 by done.
  rewrite (bind_run _ _ w1 (Some p) w1)
    by (unfold field, gets; by simpl; rewrite Hp).
  erewrite (bind_run _ _ w1); cycle 1.
  { erewrite bind_run by (by apply read_state_ok). simpl.
    rewrite (bind_run _ _ w1 tt w2) by done.
    by eapply emit_ok. }
  eapply emit_ok. by erewrite after_emit_live.
Qed.

Lemma toggle_detached w st :
  live w = Some st → _panel (this w) = None →
  toggle w = Ok tt
    (after (_emit EvStatechange)
      (with_objects
         (<[_state (this w) := set_collapsed (negb (collapsed st)) st]>) w)).
Proof.
  intros Hl Hp. unfold toggle.
  rewrite (bind_run _ _ w (_state (this w)) w) by done.
  erewrite bind_run by (by apply write_object_ok).
  cbv beta.
  set (w1 := with_objects _ w).
  assert (live w1 = Some (set_collapsed (negb (collapsed st)) st)) as Hl1
    by apply lookup_insert_eq.
  rewrite (bind_run _ _ w1 None w1)
    by (unfold field, gets; by simpl; rewrite Hp).
  rewrite (bind_run _ _ w1 tt w1) by done.
  by eapply emit_ok.
Qed.

Lemma setState_run w st p :
  live w = Some st →
  setState p w = Ok tt
    (after (_emit EvStatechange)
      (with_this (set_state (fresh (dom (objects w))))
        (with_objects (<[fresh (dom (objects w)) := spread st p]>) w))).
Proof.
  intros Hl. unfold setState.
  erewrite bind_run by (by apply read_state_ok).
  rewrite (bind_run _ _ w (fresh (dom (objects w)))
             (with_objects (<[fresh (dom (objects w)) := spread st p]>) w))
    by done.
  set (w1 := with_objects _ w).
  rewrite (bind_run _ _ w1 tt (with_this (set_state (fresh (dom (objects w)))) w1))
    by done.
  eapply emit_ok. apply lookup_insert_eq.
Qed.

(** ** Reading the log *)

(** The log gained over a run that only appends. *)
Lemma emitted_app w w' t : trace w' = trace w ++ t → emitted w w' = t.
Proof. unfold emitted. intros ->. by rewrite drop_app_length. Qed.

Lemma events_app t1 t2 : events (t1 ++ t2) = events t1 ++ events t2.
Proof. unfold events. apply omap_app. Qed.

Lemma events_emission (c : Control (num := num)) ev s :
  events (emission c ev s) = [ev].
Proof.
  unfold emission, events. simpl. f_equal.
  destruct (_eventHandlers c !! ev) as [hs|]; [|done].
  by induction hs.
Qed.

Lemma calls_app h ev t1 t2 :
  calls h ev (t1 ++ t2) = calls h ev t1 + calls h ev t2.
Proof. unfold calls. by rewrite List.filter_app, length_app. Qed.

Lemma calls_invocations h ev ev' s hs :
  calls h ev (map (λ h', Invoke h' ev' s) hs)
  = if decide (ev' = ev) then length (List.filter (λ h', bool_decide (h' = h)) hs)
    else 0.
Proof.
  unfold calls. case_decide as Hev.
  - subst. induction hs as [|a hs IH]; [done|]. simpl.
    rewrite (bool_decide_true (ev = ev)) by done. rewrite andb_true_r.
    destruct (bool_decide (a = h)); simpl; by rewrite IH.
  - induction hs as [|a hs IH]; [done|]. simpl.
    rewrite (bool_decide_false (ev' = ev)) by done. by rewrite andb_false_r.
Qed.

Lemma count_NoDup (h : Handler) hs :
  NoDup hs → h ∈ hs → length (List.filter (λ h', bool_decide (h' = h)) hs) = 1.
Proof.
  induction 1 as [|a hs Hnot Hnd IH]; intros Hin.
  - by apply elem_of_nil in Hin.
  - simpl. apply elem_of_cons in Hin as [<- | Hin].
    + rewrite bool_decide_true by done. simpl. f_equal.
      clear IH Hnd. induction hs as [|b hs IH]; [done|]. simpl.
      rewrite bool_decide_false.
      * apply IH. intros ?. apply Hnot. by right.
      * intros ->. apply Hnot. by left.
    + rewrite bool_decide_false; [by apply IH|].
      intros ->. done.
Qed.

Lemma calls_emission (c : Control (num := num)) h ev ev' s :
  calls h ev (emission c ev' s)
  = match _eventHandlers c !! ev' with
    | Some hs => if decide (ev' = ev)
                 then length (List.filter (λ h', bool_decide (h' = h)) hs)
                 else 0
    | None => 0
    end.
Proof.
  unfold emission. change (Emit ev' :: ?l) with ([Emit ev'] ++ l).
  rewrite calls_app. change (calls h ev [Emit ev']) with 0. simpl.
  destruct (_eventHandlers c !! ev') as [hs|]; [|done].
  apply calls_invocations.
Qed.

(** ** The state machine *)

Lemma elem_of_set_add {A} `{EqDecision A} (a : A) l : a ∈ set_add a l.
Proof.
  unfold set_add. case_decide; [done|]. apply elem_of_app. right. by left.
Qed.

Lemma not_elem_of_set_delete {A} `{EqDecision A} (a : A) l : a ∉ set_delete a l.
Proof. unfold set_delete. intros Hin. by apply list_elem_of_filter in Hin as [? _]. Qed.

Lemma wf_intro w w' st :
  wf w → this w' = this w → live w' = Some st → wf w'.
Proof. intros [_ Hnd] Ht Hl. split; [by rewrite Hl | by rewrite Ht]. Qed.

Lemma toggle_expanding_facts w st p :
  live w = Some st → collapsed st = true → _panel (this w) = Some p →
  ∃ w1 s1 s2,
    toggle w = Ok tt w1 ∧ this w1 = this w ∧ records w1 = records w ∧
    live w1 = Some (set_collapsed false st) ∧
    panel_expanded w1 p = true ∧
    emitted w w1 = Reposition :: emission (this w) EvExpand s1
                     ++ emission (this w) EvStatechange s2.
Proof.
  intros Hl Hc Hp.
  set (st1 := set_collapsed false st).
  set (w0 := alter_element p
               (λ e, set_classList (set_add "expanded" (classList e)) e)
               (with_objects (<[_state (this w) := st1]>) w)).
  set (wU := after _updatePanelPosition w0).
  set (wE := after (_emit EvExpand) wU).
  assert (live w0 = Some st1) as Hl0 by apply lookup_insert_eq.
  assert (live wU = Some st1) as HlU by by (unfold wU; rewrite after_reposition_live).
  assert (live wE = Some st1) as HlE by by apply after_emit_live.
  assert (this wU = this w) as HtU by exact (after_reposition_this w0).
  assert (this wE = this w) as HtE
    by by (unfold wE; rewrite (after_emit_this _ _ st1)).
  exists (after (_emit EvStatechange) wE),
    (fresh (dom (objects wU))), (fresh (dom (objects wE))).
  split; [exact (toggle_expanding w st p Hl Hc Hp)|].
  split; [by rewrite (after_emit_this _ _ st1)|].
  split.
  { rewrite (after_emit_records _ _ st1) by done. unfold wE.
    rewrite (after_emit_records _ _ st1) by done.
    exact (after_reposition_records w0). }
  split; [by apply after_emit_live|].
  split.
  { unfold panel_expanded, classList_contains, element.
    rewrite (after_emit_elements _ _ st1) by done. unfold wE.
    rewrite (after_emit_elements _ _ st1) by done.
    fold (element wU p). unfold wU. rewrite after_reposition_classList.
    unfold w0. rewrite element_alter, decide_True by done. simpl.
    apply bool_decide_eq_true, elem_of_set_add. }
  apply emitted_app.
  rewrite (after_emit_trace _ _ st1) by done. unfold wE at 1.
  rewrite (after_emit_trace _ _ st1) by done. unfold wU at 1.
  rewrite after_reposition_trace. rewrite HtE, HtU.
  change (trace w0) with (trace w). by rewrite <- !app_assoc.
Qed.

Lemma toggle_collapsing_facts w st p :
  live w = Some st → collapsed st = false → _panel (this w) = Some p →
  ∃ w1 s1 s2,
    toggle w = Ok tt w1 ∧ this w1 = this w ∧ records w1 = records w ∧
    live w1 = Some (set_collapsed true st) ∧
    panel_expanded w1 p = false ∧
    emitted w w1 = emission (this w) EvCollapse s1
                     ++ emission (this w) EvStatechange s2.
Proof.
  intros Hl Hc Hp.
  set (st1 := set_collapsed true st).
  set (w0 := alter_element p
               (λ e, set_classList (set_delete "expanded" (classList e)) e)
               (with_objects (<[_state (this w) := st1]>) w)).
  set (wE := after (_emit EvCollapse) w0).
  assert (live w0 = Some st1) as Hl0 by apply lookup_insert_eq.
  assert (live wE = Some st1) as HlE by by apply after_emit_live.
  assert (this wE = this w) as HtE
    by by (unfold wE; rewrite (after_emit_this _ _ st1)).
  exists (after (_emit EvStatechange) wE),
    (fresh (dom (objects w0))), (fresh (dom (objects wE))).
  split; [exact (toggle_collapsing w st p Hl Hc Hp)|].
  split; [by rewrite (after_emit_this _ _ st1)|].
  split.
  { rewrite (after_emit_records _ _ st1) by done. unfold wE.
    by rewrite (after_emit_records _ _ st1). }
  split; [by apply after_emit_live|].
  split.
  { unfold panel_expanded, classList_contains, element.
    rewrite (after_emit_elements _ _ st1) by done. unfold wE.
    rewrite (after_emit_elements _ _ st1) by done.
    fold (element w0 p). unfold w0.
    rewrite element_alter, decide_True by done. simpl.
    apply bool_decide_eq_false, not_elem_of_set_delete. }
  apply emitted_app.
  rewrite (after_emit_trace _ _ st1) by done. unfold wE at 1.
  rewrite (after_emit_trace _ _ st1) by done. rewrite HtE.
  change (trace w0) with (trace w). change (this w0) with (this w).
  by rewrite <- !app_assoc.
Qed.

Lemma calls_emission_subscribed w h ev ev' s :
  wf w → subscribed (this w) ev h →
  calls h ev (emission (this w) ev' s) = if decide (ev' = ev) then 1 else 0.
Proof.
  intros [_ Hnd] (hs & Hhs & Hin). rewrite calls_emission.
  case_decide as Hev.
  - subst. rewrite Hhs. apply count_NoDup; [|done].
    by apply (map_Forall_lookup_1 _ _ _ _ Hnd Hhs).
  - by destruct (_eventHandlers (this w) !! ev').
Qed.

(** The world in which [expand] is emitted by an expanding [toggle()]: the
    one the positioner leaves.  With the three elements and the toggle
    button at hand, the panel has the positional properties of the detected
    corner's row by then. *)
Lemma toggle_expanding_places w st container panel mapContainer button :
  live w = Some st → collapsed st = true →
  _container (this w) = Some container →
  _panel (this w) = Some panel →
  _mapContainer (this w) = Some mapContainer →
  panel ∈ dom (elements w) →
  querySelector w container "plugin-control-toggle" = Some button →
  ∃ w0 w1,
    toggle w = Ok tt w1 ∧
    trace w0 = trace w ++ [Reposition] ∧
    style (element w0 panel)
    = spec_panel_style (_getControlPosition w)
        (getBoundingClientRect w button)
        (getBoundingClientRect w mapContainer)
        (style_width (style (element w panel))) ∧
    (_emit EvExpand ;; _emit EvStatechange) w0 = Ok tt w1 ∧
    elements w1 = elements w0.
Proof.
  intros Hl Hc Hcont Hp Hmc Hdom Hq.
  set (st1 := set_collapsed false st).
  set (wx := alter_element panel
               (λ e, set_classList (set_add "expanded" (classList e)) e)
               (with_objects (<[_state (this w) := st1]>) w)).
  set (w0 := after _updatePanelPosition wx).
  set (wE := after (_emit EvExpand) w0).
  assert (live wx = Some st1) as Hlx by apply lookup_insert_eq.
  assert (live w0 = Some st1) as Hl0
    by by (unfold w0; rewrite after_reposition_live).
  assert (live wE = Some st1) as HlE by by apply after_emit_live.
  assert (querySelector wx container "plugin-control-toggle" = Some button)
    as Hqx.
  { unfold wx. rewrite querySelector_alter_class; [exact Hq|exact Hdom|done|].
    intros e. simpl. rewrite elem_of_set_add_iff.
    split; [by intros [?|?]|by right]. }
  assert (_getControlPosition wx = _getControlPosition w) as Hpos.
  { unfold wx. rewrite getControlPosition_alter_class; [done|done|].
    intros e corner. simpl. rewrite elem_of_set_add_iff.
    split; [intros [?|?]; [by destruct corner|done]|by right]. }
  pose proof (reposition_present wx container panel mapContainer button
                Hcont Hp Hmc Hqx) as Hrun.
  exists w0, (after (_emit EvStatechange) wE).
  split; [exact (toggle_expanding w st panel Hl Hc Hp)|].
  split; [exact (after_reposition_trace wx)|].
  split.
  { unfold w0, after, exec. rewrite Hrun. simpl.
    rewrite element_alter, decide_True by done. simpl. rewrite Hpos.
    change (element (with_trace ?f ?w') panel) with (element w' panel).
    unfold wx. rewrite element_alter, decide_True by done. done. }
  split.
  { rewrite (bind_run _ _ w0 tt wE (emit_ok w0 EvExpand st1 Hl0)).
    by apply (emit_ok wE EvStatechange st1). }
  rewrite (after_emit_elements _ _ st1) by done.
  unfold wE. by rewrite (after_emit_elements _ _ st1).
Qed.

(** C3: on an attached, collapsed control [toggle()] leads to the expanded
    state.  The position is recomputed first: in the world in which
    [expand] is emitted, the panel's style already holds the two offsets of
    the detected corner's row, computed from the rectangles of the toggle
    button and of the map's container, and it is not changed afterwards.
    Then [expand] is emitted, then [statechange], each once, and every
    subscriber of either event is called exactly once.  A second
    [toggle()] leads back to the collapsed state and emits [collapse], then
    [statechange], each once, without recomputing the position. *)
Theorem toggle_expand_then_collapse w st container panel mapContainer button :
  wf w → live w = Some st → collapsed st = true →
  _container (this w) = Some container →
  _panel (this w) = Some panel →
  _mapContainer (this w) = Some mapContainer →
  panel ∈ dom (elements w) →
  querySelector w container "plugin-control-toggle" = Some button →
  ∃ w0 w1 w2 s1 s2 s3 s4,
    toggle w = Ok tt w1 ∧
    live w1 = Some (set_collapsed false st) ∧
    panel_expanded w1 panel = true ∧
    trace w0 = trace w ++ [Reposition] ∧
    style (element w0 panel)
    = spec_panel_style (_getControlPosition w)
        (getBoundingClientRect w button)
        (getBoundingClientRect w mapContainer)
        (style_width (style (element w panel))) ∧
    (_emit EvExpand ;; _emit EvStatechange) w0 = Ok tt w1 ∧
    style (element w1 panel) = style (element w0 panel) ∧
    emitted w w1 = Reposition :: emission (this w) EvExpand s1
                     ++ emission (this w) EvStatechange s2 ∧
    events (emitted w w1) = [EvExpand; EvStatechange] ∧
    (∀ h ev, subscribed (this w) ev h →
       calls h ev (emitted w w1) = if decide (ev = EvCollapse) then 0 else 1) ∧
    toggle w1 = Ok tt w2 ∧
    live w2 = Some st ∧
    panel_expanded w2 panel = false ∧
    emitted w1 w2 = emission (this w) EvCollapse s3
                      ++ emission (this w) EvStatechange s4 ∧
    events (emitted w1 w2) = [EvCollapse; EvStatechange] ∧
    (∀ h ev, subscribed (this w) ev h →
       calls h ev (emitted w1 w2) = if decide (ev = EvExpand) then 0 else 1).
Proof.
  intros Hwf Hl Hc Hcont Hp Hmc Hdom Hq.
  destruct (toggle_expanding_facts w st panel Hl Hc Hp)
    as (w1 & s1 & s2 & Hrun1 & Ht1 & _ & Hl1 & Hshown & Hlog1).
  destruct (toggle_expanding_places w st container panel mapContainer button
              Hl Hc Hcont Hp Hmc Hdom Hq)
    as (w0 & w1' & Hrun1' & Htr0 & Hsty0 & Hemit & Hels).
  rewrite Hrun1 in Hrun1'. injection Hrun1' as <-.
  destruct (toggle_collapsing_facts w1 (set_collapsed false st) panel Hl1)
    as (w2 & s3 & s4 & Hrun2 & Ht2 & _ & Hl2 & Hhidden & Hlog2);
    [done | by rewrite Ht1 |].
  rewrite Ht1 in Hlog2.
  exists w0, w1, w2, s1, s2, s3, s4.
  split; [done|]. split; [done|]. split; [done|]. split; [done|].
  split; [done|]. split; [done|].
  split; [unfold element; by rewrite Hels|].
  repeat split; try done.
  - rewrite Hlog1. change (Reposition :: ?l) with ([Reposition] ++ l).
    by rewrite !events_app, !events_emission.
  - intros h ev Hsub. rewrite Hlog1.
    change (Reposition :: ?l) with ([Reposition] ++ l).
    rewrite !calls_app, !calls_emission_subscribed by done.
    by destruct ev.
  - rewrite Hl2. f_equal. destruct st; simpl in *. by subst.
  - rewrite Hlog2. by rewrite !events_app, !events_emission.
  - intros h ev Hsub. rewrite Hlog2.
    rewrite !calls_app, !calls_emission_subscribed by done.
    by destruct ev.
Qed.

Lemma emission_no_reposition (c : Control (num := num)) ev s :
  Reposition ∉ emission c ev s.
Proof.
  unfold emission. intros Hin. apply elem_of_cons in Hin as [? | Hin]; [done|].
  destruct (_eventHandlers c !! ev) as [hs|]; [|by apply elem_of_nil in Hin].
  apply list_elem_of_fmap in Hin as (? & ? & _). done.
Qed.

Lemma toggle_detached_facts w st :
  live w = Some st → _panel (this w) = None →
  ∃ w' s,
    toggle w = Ok tt w' ∧ this w' = this w ∧ elements w' = elements w ∧
    records w' = records w ∧
    live w' = Some (set_collapsed (negb (collapsed st)) st) ∧
    emitted w w' = emission (this w) EvStatechange s.
Proof.
  intros Hl Hp.
  set (st1 := set_collapsed (negb (collapsed st)) st).
  set (w0 := with_objects (<[_state (this w) := st1]>) w).
  assert (live w0 = Some st1) as Hl0 by apply lookup_insert_eq.
  exists (after (_emit EvStatechange) w0), (fresh (dom (objects w0))).
  split; [exact (toggle_detached w st Hl Hp)|].
  split; [by rewrite (after_emit_this _ _ st1)|].
  split; [by rewrite (after_emit_elements _ _ st1)|].
  split; [by rewrite (after_emit_records _ _ st1)|].
  split; [by apply after_emit_live|].
  apply emitted_app. by rewrite (after_emit_trace _ _ st1).
Qed.

Lemma setState_facts w st p :
  live w = Some st →
  ∃ w' s,
    setState p w = Ok tt w' ∧
    this w' = set_state (_state (this w')) (this w) ∧
    objects w !! _state (this w') = None ∧
    elements w' = elements w ∧ records w' = records w ∧
    live w' = Some (spread st p) ∧
    (∀ l, is_Some (objects w !! l) → objects w' !! l = objects w !! l) ∧
    emitted w w' = emission (this w) EvStatechange s.
Proof.
  intros Hl.
  set (l := fresh (dom (objects w))).
  set (w0 := with_this (set_state l)
               (with_objects (<[l := spread st p]>) w)).
  assert (live w0 = Some (spread st p)) as Hl0 by apply lookup_insert_eq.
  exists (after (_emit EvStatechange) w0), (fresh (dom (objects w0))).
  split; [exact (setState_run w st p Hl)|].
  rewrite (after_emit_this _ _ (spread st p)) by done.
  split; [done|].
  split; [apply fresh_object|].
  split; [by rewrite (after_emit_elements _ _ (spread st p))|].
  split; [by rewrite (after_emit_records _ _ (spread st p))|].
  split; [by apply after_emit_live|].
  split.
  { intros l' [x Hx]. rewrite (after_emit_objects _ _ (spread st p)); [|done|].
    - simpl. apply lookup_insert_ne. intros <-.
      unfold l in Hx. by rewrite fresh_object in Hx.
    - simpl. destruct (decide (l = l')) as [<-|].
      + rewrite lookup_insert_eq. by eexists.
      + rewrite lookup_insert_ne by done. by eexists. }
  apply emitted_app. by rewrite (after_emit_trace _ _ (spread st p)).
Qed.

(** C10: on a control without a panel element, [toggle()] flips the
    [collapsed] flag and emits [statechange] and nothing else: neither
    [expand] nor [collapse] is emitted, the position is not recomputed and
    no element changes. *)
Theorem toggle_without_panel w st :
  live w = Some st → _panel (this w) = None →
  ∃ w' s,
    toggle w = Ok tt w' ∧
    live w' = Some (set_collapsed (negb (collapsed st)) st) ∧
    emitted w w' = emission (this w) EvStatechange s ∧
    events (emitted w w') = [EvStatechange] ∧
    (Reposition ∉ emitted w w') ∧
    elements w' = elements w.
Proof.
  intros Hl Hp.
  destruct (toggle_detached_facts w st Hl Hp)
    as (w' & s & Hrun & _ & Hels & _ & Hl' & Hlog).
  exists w', s. repeat split; try done.
  - rewrite Hlog. apply events_emission.
  - rewrite Hlog. apply emission_no_reposition.
Qed.

(** C9: [expand()] on an expanded control and [collapse()] on a collapsed
    control return with the world unchanged, so no event is emitted; in the
    other state each is [toggle()]. *)
Theorem expand_collapse_guarded w st :
  live w = Some st →
  (collapsed st = false → expand w = Ok tt w) ∧
  (collapsed st = true → collapse w = Ok tt w) ∧
  (collapsed st = true → expand w = toggle w) ∧
  (collapsed st = false → collapse w = toggle w).
Proof.
  intros Hl. unfold expand, collapse.
  rewrite !(bind_run _ _ w st w (read_state_ok w st Hl)).
  destruct (collapsed st); by repeat split.
Qed.

(** C5: [setState({ panelWidth: 400 })] emits [statechange] and no other
    event; afterwards [getState()] returns an object whose [panelWidth] is
    400 and whose [collapsed] (and [data]) are those from before the call.
    No element changes. *)
Theorem setState_panelWidth w st :
  live w = Some st →
  ∃ w' s,
    setState {| p_collapsed := None; p_panelWidth := Some (num_lit 400);
                p_data := None |} w = Ok tt w' ∧
    emitted w w' = emission (this w) EvStatechange s ∧
    events (emitted w w') = [EvStatechange] ∧
    elements w' = elements w ∧
    ∃ snapshot w'',
      getState w' = Ok snapshot w'' ∧
      objects w'' !! snapshot
      = Some {| collapsed := collapsed st; panelWidth := num_lit 400;
                data := data st |}.
Proof.
  intros Hl.
  destruct (setState_facts w st
              {| p_collapsed := None; p_panelWidth := Some (num_lit 400);
                 p_data := None |} Hl)
    as (w' & s & Hrun & _ & _ & Hels & _ & Hl' & _ & Hlog).
  exists w', s. repeat split; try done.
  - rewrite Hlog. apply events_emission.
  - eexists _, _. split; [by apply getState_ok|]. simpl.
    apply lookup_insert_eq.
Qed.

(** C1, as the code has it: [setState(p)] replaces the state by the shallow
    merge [{ ...state, ...p }] and emits [statechange].  Every key present
    in [p] overrides, [data] included: when [p] holds a data mapping, the
    resulting [data] is that very mapping, and the old mapping is not
    consulted; when [p] has no [data] key, [data] is kept.  No mapping on the
    heap is changed. *)
Theorem setState_shallow_merge w st p :
  live w = Some st →
  ∃ w' s,
    setState p w = Ok tt w' ∧
    live w' = Some (spread st p) ∧
    (∀ l, p_data p = Some (Some l) →
       data (spread st p) = Some l ∧ live_data w' = records w !! l) ∧
    (p_data p = None → live_data w' = live_data w) ∧
    records w' = records w ∧
    emitted w w' = emission (this w) EvStatechange s ∧
    events (emitted w w') = [EvStatechange].
Proof.
  intros Hl.
  destruct (setState_facts w st p Hl)
    as (w' & s & Hrun & _ & _ & _ & Hrec & Hl' & _ & Hlog).
  exists w', s.
  split; [done|]. split; [done|]. split.
  { intros l Hd. split; [unfold spread; by rewrite Hd|].
    unfold live_data, data_of. fold (live w'). rewrite Hl', Hrec. simpl.
    by rewrite Hd. }
  split.
  { intros Hd. unfold live_data, data_of. fold (live w') (live w).
    rewrite Hl', Hl, Hrec. simpl. by rewrite Hd. }
  split; [done|]. split; [done|].
  rewrite Hlog. apply events_emission.
Qed.

(** Every corner is detected from the class of the element the container
    was put in; without such an element the corner is top-right. *)
Lemma getControlPosition_detects w container parent corner :
  _container (this w) = Some container →
  parentNode (element w container) = Some parent →
  classList (element w parent) = [corner_class corner] →
  _getControlPosition w = corner.
Proof.
  intros Hc Hp Hcl. unfold _getControlPosition, classList_contains.
  rewrite Hc. simpl. rewrite Hp, Hcl. by destruct corner.
Qed.

Lemma getControlPosition_default w :
  _container (this w) = None → _getControlPosition w = TopRight.
Proof. intros Hc. unfold _getControlPosition. by rewrite Hc. Qed.

(** C4: with the toggle button and the three elements present, the
    positioner computes the four offsets of the toggle's rectangle relative
    to the container's and leaves the panel with exactly the two positional
    properties of the detected corner's row of the table (gap 5), the other
    two unset, whatever they were before.  Nothing but the panel's style
    changes. *)
Theorem updatePanelPosition_table w container panel mapContainer button corner :
  _container (this w) = Some container →
  _panel (this w) = Some panel →
  _mapContainer (this w) = Some mapContainer →
  querySelector w container "plugin-control-toggle" = Some button →
  _getControlPosition w = corner →
  ∃ w',
    _updatePanelPosition w = Ok tt w' ∧
    style (element w' panel)
    = spec_panel_style corner (getBoundingClientRect w button)
        (getBoundingClientRect w mapContainer)
        (style_width (style (element w panel))) ∧
    spec_gap = num_lit 5 ∧
    element w' panel = set_style (style (element w' panel)) (element w panel) ∧
    (∀ n, n ≠ panel → element w' n = element w n) ∧
    this w' = this w ∧ objects w' = objects w.
Proof.
  intros Hc Hp Hm Hq <-.
  eexists. split; [by apply (reposition_present w container panel mapContainer button)|].
  rewrite !element_alter, decide_True by done.
  split; [done|]. split; [done|]. split; [done|]. split; [|done].
  intros n Hn. by rewrite element_alter, decide_False.
Qed.

(** ** The handler registry *)

Lemma NoDup_set_add (h : Handler) hs : NoDup hs → NoDup (set_add h hs).
Proof.
  intros Hnd. unfold set_add. case_decide as Hin; [done|].
  apply NoDup_app. split; [done|]. split; [|apply NoDup_singleton].
  intros x Hx Hx'. apply list_elem_of_singleton in Hx'. by subst.
Qed.

Lemma set_add_elem (h : Handler) hs : h ∈ hs → set_add h hs = hs.
Proof. intros Hin. unfold set_add. by rewrite decide_True. Qed.

Lemma on_run w e h :
  on e h w = Ok tt
    (with_this (set_eventHandlers
       (<[e := set_add h (default [] (_eventHandlers (this w) !! e))]>
          (_eventHandlers (this w)))) w).
Proof.
  unfold on, bind, field, gets, when, assign, modify, deref, ret.
  destruct (_eventHandlers (this w) !! e) as [hs|] eqn:Hhs; simpl.
  - by rewrite Hhs.
  - rewrite lookup_insert_eq. simpl.
    unfold with_this, set_eventHandlers; simpl. by rewrite insert_insert_eq.
Qed.

(** C6: registering the same handler twice is registering it once: the
    second [on(event, handler)] leaves the world as the first one made it,
    and an emission of the event then calls the handler exactly once. *)
Theorem on_twice_fires_once w e h :
  wf w →
  ∃ w1 w2,
    on e h w = Ok tt w1 ∧
    on e h w1 = Ok tt w1 ∧
    subscribed (this w1) e h ∧
    _emit e w1 = Ok tt w2 ∧
    calls h e (emitted w1 w2) = 1.
Proof.
  intros [[st Hl] Hnd].
  set (hs := set_add h (default [] (_eventHandlers (this w) !! e))).
  set (w1 := with_this (set_eventHandlers
                (<[e := hs]> (_eventHandlers (this w)))) w).
  assert (_eventHandlers (this w1) !! e = Some hs) as Hhs
    by apply lookup_insert_eq.
  assert (h ∈ hs) as Hin by apply elem_of_set_add.
  assert (live w1 = Some st) as Hl1 by done.
  assert (wf w1) as Hwf1.
  { split; [by eexists|]. simpl. apply map_Forall_insert_2; [|done].
    apply NoDup_set_add.
    destruct (_eventHandlers (this w) !! e) as [hs0|] eqn:Hhs0; simpl.
    - by apply (map_Forall_lookup_1 _ _ _ _ Hnd Hhs0).
    - apply NoDup_nil_2. }
  assert (subscribed (this w1) e h) as Hsub by by exists hs.
  exists w1, (after (_emit e) w1).
  split; [apply on_run|].
  split.
  { rewrite on_run, Hhs. simpl. rewrite set_add_elem by done.
    unfold w1, with_this, set_eventHandlers; simpl.
    by rewrite insert_insert_eq. }
  split; [done|].
  split; [by eapply emit_ok|].
  erewrite emitted_app by by apply (after_emit_trace _ _ st).
  rewrite calls_emission_subscribed by done. by rewrite decide_True.
Qed.

(** ** Defensive paths *)

Lemma set_delete_not_elem {A} `{EqDecision A} (a : A) l :
  a ∉ l → set_delete a l = l.
Proof.
  intros Hnot. unfold set_delete. induction l as [|x l IH]; [done|].
  rewrite filter_cons. rewrite decide_True.
  - f_equal. apply IH. intros ?. apply Hnot. by right.
  - intros ->. apply Hnot. by left.
Qed.

Lemma with_this_same w :
  with_this (set_eventHandlers (_eventHandlers (this w))) w = w.
Proof. by destruct w as [[] ? ? ? ? ? ? ? ? ? ?]. Qed.

Lemma off_unregistered w e h :
  ¬ subscribed (this w) e h → off e h w = Ok tt w.
Proof.
  intros Hnot. unfold off, bind, field, gets, assign, modify, ret.
  destruct (_eventHandlers (this w) !! e) as [hs|] eqn:Hhs; [|done].
  unfold with_this. rewrite set_delete_not_elem.
  - rewrite insert_id by done. by destruct w as [[] ? ? ? ? ? ? ? ? ? ?].
  - intros Hin. apply Hnot. by exists hs.
Qed.

Lemma emission_no_subscribers (c : Control (num := num)) e s :
  (∀ h, ¬ subscribed c e h) → emission c e s = [Emit e].
Proof.
  intros Hnone. unfold emission.
  destruct (_eventHandlers c !! e) as [[|h hs]|] eqn:Hhs; [done| |done].
  destruct (Hnone h). exists (h :: hs). split; [done|]. by left.
Qed.

Lemma detach_run (el : option node) w :
  ∃ w', detach el w = Ok tt w' ∧
        w' = with_elements (λ _, elements w') w.
Proof.
  assert (∀ w : World (num := num) (unknown := unknown),
            w = with_elements (λ _, elements w) w) as Hsame
    by by intros [].
  unfold detach. destruct el as [el|]; [|by exists w].
  unfold bind, gets.
  destruct (parentNode (element w el)) as [parent|] eqn:Hpar; [|by exists w].
  unfold removeChild, bind, gets. rewrite Hpar, decide_True by done.
  eexists. split; [done|]. by destruct w.
Qed.

Lemma onRemove_run w :
  ∃ w1, onRemove w = Ok tt w1 ∧
        unattached (this w1) ∧ _eventHandlers (this w1) = ∅ ∧
        _options (this w1) = _options (this w) ∧
        _state (this w1) = _state (this w) ∧
        objects w1 = objects w ∧ records w1 = records w ∧
        trace w1 = trace w.
Proof.
  unfold onRemove, bind, field, gets.
  destruct w as [[m mc c p o s eh rh mrh coh] objs recs els lay wr dc mr fr nf tr].
  simpl.
  destruct rh as [rh|], mrh as [mrh|], m as [m|], coh as [coh|]; simpl;
    match goal with
    | |- context [detach p ?w] =>
        destruct (detach_run p w) as (wp & -> & ->)
    end; simpl;
    match goal with
    | |- context [detach c ?w] =>
        destruct (detach_run c w) as (wc & -> & ->)
    end; simpl;
    (eexists; split; [done|]; by repeat split).
Qed.

Lemma onRemove_unattached w :
  unattached (this w) →
  onRemove w = Ok tt (with_this (set_eventHandlers ∅) w).
Proof.
  intros (Hm & Hmc & Hc & Hp & Hrh & Hcoh).
  destruct w as [[m mc c p o s eh rh mrh coh] objs recs els lay wr dc mr fr nf tr].
  simpl in *. subst. by destruct mrh.
Qed.

Lemma onRemove_again w :
  unattached (this w) → _eventHandlers (this w) = ∅ →
  onRemove w = Ok tt w.
Proof.
  intros Hun Heh. rewrite onRemove_unattached by done.
  by rewrite <- Heh, with_this_same.
Qed.

(** C7: none of these throws.  [off], the positioner and [onRemove] return
    from every world, and so does [_emit] wherever [this._state] is an
    object.  [off] of a handler that is not registered leaves the world as it
    is.  An emission without subscribers calls nobody and changes neither
    the control, nor its state, nor any element.  The positioner returns
    without touching anything when an element reference is absent.  A second
    [onRemove] leaves the world as the first one made it, and on a control
    that was never attached [onRemove] changes nothing but the handler
    registry, which it empties. *)
Theorem defensive_no_ops w e h :
  (throws (off e h w) = false ∧
   throws (_updatePanelPosition w) = false ∧
   throws (onRemove w) = false ∧
   (is_Some (live w) → throws (_emit e w) = false)) ∧
  (¬ subscribed (this w) e h → off e h w = Ok tt w) ∧
  (is_Some (live w) → (∀ h', ¬ subscribed (this w) e h') →
     ∃ w', _emit e w = Ok tt w' ∧ emitted w w' = [Emit e] ∧
           this w' = this w ∧ live w' = live w ∧
           elements w' = elements w ∧ records w' = records w) ∧
  (_container (this w) = None ∨ _panel (this w) = None ∨
   _mapContainer (this w) = None →
     _updatePanelPosition w = Ok tt (with_trace (λ t, t ++ [Reposition]) w)) ∧
  (∃ w1, onRemove w = Ok tt w1 ∧ onRemove w1 = Ok tt w1) ∧
  (unattached (this w) →
     onRemove w = Ok tt (with_this (set_eventHandlers ∅) w)).
Proof.
  destruct (onRemove_run w) as (w1 & Hrun & Hun & Heh & _).
  split.
  { split.
    { unfold off, bind, field, gets.
      by destruct (_eventHandlers (this w) !! e). }
    split; [by rewrite reposition_ok|].
    split; [by rewrite Hrun|].
    intros [st Hl]. by rewrite (emit_ok w e st Hl). }
  split; [apply off_unregistered|].
  split.
  { intros [st Hl] Hnone. exists (after (_emit e) w).
    split; [by eapply emit_ok|].
    split.
    { erewrite emitted_app by by apply (after_emit_trace _ _ st).
      by apply emission_no_subscribers. }
    split; [by apply (after_emit_this _ _ st)|].
    split; [by rewrite Hl; apply after_emit_live|].
    split; [by apply (after_emit_elements _ _ st)|].
    by apply (after_emit_records _ _ st). }
  split; [apply reposition_absent|].
  split; [|apply onRemove_unattached].
  exists w1. split; [done|]. by apply onRemove_again.
Qed.

(** ** Snapshots *)

Lemma after_emit_keeps w e st l x :
  live w = Some st → objects w !! l = Some x →
  objects (after (_emit e) w) !! l = Some x.
Proof.
  intros Hl Hx. rewrite (after_emit_objects _ _ st); [done..|by eexists].
Qed.

Lemma toggle_keeps_objects w st l x :
  live w = Some st → l ≠ _state (this w) → objects w !! l = Some x →
  ∃ w', toggle w = Ok tt w' ∧ objects w' !! l = Some x.
Proof.
  intros Hl Hne Hx.
  assert (∀ st1, objects (with_objects (<[_state (this w) := st1]>) w) !! l
                 = Some x) as H0
    by by (intros; simpl; rewrite lookup_insert_ne).
  assert (∀ st1, live (with_objects (<[_state (this w) := st1]>) w)
                 = Some st1) as Hl0
    by (intros; apply lookup_insert_eq).
  destruct (_panel (this w)) as [p|] eqn:Hp.
  - destruct (collapsed st) eqn:Hc.
    + eexists. split; [by apply toggle_expanding|].
      apply (after_emit_keeps _ _ (set_collapsed false st)).
      { apply after_emit_live. rewrite after_reposition_live. apply Hl0. }
      apply (after_emit_keeps _ _ (set_collapsed false st)).
      { rewrite after_reposition_live. apply Hl0. }
      rewrite after_reposition_objects. apply H0.
    + eexists. split; [by apply toggle_collapsing|].
      apply (after_emit_keeps _ _ (set_collapsed true st)).
      { apply after_emit_live. apply Hl0. }
      apply (after_emit_keeps _ _ (set_collapsed true st)); [apply Hl0|].
      apply H0.
  - eexists. split; [by apply toggle_detached|].
    apply (after_emit_keeps _ _ (set_collapsed (negb (collapsed st)) st));
      [apply Hl0 | apply H0].
Qed.

Lemma assign_fields_run w o st b n d :
  objects w !! o = Some st → o ≠ _state (this w) →
  ∃ w',
    (assign_collapsed o b ;; assign_panelWidth o n ;; assign_data o d) w
    = Ok tt w' ∧
    objects w' !! o
    = Some {| collapsed := b; panelWidth := n; data := d |} ∧
    live w' = live w ∧ records w' = records w ∧ this w' = this w.
Proof.
  intros Ho Hne. unfold assign_collapsed, assign_panelWidth, assign_data.
  erewrite bind_run by (by apply write_object_ok).
  erewrite bind_run by (apply write_object_ok, lookup_insert_eq).
  eexists. split; [apply write_object_ok, lookup_insert_eq|].
  simpl. split; [apply lookup_insert_eq|]. split; [|done].
  unfold live. simpl. by rewrite !lookup_insert_ne.
Qed.

Lemma assign_data_key_run w o st r m k v :
  objects w !! o = Some st → data st = Some r → records w !! r = Some m →
  assign_data_key o k v w
  = Ok tt (with_records (<[r := <[k := v]> m]>) w).
Proof.
  intros Ho Hd Hr. unfold assign_data_key, read_object.
  unfold bind, gets, deref, ret, modify. by rewrite Ho, Hd, Hr.
Qed.

Lemma live_data_with_records w f st :
  live w = Some st →
  live_data (with_records f w) = (r ← data st; f (records w) !! r).
Proof.
  intros Hl. unfold live_data, data_of.
  change (objects (with_records f w) !! _state (this (with_records f w)))
    with (live w).
  by rewrite Hl.
Qed.

(** C8, as the code has it: [getState()] returns a new object that holds a
    copy of the top-level fields of the live state.  Assignments to the
    fields of the copy never reach the live state, and [toggle()] and
    [setState()] never reach the copy.  The [data] field is copied as a
    reference: the copy and the live state share one data mapping, and a
    write into it through the copy is seen by the live state.  An emission
    hands every subscriber the event's name and one such copy. *)
Theorem getState_shallow_copy w st :
  live w = Some st →
  ∃ snapshot w1,
    getState w = Ok snapshot w1 ∧
    objects w !! snapshot = None ∧ snapshot ≠ _state (this w1) ∧
    objects w1 !! snapshot = Some st ∧ live w1 = Some st ∧
    data_of w1 snapshot = live_data w1 ∧
    (∀ b n d, ∃ w2,
       (assign_collapsed snapshot b ;; assign_panelWidth snapshot n ;;
        assign_data snapshot d) w1 = Ok tt w2 ∧
       objects w2 !! snapshot
       = Some {| collapsed := b; panelWidth := n; data := d |} ∧
       live w2 = Some st ∧ live_data w2 = live_data w) ∧
    (∃ w2, toggle w1 = Ok tt w2 ∧ objects w2 !! snapshot = Some st) ∧
    (∀ p, ∃ w2, setState p w1 = Ok tt w2 ∧
                objects w2 !! snapshot = Some st) ∧
    (∀ r m k v, data st = Some r → records w !! r = Some m →
       ∃ w2, assign_data_key snapshot k v w1 = Ok tt w2 ∧
             live w2 = Some st ∧
             live_data w2 = Some (<[k := v]> m)) ∧
    (∀ e hs, _eventHandlers (this w) !! e = Some hs →
       ∃ s w', _emit e w = Ok tt w' ∧
               emitted w w' = Emit e :: map (λ h, Invoke h e s) hs ∧
               objects w !! s = None ∧ s ≠ _state (this w') ∧
               objects w' !! s = Some st ∧ live w' = Some st).
Proof.
  intros Hl.
  set (s := fresh (dom (objects w))).
  set (w1 := with_objects (<[s := st]>) w).
  assert (s ≠ _state (this w)) as Hne by by apply (fresh_not_state w st).
  assert (objects w1 !! s = Some st) as Hs by apply lookup_insert_eq.
  assert (live w1 = Some st) as Hl1.
  { unfold live. simpl. by rewrite lookup_insert_ne. }
  exists s, w1.
  split; [by apply getState_ok|].
  split; [apply fresh_object|].
  split; [done|]. split; [done|]. split; [done|].
  split.
  { unfold live_data, data_of. fold (live w1). by rewrite Hs, Hl1. }
  split.
  { intros b n d.
    destruct (assign_fields_run w1 s st b n d Hs Hne)
      as (w2 & Hrun & Ho & Hl2 & Hrec & Hth).
    exists w2. split; [done|]. split; [done|]. split; [by rewrite Hl2|].
    unfold live_data, data_of. fold (live w2) (live w).
    by rewrite Hl2, Hl1, Hl, Hrec. }
  split.
  { destruct (toggle_keeps_objects w1 st s st Hl1 Hne Hs) as (w2 & Hrun & Ho).
    by exists w2. }
  split.
  { intros p.
    destruct (setState_facts w1 st p Hl1)
      as (w2 & ? & Hrun & _ & _ & _ & _ & _ & Ho & _).
    exists w2. split; [done|]. rewrite Ho; [done|by eexists]. }
  split.
  { intros r m k v Hd Hr. eexists.
    split; [by apply (assign_data_key_run w1 s st r m)|].
    split; [done|].
    rewrite (live_data_with_records _ _ st) by done.
    rewrite Hd. simpl. apply lookup_insert_eq. }
  intros e hs Hhs. exists s, (after (_emit e) w).
  split; [by eapply emit_ok|].
  split.
  { erewrite emitted_app by by apply (after_emit_trace _ _ st).
    unfold emission. by rewrite Hhs. }
  split; [apply fresh_object|].
  split; [by rewrite (after_emit_this _ _ st)|].
  split; [by apply (after_emit_snapshot _ _ _ hs)|].
  by apply after_emit_live.
Qed.

(** ** Attaching: [onAdd] and the element classes *)

Lemma dom_step_refl w : dom_step w w.
Proof. by repeat split. Qed.

Lemma dom_step_trans w1 w2 w3 :
  dom_step w1 w2 → dom_step w2 w3 → dom_step w1 w3.
Proof.
  intros (Ht & Ho & Hr & Htr & Hd & Hc) (Ht' & Ho' & Hr' & Htr' & Hd' & Hc').
  split; [congruence|]. split; [congruence|]. split; [congruence|].
  split; [congruence|]. split; [set_solver|].
  intros n Hn. rewrite Hc' by set_solver. by apply Hc.
Qed.

Lemma dom_alter w n f :
  dom (elements (alter_element n f w)) = {[n]} ∪ dom (elements w).
Proof. unfold alter_element. simpl. apply dom_insert_L. Qed.

Lemma step_alter_keep w0 w n f :
  (∀ e, classList (f e) = classList e) →
  dom_step w0 w → dom_step w0 (alter_element n f w).
Proof.
  intros Hf Hs. apply (dom_step_trans _ w); [done|].
  repeat split; try done.
  - rewrite dom_alter. set_solver.
  - intros p _. rewrite element_alter. case_decide; subst; [apply Hf|done].
Qed.

Lemma step_alter_fresh w0 w n f :
  n ∉ dom (elements w0) →
  dom_step w0 w → dom_step w0 (alter_element n f w).
Proof.
  intros Hn (Ht & Ho & Hr & Htr & Hd & Hc).
  repeat split; try done.
  - rewrite dom_alter. set_solver.
  - intros p Hp. rewrite element_alter, decide_False; [by apply Hc|].
    by intros ->.
Qed.

Lemma step_create w0 w :
  dom_step w0 w →
  (fresh (dom (elements w)) ∉ dom (elements w0)) ∧
  dom_step w0 (with_elements (<[fresh (dom (elements w)) := blank_element]>) w).
Proof.
  intros (Ht & Ho & Hr & Htr & Hd & Hc).
  assert (fresh (dom (elements w)) ∉ dom (elements w0)) as Hfresh.
  { intros Hin. apply (is_fresh (dom (elements w))). set_solver. }
  split; [done|]. repeat split; try done.
  - simpl. rewrite dom_insert_L. set_solver.
  - intros p Hp. unfold element. simpl.
    rewrite lookup_element_insert_ne; [by apply Hc|]. by intros <-.
Qed.

Lemma step_appendChild w0 w a b :
  dom_step w0 w →
  ∃ w', appendChild a b w = Ok tt w' ∧ dom_step w0 w'.
Proof.
  intros Hs. unfold appendChild, bind, gets, update_element, modify, ret.
  destruct (parentNode (element w b)) as [q|].
  - eexists. split; [done|]. by repeat apply step_alter_keep.
  - eexists. split; [done|]. by repeat apply step_alter_keep.
Qed.

Lemma step_closure w0 w :
  dom_step w0 w → dom_step w0 (with_nextFn S w).
Proof. intros Hs. by apply (dom_step_trans _ w). Qed.

(** Induction on markup, with the content of an element at hand. *)
Lemma Markup_ind (P : Markup → Prop) :
  P MText →
  (∀ class content, Forall P content → P (MElement class content)) →
  ∀ m, P m.
Proof.
  intros HT HE. fix IH 1. intros [|class content]; [exact HT|].
  apply HE. induction content as [|m content IHc]; [constructor|].
  constructor; [apply IH | exact IHc].
Qed.

Lemma parse_into_MElement parent class content w :
  parse_into parent (MElement class content) w
  = (let* e := createElement in
     update_element e (set_className class) ;;
     appendChild parent e ;;
     forEach content (parse_into e)) w.
Proof.
  simpl. unfold bind. destruct (createElement w) as [e w1|]; [|done].
  destruct (update_element e (set_className class) w1) as [[] w2|]; [|done].
  destruct (appendChild parent e w2) as [[] w3|]; [|done].
  revert w3. induction content as [|m content IH]; intros w3; [done|].
  simpl. unfold bind. destruct (parse_into e m w3) as [[] w4|]; [|done].
  apply IH.
Qed.

Lemma forEach_step {A} (f : A → M (World (num := num) (unknown := unknown)) unit)
    (l : list A) w0 :
  Forall (λ a, ∀ w, dom_step w0 w →
                 ∃ w', f a w = Ok tt w' ∧ dom_step w0 w') l →
  ∀ w, dom_step w0 w → ∃ w', forEach l f w = Ok tt w' ∧ dom_step w0 w'.
Proof.
  induction 1 as [|a l Ha _ IH]; intros w Hs; [by exists w|].
  destruct (Ha w Hs) as (w1 & Hrun & Hs1). simpl.
  rewrite (bind_run _ _ w tt w1 Hrun). by apply IH.
Qed.

Lemma parse_into_step m :
  ∀ w0 w parent, dom_step w0 w →
    ∃ w', parse_into parent m w = Ok tt w' ∧ dom_step w0 w'.
Proof.
  induction m as [|class content IH] using Markup_ind; intros w0 w parent Hs.
  - destruct (step_create _ w Hs) as [_ Hs1].
    simpl. unfold createTextNode, createElement, bind at 1.
    by apply step_appendChild.
  - destruct (step_create _ w Hs) as [Hnew Hs1].
    apply (step_alter_fresh _ _ (fresh (dom (elements w)))
             (set_className class) Hnew) in Hs1.
    destruct (step_appendChild _ _ parent (fresh (dom (elements w))) Hs1)
      as (w2 & Hrun & Hs2).
    rewrite parse_into_MElement.
    unfold createElement, update_element, modify, bind at 1 2 3.
    rewrite Hrun.
    apply forEach_step; [|done].
    eapply Forall_impl; [exact IH|]. intros m Hm w3 Hs3. by apply Hm.
Qed.

Lemma removeChildren_step w0 w n :
  dom_step w0 w → ∃ w', removeChildren n w = Ok tt w' ∧ dom_step w0 w'.
Proof.
  intros Hs. unfold removeChildren, gets, bind at 1.
  destruct (forEach_step (λ c, update_element c (set_parentNode None))
              (childNodes (element w n)) w0) with (w := w)
    as (w1 & Hrun & Hs1); [|done|].
  { apply Forall_forall. intros c _ w1 Hs1. eexists. split; [done|].
    by apply step_alter_keep. }
  rewrite (bind_run _ _ w tt w1 Hrun).
  eexists. split; [done|]. by apply step_alter_keep.
Qed.

Lemma set_innerHTML_step w0 w n markup :
  dom_step w0 w → ∃ w', set_innerHTML n markup w = Ok tt w' ∧ dom_step w0 w'.
Proof.
  intros Hs. unfold set_innerHTML.
  destruct (removeChildren_step w0 w n Hs) as (w1 & Hrun & Hs1).
  rewrite (bind_run _ _ w tt w1 Hrun).
  apply forEach_step; [|done].
  apply Forall_forall. intros m _ w2 Hs2. by apply parse_into_step.
Qed.

Lemma set_textContent_step w0 w n text :
  dom_step w0 w → ∃ w', set_textContent n text w = Ok tt w' ∧ dom_step w0 w'.
Proof.
  intros Hs. unfold set_textContent.
  destruct (removeChildren_step w0 w n Hs) as (w1 & Hrun & Hs1).
  rewrite (bind_run _ _ w tt w1 Hrun).
  case_decide; [by exists w1|].
  by apply (parse_into_step MText).
Qed.

Lemma bind_exists {A B} (m : M _ A) (f : A → M _ B) w a w1
    (Q : B → World (num := num) (unknown := unknown) → Prop) :
  m w = Ok a w1 →
  (∃ b w', f a w1 = Ok b w' ∧ Q b w') →
  ∃ b w', (let* x := m in f x) w = Ok b w' ∧ Q b w'.
Proof. intros Hm. by rewrite (bind_run _ _ _ _ _ Hm). Qed.

Ltac run := eapply bind_exists; [reflexivity|]; cbv beta.

(* One step of a run whose current world is only known through
   [Hs : dom_step w0 w]. *)
Ltac step_keep Hs :=
  run;
  lazymatch goal with
  | |- ∃ b w', _ (alter_element ?n ?f ?w) = _ ∧ _ =>
      apply (step_alter_keep _ _ n f (λ _, eq_refl)) in Hs;
      revert Hs; generalize (alter_element n f w); intros ? Hs
  end.

Ltac step_fresh Hs Hn :=
  run;
  lazymatch goal with
  | |- ∃ b w', _ (alter_element ?n ?f ?w) = _ ∧ _ =>
      apply (step_alter_fresh _ _ n f Hn) in Hs;
      revert Hs; generalize (alter_element n f w); intros ? Hs
  end.

Ltac step_new Hs n Hn :=
  run;
  lazymatch goal with
  | |- ∃ b w', _ (with_elements _ ?w) = _ ∧ _ =>
      let Hs' := fresh in
      destruct (step_create _ w Hs) as [Hn Hs']; clear Hs; rename Hs' into Hs;
      set (n := fresh (dom (elements w))) in *;
      revert Hs;
      generalize (with_elements (<[n := blank_element]>) w);
      clearbody n; intros ? Hs
  end.

Ltac step_closure Hs :=
  run;
  lazymatch goal with
  | |- ∃ b w', _ (with_nextFn S ?w) = _ ∧ _ =>
      apply step_closure in Hs;
      revert Hs; generalize (with_nextFn S w); intros ? Hs
  end.

Ltac step_append Hs :=
  lazymatch goal with
  | |- ∃ b w', (let* x := appendChild ?a ?b' in _) ?w = _ ∧ _ =>
      let w' := fresh "w" in
      let Hrun := fresh "Hrun" in
      let Hs' := fresh in
      destruct (step_appendChild _ w a b' Hs) as (w' & Hrun & Hs');
      eapply bind_exists; [exact Hrun|]; cbv beta; clear Hrun Hs;
      rename Hs' into Hs
  end.

Ltac step_markup Hs :=
  lazymatch goal with
  | |- ∃ b w', (let* x := set_innerHTML ?n ?m in _) ?w = _ ∧ _ =>
      let w' := fresh "w" in
      let Hrun := fresh "Hrun" in
      let Hs' := fresh in
      destruct (set_innerHTML_step _ w n m Hs) as (w' & Hrun & Hs');
      eapply bind_exists; [exact Hrun|]; cbv beta; clear Hrun Hs;
      rename Hs' into Hs
  | |- ∃ b w', (let* x := set_textContent ?n ?t in _) ?w = _ ∧ _ =>
      let w' := fresh "w" in
      let Hrun := fresh "Hrun" in
      let Hs' := fresh in
      destruct (set_textContent_step _ w n t Hs) as (w' & Hrun & Hs');
      eapply bind_exists; [exact Hrun|]; cbv beta; clear Hrun Hs;
      rename Hs' into Hs
  end.

Lemma createPanel_facts w :
  ∃ p w', _createPanel w = Ok p w' ∧
          (this w' = this w ∧
           objects w' = objects w ∧ records w' = records w ∧
           trace w' = trace w ∧
           p ∈ dom (elements w') ∧
           classList (element w' p) = ["plugin-control-panel"]).
Proof.
  unfold _createPanel.
  run. set (p := fresh (dom (elements w))).
  run.
  match goal with |- ∃ b w', _ ?w2 = _ ∧ _ => set (w0 := w2) end.
  assert (p ∈ dom (elements w0)) as Hp by (unfold w0; rewrite dom_alter; set_solver).
  assert (classList (element w0 p) = ["plugin-control-panel"]) as Hcl.
  { unfold w0. by rewrite element_alter, decide_True. }
  assert (this w0 = this w ∧ objects w0 = objects w ∧ records w0 = records w
          ∧ trace w0 = trace w) as Hbase by done.
  pose proof (dom_step_refl w0) as Hs.
  revert Hs. generalize w0 at 2 3 as w1. intros w1 Hs.
  clearbody w0 p.
  run. unfold update_style. step_keep Hs.
  step_new Hs header Hheader. step_fresh Hs Hheader.
  step_new Hs title Htitle. step_fresh Hs Htitle.
  run. step_markup Hs.
  step_new Hs closeBtn HcloseBtn. step_fresh Hs HcloseBtn.
  step_markup Hs.
  step_closure Hs. unfold addClickListener. step_keep Hs.
  step_append Hs. step_append Hs.
  step_new Hs content Hcontent. step_fresh Hs Hcontent.
  step_markup Hs.
  step_append Hs. step_append Hs.
  eexists _, _. split; [reflexivity|].
  destruct Hs as (Ht & Ho & Hr & Htr & Hd & Hc).
  destruct Hbase as (Ht0 & Ho0 & Hr0 & Htr0).
  split; [congruence|]. split; [congruence|]. split; [congruence|].
  split; [congruence|]. split; [set_solver|]. by rewrite Hc.
Qed.

Lemma createContainer_facts w :
  ∃ c w', _createContainer w = Ok c w' ∧ dom_step w w'.
Proof.
  unfold _createContainer.
  pose proof (dom_step_refl w) as Hs.
  revert Hs. generalize w at 2 3 as w1. intros w1 Hs.
  step_new Hs container Hcontainer.
  run. step_fresh Hs Hcontainer.
  step_new Hs toggleBtn HtoggleBtn. step_fresh Hs HtoggleBtn.
  step_markup Hs.
  step_closure Hs. unfold addClickListener. step_keep Hs.
  step_append Hs.
  eexists _, _. split; [reflexivity|]. done.
Qed.

Lemma setupEventListeners_facts w :
  ∃ w', _setupEventListeners w = Ok tt w' ∧
        elements w' = elements w ∧ objects w' = objects w ∧
        records w' = records w ∧ trace w' = trace w ∧
        _state (this w') = _state (this w) ∧
        _eventHandlers (this w') = _eventHandlers (this w) ∧
        _panel (this w') = _panel (this w) ∧
        _container (this w') = _container (this w) ∧
        _map (this w') = _map (this w).
Proof.
  unfold _setupEventListeners, bind, closure, assign, modify, field, gets, ret.
  simpl. destruct (_map (this w)) eqn:Hm; eexists; (split; [reflexivity|]);
    simpl; by repeat split.
Qed.

Lemma onAdd_facts w st map :
  live w = Some st →
  ∃ c w', onAdd map w = Ok c w' ∧
    ((∃ p, _panel (this w') = Some p ∧
           panel_expanded w' p = negb (collapsed st)) ∧
     live w' = Some st ∧
     _eventHandlers (this w') = _eventHandlers (this w) ∧
     records w' = records w ∧ trace w' = trace w ∧
     _map (this w') = Some map).
Proof.
  intros Hl. unfold onAdd.
  run. run.
  match goal with |- ∃ b w', _ ?w2 = _ ∧ _ => set (wa := w2) end.
  destruct (createContainer_facts wa) as (c & wb & Hrun & Htb & Hob & Hrb & Htrb & _).
  eapply bind_exists; [exact Hrun|]; cbv beta; clear Hrun.
  run.
  match goal with |- ∃ b w', _ ?w2 = _ ∧ _ => set (wc := w2) end.
  destruct (createPanel_facts wc)
    as (p & wd & Hrun & Htd & Hod & Hrd & Htrd & Hpd & Hcl).
  eapply bind_exists; [exact Hrun|]; cbv beta; clear Hrun.
  run.
  match goal with |- ∃ b w', _ ?w2 = _ ∧ _ => set (we := w2) end.
  assert (this we = set_panel (Some p) (set_container (Some c) (this wa)))
    as Hthis.
  { unfold we. simpl. rewrite Htd. unfold wc. simpl. by rewrite Htb. }
  run. rewrite Hthis. simpl. run. run. rewrite Hthis. simpl. run.
  destruct (step_appendChild we we (map_container map) p (dom_step_refl we))
    as (wf' & Hrun & Htf & Hof & Hrf & Htrf & Hdf & Hcf).
  eapply bind_exists; [exact Hrun|]; cbv beta; clear Hrun.
  destruct (setupEventListeners_facts wf')
    as (wg & Hrun & Heg & Hog & Hrg & Htrg & Hsg & Hhg & Hpg & Hcg & Hmg).
  eapply bind_exists; [exact Hrun|]; cbv beta; clear Hrun.
  assert (_map (this wg) = Some map) as Hmapg by by rewrite Hmg, Htf, Hthis.
  assert (live wg = Some st) as Hlg.
  { unfold live. rewrite Hog, Hsg, Hof, Htf, Hthis. simpl.
    unfold wc. simpl. rewrite Hod. simpl. by rewrite Hob. }
  assert (_panel (this wg) = Some p) as Hpanel
    by by rewrite Hpg, Htf, Hthis.
  assert (classList (element wg p) = ["plugin-control-panel"]) as Hclg.
  { unfold element. rewrite Heg. fold (element wf' p). rewrite Hcf; [done|].
    done. }
  assert (_eventHandlers (this wg) = _eventHandlers (this w)) as Hh
    by by rewrite Hhg, Htf, Hthis.
  assert (records wg = records w) as Hr.
  { rewrite Hrg, Hrf. unfold we. simpl. rewrite Hrd. unfold wc. simpl.
    by rewrite Hrb. }
  assert (trace wg = trace w) as Htr.
  { rewrite Htrg, Htrf. unfold we. simpl. rewrite Htrd. unfold wc. simpl.
    by rewrite Htrb. }
  eapply bind_exists; [by apply read_state_ok|]; cbv beta.
  destruct (collapsed st) eqn:Hc; simpl.
  - run. eexists _, _. split; [reflexivity|].
    split; [|done]. exists p. split; [done|].
    unfold panel_expanded, classList_contains. rewrite Hclg.
    by apply bool_decide_eq_false; intros ?%list_elem_of_singleton.
  - eapply bind_exists.
    { unfold bind. unfold field at 1, gets. rewrite Hpanel. simpl. reflexivity. }
    cbv beta.
    eexists _, _. split; [reflexivity|]. simpl.
    split; [|done]. exists p. split; [done|].
    unfold panel_expanded, classList_contains.
    change (element (with_frames ?f (with_nextFn ?g ?w)) p) with (element w p).
    rewrite element_alter, decide_True by done. simpl. rewrite Hclg.
    by apply bool_decide_eq_true; set_solver.
Qed.

(** ** The invariant of the data model over whole runs *)

Lemma NoDup_set_delete (h : Handler) hs : NoDup hs → NoDup (set_delete h hs).
Proof. apply NoDup_filter. Qed.

Lemma mirrors_same w w' :
  _panel (this w') = _panel (this w) → elements w' = elements w →
  live w' = live w → mirrors w → mirrors w'.
Proof.
  intros Ht He Hl Hm st p Hst Hp.
  unfold panel_expanded, classList_contains, element. rewrite He.
  apply Hm; [by rewrite <- Hl | by rewrite <- Ht].
Qed.

Lemma reposition_mirrors w :
  wf w → mirrors w →
  ∃ w', _updatePanelPosition w = Ok tt w' ∧ wf w' ∧ mirrors w'.
Proof.
  intros [[st Hl] Hnd] Hm. exists (after _updatePanelPosition w).
  split; [apply reposition_ok|]. split.
  { split; [by rewrite after_reposition_live, Hl|].
    by rewrite after_reposition_this. }
  intros st' p Hst' Hp. rewrite after_reposition_live in Hst'.
  rewrite after_reposition_this in Hp.
  unfold panel_expanded, classList_contains.
  rewrite after_reposition_classList. by apply Hm.
Qed.

Lemma toggle_mirrors w :
  wf w → ∃ w', toggle w = Ok tt w' ∧ wf w' ∧ mirrors w'.
Proof.
  intros Hwf. destruct Hwf as [[st Hl] Hnd].
  destruct (_panel (this w)) as [p|] eqn:Hp.
  - destruct (collapsed st) eqn:Hc.
    + destruct (toggle_expanding_facts w st p Hl Hc Hp)
        as (w' & _ & _ & Hrun & Ht & _ & Hl' & Hshown & _).
      exists w'. split; [done|].
      split; [by apply (wf_intro w w' (set_collapsed false st))|].
      intros st' p' Hst' Hp'. rewrite Ht, Hp in Hp'. rewrite Hl' in Hst'.
      by simplify_eq.
    + destruct (toggle_collapsing_facts w st p Hl Hc Hp)
        as (w' & _ & _ & Hrun & Ht & _ & Hl' & Hhidden & _).
      exists w'. split; [done|].
      split; [by apply (wf_intro w w' (set_collapsed true st))|].
      intros st' p' Hst' Hp'. rewrite Ht, Hp in Hp'. rewrite Hl' in Hst'.
      by simplify_eq.
  - destruct (toggle_detached_facts w st Hl Hp)
      as (w' & _ & Hrun & Ht & _ & _ & Hl' & _).
    exists w'. split; [done|].
    split; [by eapply (wf_intro w w')|].
    intros st' p' _ Hp'. rewrite Ht, Hp in Hp'. done.
Qed.

(** Every call other than a [setState] with a [collapsed] key returns and
    keeps the flag and the panel's class in step. *)
Lemma perform_mirrors w c :
  wf w → mirrors w → keeps_collapsed c →
  ∃ w', perform c w = Ok tt w' ∧ wf w' ∧ mirrors w'.
Proof.
  intros Hwf Hm Hk. pose proof Hwf as [[st Hl] Hnd].
  assert (∃ w', expand w = Ok tt w' ∧ wf w' ∧ mirrors w') as Hexpand.
  { unfold expand. rewrite (bind_run _ _ w st w (read_state_ok w st Hl)).
    destruct (collapsed st); [by apply toggle_mirrors | by exists w]. }
  assert (∃ w', collapse w = Ok tt w' ∧ wf w' ∧ mirrors w') as Hcollapse.
  { unfold collapse. rewrite (bind_run _ _ w st w (read_state_ok w st Hl)).
    destruct (collapsed st); [by exists w | by apply toggle_mirrors]. }
  destruct c as [| | |p| |e h|e h|map| |f target]; simpl in *.
  - by apply toggle_mirrors.
  - done.
  - done.
  - destruct (setState_facts w st p Hl)
      as (w' & _ & Hrun & Ht & _ & Hels & _ & Hl' & _ & _).
    exists w'. split; [done|]. split.
    { split; [by rewrite Hl'|]. by rewrite Ht. }
    intros st' panel Hst' Hp'. rewrite Hl' in Hst'. simplify_eq.
    rewrite Ht in Hp'. unfold panel_expanded, classList_contains, element.
    rewrite Hels. unfold spread. rewrite Hk. simpl. by apply Hm.
  - rewrite (bind_run _ _ w _ _ (getState_ok w st Hl)).
    eexists. split; [done|].
    assert (live (with_objects (<[fresh (dom (objects w)) := st]>) w)
            = Some st) as Hl'.
    { unfold live. simpl. rewrite lookup_insert_ne; [done|].
      by apply (fresh_not_state w st). }
    split; [by apply (wf_intro w _ st)|].
    apply (mirrors_same w); [done..|by rewrite Hl'|done].
  - rewrite on_run. eexists. split; [done|]. split.
    + split; [by exists st|]. simpl. apply map_Forall_insert_2; [|done].
      apply NoDup_set_add.
      destruct (_eventHandlers (this w) !! e) as [hs0|] eqn:Hhs0; simpl.
      * by apply (map_Forall_lookup_1 _ _ _ _ Hnd Hhs0).
      * apply NoDup_nil_2.
    + by apply (mirrors_same w).
  - unfold off, bind, field, gets, assign, modify, ret.
    destruct (_eventHandlers (this w) !! e) as [hs|] eqn:Hhs;
      [|by exists w].
    eexists. split; [done|]. split.
    + split; [by exists st|]. simpl. apply map_Forall_insert_2; [|done].
      apply NoDup_set_delete.
      by apply (map_Forall_lookup_1 _ _ _ _ Hnd Hhs).
    + by apply (mirrors_same w).
  - destruct (onAdd_facts w st map Hl)
      as (c & w' & Hrun & (p & Hp & Hcls) & Hl' & Hh & _).
    rewrite (bind_run _ _ w c w' Hrun). exists w'. split; [done|]. split.
    { split; [by rewrite Hl'|]. by rewrite Hh. }
    intros st' p' Hst' Hp'. by simplify_eq.
  - destruct (onRemove_run w)
      as (w' & Hrun & (_ & _ & _ & Hp & _) & Hh & _ & Hs & Ho & _).
    exists w'. split; [done|]. split.
    { split; [|rewrite Hh; apply map_Forall_empty].
      unfold live. rewrite Ho, Hs. by exists st. }
    intros st' p' _ Hp'. by rewrite Hp in Hp'.
  - destruct f; simpl.
    + by apply toggle_mirrors.
    + done.
    + unfold bind, field, gets.
      destruct (_container (this w)), (_panel (this w)); try by exists w.
      destruct (negb _ && negb _); [done | by exists w].
    + rewrite (bind_run _ _ w st w (read_state_ok w st Hl)).
      destruct (collapsed st); [by exists w | by apply reposition_mirrors].
    + rewrite (bind_run _ _ w st w (read_state_ok w st Hl)).
      destruct (collapsed st); [by exists w | by apply reposition_mirrors].
    + by apply reposition_mirrors.
Qed.

Lemma new_PluginControl_facts w options :
  ∃ w', new_PluginControl options w = Ok tt w' ∧ wf w' ∧ mirrors w' ∧
        unattached (this w') ∧
        (collapsed <$> live w')
        = Some (opt_collapsed (spread_options DEFAULT_OPTIONS options)).
Proof.
  unfold new_PluginControl, bind, alloc_record, alloc_object, assign, modify.
  eexists. split; [reflexivity|].
  split; [|split; [|split]].
  - split; [|apply map_Forall_empty].
    unfold live. simpl. rewrite lookup_insert_eq. by eexists.
  - by intros st p _ Hp.
  - by repeat split.
  - unfold live. simpl. by rewrite lookup_insert_eq.
Qed.

(** X18: From construction on, over every sequence of calls none of which is a
    [setState] with a [collapsed] key: every call returns, and at the end
    the flag and the panel's class agree. *)
Lemma collapsed_mirrors_panel w options (cs : list Call) :
  Forall keeps_collapsed cs →
  ∃ w', (new_PluginControl options ;; forEach cs perform) w = Ok tt w' ∧
        wf w' ∧ mirrors w'.
Proof.
  intros Hcs.
  destruct (new_PluginControl_facts w options)
    as (w0 & Hrun & Hwf & Hm & _).
  rewrite (bind_run _ _ w tt w0 Hrun). clear Hrun.
  revert w0 Hwf Hm. induction Hcs as [|c cs Hc Hcs IH]; intros w0 Hwf Hm.
  - by exists w0.
  - destruct (perform_mirrors w0 c Hwf Hm Hc) as (w1 & Hrun & Hwf1 & Hm1).
    simpl. rewrite (bind_run _ _ w0 tt w1 Hrun). by apply IH.
Qed.

(** * Further properties of the code *)

(** ** Emissions, in full *)

Lemma emit_facts w e st :
  live w = Some st →
  let w' := after (_emit e) w in
  let s := fresh (dom (objects w)) in
  _emit e w = Ok tt w' ∧ this w' = this w ∧ elements w' = elements w ∧
  records w' = records w ∧ live w' = Some st ∧
  trace w' = trace w ++ emission (this w) e s ∧
  objects w !! s = None ∧
  (is_Some (_eventHandlers (this w) !! e) → objects w' !! s = Some st) ∧
  (∀ l x, objects w !! l = Some x → objects w' !! l = Some x).
Proof.
  intros Hl w' s.
  split; [by eapply emit_ok|].
  split; [by apply (after_emit_this _ _ st)|].
  split; [by apply (after_emit_elements _ _ st)|].
  split; [by apply (after_emit_records _ _ st)|].
  split; [by apply after_emit_live|].
  split; [by apply (after_emit_trace _ _ st)|].
  split; [apply fresh_object|].
  split; [intros [hs Hhs]; by apply (after_emit_snapshot _ _ _ hs)|].
  intros l x Hx. by apply (after_emit_keeps _ _ st).
Qed.

Lemma elem_of_emission (c : Control (num := num)) h e ev s s' :
  Invoke h e s ∈ emission c ev s' →
  e = ev ∧ s = s' ∧ subscribed c ev h.
Proof.
  unfold emission. intros Hin.
  apply elem_of_cons in Hin as [? | Hin]; [done|].
  destruct (_eventHandlers c !! ev) as [hs|] eqn:Hhs;
    [|by apply elem_of_nil in Hin].
  apply list_elem_of_fmap in Hin as (h' & Heq & Hh'). simplify_eq.
  split; [done|]. split; [done|]. by exists hs.
Qed.


(** ** What subscribers are handed *)

Lemma two_emissions_snapshots w (wa : World (num := num) (unknown := unknown))
    st1 pre e1 :
  live wa = Some st1 → this wa = this w → trace wa = trace w ++ pre →
  (∀ h e s, Invoke h e s ∉ pre) →
  let w' := after (_emit EvStatechange) (after (_emit e1) wa) in
  live w' = Some st1 ∧
  ∀ h e s, Invoke h e s ∈ emitted w w' →
           subscribed (this w) e h ∧ objects w' !! s = Some st1.
Proof.
  intros Hla Hta Htra Hpre w'.
  destruct (emit_facts wa e1 st1 Hla)
    as (_ & Htb & _ & _ & Hlb & Htrb & _ & Hs1 & _).
  destruct (emit_facts (after (_emit e1) wa) EvStatechange st1 Hlb)
    as (_ & Htc & _ & _ & Hlc & Htrc & _ & Hs2 & Hkeep).
  split; [done|]. intros h e s Hin.
  rewrite (emitted_app w w'
             (pre ++ emission (this w) e1 (fresh (dom (objects wa)))
                  ++ emission (this w) EvStatechange
                       (fresh (dom (objects (after (_emit e1) wa))))))
    in Hin.
  2:{ unfold w'. rewrite Htrc, Htrb, Htra, Htb, Hta. by rewrite <- !app_assoc. }
  apply elem_of_app in Hin as [Hin | Hin]; [by apply Hpre in Hin|].
  apply elem_of_app in Hin as [Hin | Hin];
    apply elem_of_emission in Hin as (-> & -> & Hsub); (split; [done|]).
  - apply Hkeep, Hs1. rewrite Hta. by destruct Hsub as (hs & -> & _).
  - apply Hs2. rewrite Htb, Hta. by destruct Hsub as (hs & -> & _).
Qed.

(** X5: After [toggle()], every subscriber that was called holds an event whose
    [state] is a copy of the state after the flip, whichever of the events
    it subscribed to; and only subscribers are called. *)
Theorem toggle_hands_new_state w st :
  live w = Some st →
  ∃ w', toggle w = Ok tt w' ∧
        live w' = Some (set_collapsed (negb (collapsed st)) st) ∧
        ∀ h e s, Invoke h e s ∈ emitted w w' →
                 subscribed (this w) e h ∧
                 objects w' !! s
                 = Some (set_collapsed (negb (collapsed st)) st).
Proof.
  intros Hl.
  set (st1 := set_collapsed (negb (collapsed st)) st).
  set (w0 := with_objects (<[_state (this w) := st1]>) w).
  assert (live w0 = Some st1) as Hl0 by apply lookup_insert_eq.
  destruct (_panel (this w)) as [p|] eqn:Hp.
  - destruct (collapsed st) eqn:Hc.
    + rewrite (toggle_expanding w st p Hl Hc Hp). eexists. split; [done|].
      apply (two_emissions_snapshots w _ st1 [Reposition]).
      * by rewrite after_reposition_live.
      * by rewrite after_reposition_this.
      * by rewrite after_reposition_trace.
      * intros h e s Hin. by apply list_elem_of_singleton in Hin.
    + rewrite (toggle_collapsing w st p Hl Hc Hp). eexists. split; [done|].
      apply (two_emissions_snapshots w _ st1 []); try done.
      * simpl. by rewrite app_nil_r.
      * intros h e s Hin. by apply elem_of_nil in Hin.
  - rewrite (toggle_detached w st Hl Hp). eexists. split; [done|]. fold st1 w0.
    destruct (emit_facts w0 EvStatechange st1 Hl0)
      as (_ & Ht & _ & _ & Hl1 & Htr & _ & Hs & _).
    split; [done|]. intros h e s Hin.
    rewrite (emitted_app w _ _ Htr) in Hin.
    apply elem_of_emission in Hin as (-> & -> & Hsub). split; [done|].
    apply Hs. by destruct Hsub as (hs & -> & _).
Qed.

(** X4: After [setState(p)], every subscriber of [statechange] is called with a
    copy of the merged state, and nobody else is called. *)
Theorem setState_hands_new_state w st p :
  live w = Some st →
  ∃ w', setState p w = Ok tt w' ∧
        live w' = Some (spread st p) ∧
        ∀ h e s, Invoke h e s ∈ emitted w w' →
                 e = EvStatechange ∧ subscribed (this w) e h ∧
                 objects w' !! s = Some (spread st p).
Proof.
  intros Hl. rewrite (setState_run w st p Hl). eexists. split; [done|].
  set (l := fresh (dom (objects w))).
  set (w0 := with_this (set_state l) (with_objects (<[l := spread st p]>) w)).
  assert (live w0 = Some (spread st p)) as Hl0 by apply lookup_insert_eq.
  destruct (emit_facts w0 EvStatechange (spread st p) Hl0)
    as (_ & Ht & _ & _ & Hl1 & Htr & _ & Hs & _).
  split; [done|]. intros h e s Hin.
  rewrite (emitted_app w _ _ Htr) in Hin.
  apply elem_of_emission in Hin as (-> & -> & Hsub).
  split; [done|]. split; [done|]. apply Hs. by destruct Hsub as (hs & -> & _).
Qed.

(** ** Construction and reading *)

(** X1: [new PluginControl(options)]: the state takes [collapsed] and
    [panelWidth] from the options, [true] and 300 where a key is missing;
    its [data] is a new, empty mapping.  The control holds no element, no
    map, no listener and no subscriber, and nothing that existed is
    changed. *)
Theorem constructor_initial_state w options :
  ∃ w' d,
    new_PluginControl options w = Ok tt w' ∧
    live w' = Some {| collapsed := default true (options ≫= po_collapsed);
                      panelWidth :=
                        default (num_lit 300) (options ≫= po_panelWidth);
                      data := Some d |} ∧
    records w !! d = None ∧ records w' !! d = Some ∅ ∧
    objects w !! _state (this w') = None ∧
    unattached (this w') ∧ _mapResizeHandler (this w') = None ∧
    _eventHandlers (this w') = ∅ ∧
    elements w' = elements w ∧ trace w' = trace w ∧
    (∀ l x, objects w !! l = Some x → objects w' !! l = Some x) ∧
    (∀ r m, records w !! r = Some m → records w' !! r = Some m).
Proof.
  unfold new_PluginControl, bind, alloc_record, alloc_object, assign, modify.
  eexists _, (fresh (dom (records w))). split; [reflexivity|]. simpl.
  split.
  { unfold live. simpl. rewrite lookup_insert_eq. by destruct options. }
  split; [apply not_elem_of_dom, is_fresh|].
  split; [apply lookup_insert_eq|].
  split; [apply not_elem_of_dom, is_fresh|].
  split; [by repeat split|]. split; [done|]. split; [done|].
  split; [done|]. split; [done|].
  split.
  - intros l x Hx. rewrite lookup_insert_ne; [done|]. intros <-.
    by rewrite fresh_object in Hx.
  - intros r m Hr. rewrite lookup_insert_ne; [done|]. intros <-.
    pose proof (is_fresh (dom (records w))) as Hf.
    apply not_elem_of_dom in Hf. by rewrite Hf in Hr.
Qed.

(** X2: [getState()] only reads: it emits nothing and changes neither the
    control, nor an element, nor an existing object; and every call returns
    an object of its own, so two calls never return the same reference. *)
Theorem getState_reads_only w st :
  live w = Some st →
  ∃ s1 w1 s2 w2,
    getState w = Ok s1 w1 ∧ getState w1 = Ok s2 w2 ∧
    s1 ≠ s2 ∧ objects w2 !! s1 = Some st ∧ objects w2 !! s2 = Some st ∧
    this w2 = this w ∧ elements w2 = elements w ∧ records w2 = records w ∧
    trace w2 = trace w ∧ live w2 = Some st ∧
    (∀ l x, objects w !! l = Some x → objects w2 !! l = Some x).
Proof.
  intros Hl.
  set (s1 := fresh (dom (objects w))).
  set (w1 := with_objects (<[s1 := st]>) w).
  assert (s1 ≠ _state (this w)) as Hne1 by by apply (fresh_not_state w st).
  assert (live w1 = Some st) as Hl1.
  { unfold live. simpl. by rewrite lookup_insert_ne. }
  set (s2 := fresh (dom (objects w1))).
  assert (s2 ≠ _state (this w)) as Hne2 by by apply (fresh_not_state w1 st).
  assert (s1 ≠ s2) as Hne.
  { intros Heq. pose proof (fresh_object w1) as Hf. fold s2 in Hf.
    rewrite <- Heq in Hf. simpl in Hf. by rewrite lookup_insert_eq in Hf. }
  exists s1, w1, s2, (with_objects (<[s2 := st]>) w1).
  split; [by apply getState_ok|]. split; [by apply getState_ok|].
  split; [done|]. simpl.
  split; [rewrite lookup_insert_ne by done; apply lookup_insert_eq|].
  split; [apply lookup_insert_eq|].
  split; [done|]. split; [done|]. split; [done|]. split; [done|].
  split.
  { unfold live. simpl. by rewrite !lookup_insert_ne. }
  intros l x Hx.
  assert (s1 ≠ l) as Hl1'.
  { intros Heq. rewrite <- Heq in Hx. unfold s1 in Hx.
    by rewrite fresh_object in Hx. }
  assert (s2 ≠ l) as Hl2'.
  { intros Heq. pose proof (fresh_object w1) as Hf. fold s2 in Hf.
    simpl in Hf. rewrite Heq, lookup_insert_ne in Hf by done.
    by rewrite Hf in Hx. }
  by rewrite !lookup_insert_ne.
Qed.

(** X3: [setState] emits also when it changes nothing: if every key of the
    argument carries the value the state has already ([{}] for one), the
    state keeps its fields, yet it is held by a new object afterwards and
    every subscriber of [statechange] is called once. *)
Theorem setState_no_change_still_emits w st p :
  wf w → live w = Some st → spread st p = st →
  ∃ w',
    setState p w = Ok tt w' ∧
    live w' = Some st ∧ _state (this w') ≠ _state (this w) ∧
    events (emitted w w') = [EvStatechange] ∧
    (∀ h, subscribed (this w) EvStatechange h →
          calls h EvStatechange (emitted w w') = 1).
Proof.
  intros Hwf Hl Hsame.
  destruct (setState_facts w st p Hl)
    as (w' & s & Hrun & Ht & Hfresh & _ & _ & Hl' & _ & Hlog).
  exists w'. split; [done|]. rewrite Hsame in Hl'.
  split; [done|]. split.
  { intros Heq. unfold live in Hl. rewrite <- Heq, Hfresh in Hl. done. }
  rewrite Hlog. split; [apply events_emission|].
  intros h Hsub. rewrite calls_emission_subscribed by done.
  by rewrite decide_True.
Qed.

(** ** The handler registry *)

(** X8: Subscribers are called in the order of their first registration: a
    handler registered for the first time is called after all those that
    were there. *)
Theorem emit_in_registration_order w st e h :
  live w = Some st →
  h ∉ default [] (_eventHandlers (this w) !! e) →
  ∃ w1 w2 s,
    on e h w = Ok tt w1 ∧ _emit e w1 = Ok tt w2 ∧
    emitted w1 w2
    = Emit e :: map (λ h', Invoke h' e s)
                    (default [] (_eventHandlers (this w) !! e) ++ [h]).
Proof.
  intros Hl Hnew.
  set (hs := default [] (_eventHandlers (this w) !! e)) in *.
  set (w1 := with_this (set_eventHandlers
                (<[e := set_add h hs]> (_eventHandlers (this w)))) w).
  assert (live w1 = Some st) as Hl1 by done.
  exists w1, (after (_emit e) w1), (fresh (dom (objects w1))).
  split; [apply on_run|]. split; [by eapply emit_ok|].
  apply emitted_app. rewrite (after_emit_trace _ _ st) by done.
  unfold emission. simpl. rewrite lookup_insert_eq.
  unfold set_add. by rewrite decide_False.
Qed.

Lemma subscribed_insert (c : Control (num := num)) e hs e' h' :
  subscribed (set_eventHandlers (<[e := hs]> (_eventHandlers c)) c) e' h'
  ↔ (e' = e ∧ h' ∈ hs) ∨ (e' ≠ e ∧ subscribed c e' h').
Proof.
  unfold subscribed. simpl. split.
  - intros (hs' & Hhs' & Hin). destruct (decide (e' = e)) as [->|Hne].
    + rewrite lookup_insert_eq in Hhs'. simplify_eq. by left.
    + rewrite lookup_insert_ne in Hhs' by done. right. split; [done|].
      by exists hs'.
  - intros [[-> Hin] | [Hne (hs' & Hhs' & Hin)]].
    + exists hs. by rewrite lookup_insert_eq.
    + exists hs'. by rewrite lookup_insert_ne.
Qed.

(** X9: [off(event, handler)] takes exactly that subscription away: the handler
    is no longer called for the event, while every other subscriber of the
    event and every subscription to another event stays. *)
Theorem off_unsubscribes w e h :
  wf w →
  ∃ w1 w2,
    off e h w = Ok tt w1 ∧ wf w1 ∧
    ¬ subscribed (this w1) e h ∧
    (∀ e' h', (e' ≠ e ∨ h' ≠ h) →
       subscribed (this w1) e' h' ↔ subscribed (this w) e' h') ∧
    _emit e w1 = Ok tt w2 ∧
    calls h e (emitted w1 w2) = 0 ∧
    (∀ h', h' ≠ h → subscribed (this w) e h' →
       calls h' e (emitted w1 w2) = 1).
Proof.
  intros Hwf. pose proof Hwf as [[st Hl] Hnd].
  assert (∃ w1, off e h w = Ok tt w1 ∧ wf w1 ∧ live w1 = Some st ∧
                ¬ subscribed (this w1) e h ∧
                (∀ e' h', (e' ≠ e ∨ h' ≠ h) →
                   subscribed (this w1) e' h' ↔ subscribed (this w) e' h'))
    as (w1 & Hrun & Hwf1 & Hl1 & Hnot & Hrest).
  { unfold off, bind, field, gets, assign, modify, ret.
    destruct (_eventHandlers (this w) !! e) as [hs|] eqn:Hhs.
    - eexists. split; [done|]. split.
      { split; [by exists st|]. simpl. apply map_Forall_insert_2; [|done].
        apply NoDup_filter. by apply (map_Forall_lookup_1 _ _ _ _ Hnd Hhs). }
      split; [done|]. split.
      + intros Hsub. simpl in Hsub.
        apply subscribed_insert in Hsub as [[_ Hin] | [? _]];
          [|done]. by apply not_elem_of_set_delete in Hin.
      + intros e' h' Hne. simpl. rewrite subscribed_insert. split.
        * intros [[-> Hin] | [_ Hsub]]; [|done].
          exists hs. split; [done|].
          by apply list_elem_of_filter in Hin as [_ ?].
        * intros (hs' & Hhs' & Hin). destruct (decide (e' = e)) as [->|Hne'].
          -- left. split; [done|]. simplify_eq.
             apply list_elem_of_filter. split; [|done].
             by destruct Hne.
          -- right. split; [done|]. by exists hs'.
    - exists w. split; [done|]. split; [done|]. split; [done|]. split; [|done].
      intros (hs & Hhs' & _). by rewrite Hhs in Hhs'. }
  exists w1, (after (_emit e) w1).
  split; [done|]. split; [done|]. split; [done|]. split; [done|].
  split; [by eapply emit_ok|].
  rewrite (emitted_app w1 _ _ (after_emit_trace w1 e st Hl1)).
  split.
  - rewrite calls_emission.
    destruct (_eventHandlers (this w1) !! e) as [hs|] eqn:Hhs; [|done].
    rewrite decide_True by done.
    assert (h ∉ hs) as Hnin by (intros Hin; apply Hnot; by exists hs).
    clear -Hnin. induction hs as [|a hs IH]; [done|]. simpl.
    rewrite bool_decide_false.
    + apply IH. intros ?. apply Hnin. by right.
    + intros ->. apply Hnin. by left.
  - intros h' Hne Hsub. rewrite calls_emission_subscribed; [|done|].
    + by rewrite decide_True.
    + apply Hrest; [by right | done].
Qed.

(** X7: An emission calls exactly the subscribers of its event, each once, and
    nobody for another event. *)
Theorem emit_calls_exactly_subscribers w e :
  wf w →
  ∃ w',
    _emit e w = Ok tt w' ∧
    events (emitted w w') = [e] ∧
    (∀ h, subscribed (this w) e h → calls h e (emitted w w') = 1) ∧
    (∀ h, ¬ subscribed (this w) e h → calls h e (emitted w w') = 0) ∧
    (∀ h e', e' ≠ e → calls h e' (emitted w w') = 0).
Proof.
  intros Hwf. pose proof Hwf as [[st Hl] Hnd].
  exists (after (_emit e) w). split; [by eapply emit_ok|].
  rewrite (emitted_app w _ _ (after_emit_trace w e st Hl)).
  split; [apply events_emission|]. split; [|split].
  - intros h Hsub. rewrite calls_emission_subscribed by done.
    by rewrite decide_True.
  - intros h Hnot. rewrite calls_emission.
    destruct (_eventHandlers (this w) !! e) as [hs|] eqn:Hhs; [|done].
    rewrite decide_True by done.
    assert (h ∉ hs) as Hnin by (intros Hin; apply Hnot; by exists hs).
    clear -Hnin. induction hs as [|a hs IH]; [done|]. simpl.
    rewrite bool_decide_false.
    + apply IH. intros ?. apply Hnin. by right.
    + intros ->. apply Hnin. by left.
  - intros h e' Hne. rewrite calls_emission.
    destruct (_eventHandlers (this w) !! e) as [hs|]; [|done].
    by rewrite decide_False.
Qed.

(** ** [expand] and [collapse] as commands *)

Lemma toggle_to w st (b : bool) :
  wf w → live w = Some st → collapsed st = negb b →
  ∃ w1, toggle w = Ok tt w1 ∧ wf w1 ∧ mirrors w1 ∧
        live w1 = Some (set_collapsed b st) ∧
        _panel (this w1) = _panel (this w) ∧
        EvStatechange ∈ events (emitted w w1).
Proof.
  intros Hwf Hl Hb.
  destruct (_panel (this w)) as [p|] eqn:Hp.
  - destruct b; simpl in Hb.
    + destruct (toggle_collapsing_facts w st p Hl Hb Hp)
        as (w1 & ? & ? & Hrun & Ht & _ & Hl1 & Hcls & Hlog).
      exists w1. split; [done|].
      split; [by apply (wf_intro w w1 (set_collapsed true st))|].
      split; [|split; [done|split; [by rewrite Ht|]]].
      * intros st' p' Hst' Hp'.
        rewrite Ht, Hp in Hp'. rewrite Hl1 in Hst'. by simplify_eq.
      * rewrite Hlog, events_app, !events_emission. set_solver.
    + destruct (toggle_expanding_facts w st p Hl Hb Hp)
        as (w1 & ? & ? & Hrun & Ht & _ & Hl1 & Hcls & Hlog).
      exists w1. split; [done|].
      split; [by apply (wf_intro w w1 (set_collapsed false st))|].
      split; [|split; [done|split; [by rewrite Ht|]]].
      * intros st' p' Hst' Hp'.
        rewrite Ht, Hp in Hp'. rewrite Hl1 in Hst'. by simplify_eq.
      * rewrite Hlog. change (Reposition :: ?l) with ([Reposition] ++ l).
        rewrite !events_app, !events_emission. set_solver.
  - destruct (toggle_detached_facts w st Hl Hp)
      as (w1 & ? & Hrun & Ht & _ & _ & Hl1 & Hlog).
    exists w1. split; [done|]. rewrite Hb, negb_involutive in Hl1.
    split; [by apply (wf_intro w w1 (set_collapsed b st))|].
    split; [|split; [done|split; [by rewrite Ht, Hp|]]].
    + intros st' p' _ Hp'. by rewrite Ht, Hp in Hp'.
    + rewrite Hlog, events_emission. set_solver.
Qed.

(** [collapse()] when [b], [expand()] otherwise. *)
Lemma set_visibility_facts w st (b : bool) :
  wf w → mirrors w → live w = Some st →
  ∃ w1, (if b then collapse w else expand w) = Ok tt w1 ∧
        wf w1 ∧ mirrors w1 ∧
        live w1 = Some (set_collapsed b st) ∧
        _panel (this w1) = _panel (this w) ∧
        (collapsed st = b → w1 = w) ∧
        (collapsed st ≠ b → EvStatechange ∈ events (emitted w w1)) ∧
        (if b then collapse w1 else expand w1) = Ok tt w1.
Proof.
  intros Hwf Hm Hl.
  assert (∀ w1, live w1 = Some (set_collapsed b st) →
            (if b then collapse w1 else expand w1) = Ok tt w1) as Hagain.
  { intros w1 Hl1. destruct b; unfold collapse, expand;
      by rewrite (bind_run _ _ w1 _ w1 (read_state_ok w1 _ Hl1)). }
  assert (set_collapsed (collapsed st) st = st) as Hsame by by destruct st.
  destruct (decide (collapsed st = b)) as [Heq|Hne].
  - exists w. rewrite <- Heq, Hsame.
    split.
    { destruct (collapsed st) eqn:Hc; unfold collapse, expand;
        rewrite (bind_run _ _ w _ w (read_state_ok w _ Hl)); by rewrite Hc. }
    split; [done|]. split; [done|]. split; [done|]. split; [done|].
    split; [done|]. split; [done|].
    rewrite Heq. apply Hagain. by rewrite <- Heq, Hsame.
  - assert (collapsed st = negb b) as Hb by by destruct (collapsed st), b.
    destruct (toggle_to w st b Hwf Hl Hb)
      as (w1 & Hrun & Hwf1 & Hm1 & Hl1 & Hp1 & Hev).
    exists w1. split.
    { destruct b; unfold collapse, expand;
        rewrite (bind_run _ _ w _ w (read_state_ok w _ Hl)); by rewrite Hb. }
    split; [done|]. split; [done|]. split; [done|]. split; [done|].
    split; [done|]. split; [done|]. by apply Hagain.
Qed.

(** X6: Whatever the state was, after [expand()] the control is expanded and an
    existing panel carries ['expanded']; after [collapse()] it is collapsed
    and the panel does not.  Each leaves the world as it is when called
    again. *)
Theorem expand_collapse_reach w :
  wf w → mirrors w →
  (∃ w1, expand w = Ok tt w1 ∧ wf w1 ∧ mirrors w1 ∧
         (collapsed <$> live w1) = Some false ∧
         (∀ p, _panel (this w) = Some p → panel_expanded w1 p = true) ∧
         expand w1 = Ok tt w1) ∧
  (∃ w1, collapse w = Ok tt w1 ∧ wf w1 ∧ mirrors w1 ∧
         (collapsed <$> live w1) = Some true ∧
         (∀ p, _panel (this w) = Some p → panel_expanded w1 p = false) ∧
         collapse w1 = Ok tt w1).
Proof.
  intros Hwf Hm. pose proof Hwf as [[st Hl] Hnd]. split.
  - destruct (set_visibility_facts w st false Hwf Hm Hl)
      as (w1 & Hrun & Hwf1 & Hm1 & Hl1 & Hp1 & _ & _ & Hagain).
    exists w1. split; [done|]. split; [done|]. split; [done|].
    split; [by rewrite Hl1|]. split; [|done].
    intros p Hp. rewrite <- Hp1 in Hp. by rewrite (Hm1 _ p Hl1 Hp).
  - destruct (set_visibility_facts w st true Hwf Hm Hl)
      as (w1 & Hrun & Hwf1 & Hm1 & Hl1 & Hp1 & _ & _ & Hagain).
    exists w1. split; [done|]. split; [done|]. split; [done|].
    split; [by rewrite Hl1|]. split; [|done].
    intros p Hp. rewrite <- Hp1 in Hp. by rewrite (Hm1 _ p Hl1 Hp).
Qed.

(** ** The React wrapper *)

(** X20: The effect on the [collapsed] prop brings the control to the prop's
    value, through [collapse()] or [expand()]: afterwards the flag is the
    prop and the panel's class agrees.  Nothing is emitted when the flag was
    the prop already; [statechange] is when it was not.  Without a control
    in the ref the effect does nothing, and with an undefined prop it emits
    nothing and keeps the state. *)
Theorem react_sync_follows_prop w st :
  wf w → mirrors w → live w = Some st →
  (∀ b, ∃ w',
     PluginControlReact_sync true (Some b) w = Ok tt w' ∧
     wf w' ∧ mirrors w' ∧
     live w' = Some (set_collapsed b st) ∧
     (collapsed st = b → emitted w w' = []) ∧
     (collapsed st ≠ b → EvStatechange ∈ events (emitted w w'))) ∧
  (∀ prop, PluginControlReact_sync false prop w = Ok tt w) ∧
  (∃ w', PluginControlReact_sync true None w = Ok tt w' ∧
         live w' = Some st ∧ emitted w w' = [] ∧
         elements w' = elements w).
Proof.
  intros Hwf Hm Hl.
  set (s := fresh (dom (objects w))).
  set (w0 := with_objects (<[s := st]>) w).
  assert (live w0 = Some st) as Hl0.
  { unfold live. simpl. rewrite lookup_insert_ne; [done|].
    by apply (fresh_not_state w st). }
  assert (wf w0) as Hwf0 by by apply (wf_intro w w0 st).
  assert (mirrors w0) as Hm0 by by apply (mirrors_same w); rewrite ?Hl0.
  assert (read_object s w0 = Ok st w0) as Hread.
  { unfold read_object, bind, gets, deref. simpl.
    by rewrite lookup_insert_eq. }
  assert (emitted w w0 = []) as He0.
  { apply emitted_app. simpl. by rewrite app_nil_r. }
  split; [|split].
  - intros b. unfold PluginControlReact_sync, when.
    rewrite (bind_run _ _ w s w0 (getState_ok w st Hl)).
    rewrite (bind_run _ _ w0 st w0 Hread).
    destruct (set_visibility_facts w0 st b Hwf0 Hm0 Hl0)
      as (w1 & Hrun & Hwf1 & Hm1 & Hl1 & _ & Hsame & Hev & _).
    destruct (decide (collapsed st = b)) as [Heq|Hne].
    + exists w0. rewrite Heq.
      replace (eqb b b) with true by by destruct b. simpl.
      split; [done|]. split; [done|]. split; [done|].
      split; [by rewrite <- Heq; destruct st|]. split; [done|].
      by intros [].
    + exists w1.
      replace (eqb b (collapsed st)) with false
        by by destruct b, (collapsed st).
      simpl. split; [by destruct b|].
      split; [done|]. split; [done|]. split; [done|].
      split; [done|]. intros _.
      unfold emitted in *. apply Hev. done.
  - done.
  - unfold PluginControlReact_sync, when.
    rewrite (bind_run _ _ w s w0 (getState_ok w st Hl)).
    rewrite (bind_run _ _ w0 st w0 Hread). by exists w0.
Qed.

(** ** The corner *)

(** X10: The corner is the first of top-left, top-right, bottom-left,
    bottom-right whose marker class the container's parent carries, and
    top-right when the parent carries none of them or there is no parent. *)
Theorem getControlPosition_first_marker w :
  _getControlPosition w
  = default TopRight
      (head (filter (λ corner, corner_class corner ∈ parent_classes w)
                    [TopLeft; TopRight; BottomLeft; BottomRight])).
Proof.
  unfold _getControlPosition, parent_classes, classList_contains.
  destruct (_container (this w) ≫= _) as [parent|]; [|done].
  rewrite !filter_cons, filter_nil. simpl.
  repeat case_bool_decide; repeat (case_decide; try done).
Qed.

(** ** Detaching *)

Lemma detach_facts (el : option node) w :
  ∃ els,
    detach el w = Ok tt (with_elements (λ _, els) w) ∧
    (∀ n, el = Some n → parentNode (lookup_element els n) = None) ∧
    (∀ n, el ≠ Some n →
       parentNode (lookup_element els n) = parentNode (element w n)) ∧
    (∀ n q, el = Some n → parentNode (element w n) = Some q →
       n ∉ childNodes (lookup_element els q)) ∧
    (∀ q x, x ∈ childNodes (lookup_element els q) →
       x ∈ childNodes (element w q)) ∧
    (∀ n, classList (lookup_element els n) = classList (element w n)).
Proof.
  unfold detach. destruct el as [el|].
  2:{ exists (elements w). split; [by destruct w|]. by repeat split. }
  unfold bind, gets.
  destruct (parentNode (element w el)) as [parent|] eqn:Hpar.
  2:{ exists (elements w). split; [by destruct w|].
      split; [by intros ? [= <-]|]. split; [done|].
      split; [|done]. intros ? ? [= <-]. by rewrite Hpar. }
  unfold removeChild, bind, gets. rewrite Hpar, decide_True by done.
  unfold update_element, modify.
  set (w1 := alter_element parent _ w).
  exists (elements (alter_element el (set_parentNode None) w1)).
  split; [by destruct w|].
  split; [|split; [|split; [|split]]].
  - intros n [= <-].
    change (lookup_element (elements ?w0) ?n0) with (element w0 n0).
    by rewrite element_alter, decide_True.
  - intros n Hne.
    change (lookup_element (elements ?w0) ?n0) with (element w0 n0).
    rewrite element_alter, decide_False by congruence.
    unfold w1. rewrite element_alter. by case_decide; subst.
  - intros n q [= <-] Hq. rewrite Hpar in Hq. injection Hq as <-.
    change (lookup_element (elements ?w0) ?n0) with (element w0 n0).
    rewrite element_alter.
    case_decide as Hq.
    + subst. simpl. unfold w1. rewrite element_alter, decide_True by done.
      simpl. apply not_elem_of_set_delete.
    + unfold w1. rewrite element_alter, decide_True by done. simpl.
      apply not_elem_of_set_delete.
  - intros q x.
    change (lookup_element (elements ?w0) ?n0) with (element w0 n0).
    rewrite element_alter.
    assert (x ∈ childNodes (element w1 q) → x ∈ childNodes (element w q))
      as Hsub.
    { unfold w1. rewrite element_alter. case_decide; [|done]. subst. simpl.
      unfold set_delete. rewrite list_elem_of_filter. tauto. }
    case_decide; [subst; simpl|]; exact Hsub.
  - intros n.
    change (lookup_element (elements ?w0) ?n0) with (element w0 n0).
    rewrite element_alter.
    assert (classList (element w1 n) = classList (element w n)) as <-.
    { unfold w1. rewrite element_alter. by case_decide; subst. }
    by case_decide; subst.
Qed.

Lemma onRemove_facts w :
  ∃ w1, onRemove w = Ok tt w1 ∧
        unattached (this w1) ∧ _eventHandlers (this w1) = ∅ ∧
        _options (this w1) = _options (this w) ∧
        _state (this w1) = _state (this w) ∧
        objects w1 = objects w ∧ records w1 = records w ∧
        trace w1 = trace w ∧
        (∀ p, _panel (this w) = Some p → parentNode (element w1 p) = None) ∧
        (∀ c, _container (this w) = Some c →
              parentNode (element w1 c) = None) ∧
        (∀ p q, _panel (this w) = Some p →
                parentNode (element w p) = Some q →
                p ∉ childNodes (element w1 q)) ∧
        (∀ c q, _container (this w) = Some c →
                parentNode (element w c) = Some q →
                c ∉ childNodes (element w1 q)) ∧
        (∀ n, classList (element w1 n) = classList (element w n)) ∧
        (∀ f, _resizeHandler (this w) = Some f → f ∉ windowResize w1) ∧
        (∀ f, _clickOutsideHandler (this w) = Some f →
              f ∉ documentClick w1) ∧
        (map_listener_ok (this w) → _mapResizeHandler (this w1) = None) ∧
        (∀ f map, _mapResizeHandler (this w) = Some f →
                  _map (this w) = Some map →
                  mapResize w1 = remove_first (map_id map, f) (mapResize w)).
Proof.
  unfold onRemove, bind, field, gets, map_listener_ok.
  destruct w as [[m mc c p o s eh rh mrh coh] objs recs els lay wr dc mr fr nf tr].
  simpl.
  destruct rh as [rh|], mrh as [mrh|], m as [m|], coh as [coh|]; simpl;
    match goal with
    | |- context [detach p ?w] =>
        destruct (detach_facts p w) as (els1 & -> & Hp1 & Hp2 & Hp3 & Hp4 & Hp5)
    end; simpl;
    match goal with
    | |- context [detach c ?w] =>
        destruct (detach_facts c w) as (els2 & -> & Hc1 & Hc2 & Hc3 & Hc4 & Hc5)
    end; simpl;
    (eexists; split; [done|]; simpl;
     split; [by repeat split|];
     split; [done|]; split; [done|]; split; [done|]; split; [done|];
     split; [done|]; split; [done|];
     split; [intros p' [= ->]; unfold element; simpl;
             destruct (decide (c = Some p')) as [->|Hne];
               [by apply Hc1 | rewrite Hc2 by done; by apply Hp1]|];
     split; [intros c' [= ->]; by apply Hc1|];
     split; [intros p' q [= ->] Hq Hin; unfold element in *; simpl in *;
             apply Hc4 in Hin; unfold element in Hin; simpl in Hin;
             by eapply Hp3|];
     split; [intros c' q [= ->] Hq; unfold element in *; simpl in *;
             destruct (decide (p = Some c')) as [->|Hne];
               [intros Hin; apply Hc4 in Hin; unfold element in Hin;
                simpl in Hin; by eapply Hp3
               |apply (Hc3 c' q eq_refl); unfold element; simpl;
                by rewrite Hp2]|];
     split; [intros n; unfold element in *; simpl in *;
             rewrite Hc5; unfold element; simpl; by rewrite Hp5|];
     split; [first [intros f [= <-]; apply not_elem_of_set_delete | done]|];
     split; [first [intros f [= <-]; apply not_elem_of_set_delete | done]|];
     split; [intros Hok;
             first [reflexivity
                   |exfalso; destruct Hok as [? Hx];
                    [by eexists | discriminate Hx]]|];
     first [by intros f map' [= <-] [= <-] | done]).
Qed.

(** The map's resize listener is held only together with the map: so it is
    after construction, and every call keeps it so. *)
Lemma map_listener_constructed w options w' :
  new_PluginControl options w = Ok tt w' → map_listener_ok (this w').
Proof.
  unfold new_PluginControl, bind, alloc_record, alloc_object, assign, modify.
  intros [= <-]. by intros [? ?].
Qed.

Lemma map_listener_kept w c w' :
  wf w → map_listener_ok (this w) → perform c w = Ok tt w' →
  map_listener_ok (this w').
Proof.
  intros Hwf Hok. pose proof Hwf as [[st Hl] Hnd].
  assert (∀ w1, toggle w = Ok tt w1 → map_listener_ok (this w1)) as Htoggle.
  { intros w1 Hrun. destruct (_panel (this w)) as [p|] eqn:Hp.
    - destruct (collapsed st) eqn:Hc.
      + destruct (toggle_expanding_facts w st p Hl Hc Hp)
          as (w2 & _ & _ & Hrun2 & Ht & _).
        rewrite Hrun in Hrun2. injection Hrun2 as <-. by rewrite Ht.
      + destruct (toggle_collapsing_facts w st p Hl Hc Hp)
          as (w2 & _ & _ & Hrun2 & Ht & _).
        rewrite Hrun in Hrun2. injection Hrun2 as <-. by rewrite Ht.
    - destruct (toggle_detached_facts w st Hl Hp)
        as (w2 & _ & Hrun2 & Ht & _).
      rewrite Hrun in Hrun2. injection Hrun2 as <-. by rewrite Ht. }
  assert (∀ w1, expand w = Ok tt w1 → map_listener_ok (this w1)) as Hexpand.
  { unfold expand. rewrite (bind_run _ _ w st w (read_state_ok w st Hl)).
    destruct (collapsed st); [done|]. by intros w1 [= <-]. }
  assert (∀ w1, collapse w = Ok tt w1 → map_listener_ok (this w1))
    as Hcollapse.
  { unfold collapse. rewrite (bind_run _ _ w st w (read_state_ok w st Hl)).
    destruct (collapsed st); [|done]. by intros w1 [= <-]. }
  assert (∀ w1, _updatePanelPosition w = Ok tt w1 → map_listener_ok (this w1))
    as Hpos.
  { intros w1. rewrite reposition_ok. intros [= <-].
    by rewrite after_reposition_this. }
  destruct c as [| | |p| |e h|e h|map| |f target]; simpl.
  - apply Htoggle.
  - apply Hexpand.
  - apply Hcollapse.
  - destruct (setState_facts w st p Hl) as (w1 & _ & Hrun & Ht & _).
    rewrite Hrun. intros [= <-]. rewrite Ht. exact Hok.
  - rewrite (bind_run _ _ w _ _ (getState_ok w st Hl)). by intros [= <-].
  - rewrite on_run. by intros [= <-].
  - unfold off, bind, field, gets, assign, modify, ret.
    destruct (_eventHandlers (this w) !! e); by intros [= <-].
  - destruct (onAdd_facts w st map Hl)
      as (c & w1 & Hrun & _ & _ & _ & _ & _ & Hmap).
    rewrite (bind_run _ _ w c w1 Hrun). intros [= <-] _.
    unfold map_listener_ok. rewrite Hmap. by eexists.
  - destruct (onRemove_facts w)
      as (w1 & Hrun & _ & _ & _ & _ & _ & _ & _ & _ & _ & _ & _ & _ & _ & _
          & Hnone & _).
    rewrite Hrun. intros [= <-]. unfold map_listener_ok.
    rewrite (Hnone Hok). by intros [? ?].
  - destruct f; simpl.
    + apply Htoggle.
    + apply Hcollapse.
    + unfold bind, field, gets.
      destruct (_container (this w)), (_panel (this w));
        try by intros [= <-].
      destruct (negb _ && negb _); [apply Hcollapse | by intros [= <-]].
    + rewrite (bind_run _ _ w st w (read_state_ok w st Hl)).
      destruct (collapsed st); [by intros [= <-] | apply Hpos].
    + rewrite (bind_run _ _ w st w (read_state_ok w st Hl)).
      destruct (collapsed st); [by intros [= <-] | apply Hpos].
    + apply Hpos.
Qed.

(** X15: [onRemove()] takes the control out of the page, whatever state it was
    in: the panel and the container have no parent afterwards and are not
    among the children of the elements they were in; the listeners on the
    window and on the document are removed, and so is one registration of
    the resize listener on the map; the control keeps no reference to the
    map, to an element or to any of its three listeners, and no
    subscription is left.  The state and the options stay, no class of any
    element changes and nothing is emitted.  The precondition, that the
    map's resize listener is held only together with the map, holds from
    construction on. *)
Theorem onRemove_tears_down w :
  map_listener_ok (this w) →
  ∃ w1, onRemove w = Ok tt w1 ∧
        getMap w1 = Ok None w1 ∧ getContainer w1 = Ok None w1 ∧
        holds_nothing (this w1) ∧
        (∀ e h, ¬ subscribed (this w1) e h) ∧
        live w1 = live w ∧ _options (this w1) = _options (this w) ∧
        records w1 = records w ∧ emitted w w1 = [] ∧
        (∀ p, _panel (this w) = Some p → parentNode (element w1 p) = None) ∧
        (∀ c, _container (this w) = Some c →
              parentNode (element w1 c) = None) ∧
        (∀ p q, _panel (this w) = Some p →
                parentNode (element w p) = Some q →
                p ∉ childNodes (element w1 q)) ∧
        (∀ c q, _container (this w) = Some c →
                parentNode (element w c) = Some q →
                c ∉ childNodes (element w1 q)) ∧
        (∀ n, classList (element w1 n) = classList (element w n)) ∧
        (∀ f, _resizeHandler (this w) = Some f → f ∉ windowResize w1) ∧
        (∀ f, _clickOutsideHandler (this w) = Some f →
              f ∉ documentClick w1) ∧
        (∀ f map, _mapResizeHandler (this w) = Some f →
                  _map (this w) = Some map →
                  mapResize w1 = remove_first (map_id map, f) (mapResize w)).
Proof.
  intros Hok.
  destruct (onRemove_facts w)
    as (w1 & Hrun & Hun & Heh & Hopt & Hst & Hobj & Hrec & Htr & Hp & Hc
        & Hpq & Hcq & Hcls & Hwr & Hdc & Hmrh & Hmr).
  exists w1. split; [done|].
  pose proof Hun as (Hm & _ & Hc' & _).
  split; [unfold getMap, field, gets; by rewrite Hm|].
  split; [unfold getContainer, field, gets; by rewrite Hc'|].
  split; [split; [done|by apply Hmrh]|]. split.
  { intros e h (hs & Hhs & _). by rewrite Heh in Hhs. }
  split; [unfold live; by rewrite Hobj, Hst|].
  split; [done|]. split; [done|].
  split; [apply emitted_app; by rewrite app_nil_r|].
  done.
Qed.

(** X16: What the control's functions do when they are called after
    [onRemove()].  A document click, a resize of the window or of the map
    and a pending animation frame change neither the control, nor the state,
    nor any element, and emit nothing.  A click on the toggle button, which
    keeps its listener, still flips the flag: no element changes and nobody
    is called. *)
Theorem listeners_after_removal w st :
  live w = Some st →
  ∃ w1, onRemove w = Ok tt w1 ∧
    (∀ f target, f ≠ ToggleClick → f ≠ CloseClick →
       ∃ w2, call f target w1 = Ok tt w2 ∧ this w2 = this w1 ∧
             objects w2 = objects w1 ∧ records w2 = records w1 ∧
             elements w2 = elements w1 ∧ events (emitted w1 w2) = [] ∧
             (∀ h e s, Invoke h e s ∉ emitted w1 w2)) ∧
    (∀ target,
       ∃ w2, call ToggleClick target w1 = Ok tt w2 ∧
             live w2 = Some (set_collapsed (negb (collapsed st)) st) ∧
             elements w2 = elements w1 ∧
             emitted w1 w2 = [Emit EvStatechange]).
Proof.
  intros Hl.
  destruct (onRemove_facts w)
    as (w1 & Hrun & Hun & Heh & Hopt & Hst & Hobj & Hrec & Htr & _).
  assert (live w1 = Some st) as Hl1 by (unfold live; by rewrite Hobj, Hst).
  pose proof Hun as (Hm & Hmc & Hc & Hp & _).
  exists w1. split; [done|]. split.
  - assert (∃ w2, _updatePanelPosition w1 = Ok tt w2 ∧ this w2 = this w1 ∧
             objects w2 = objects w1 ∧ records w2 = records w1 ∧
             elements w2 = elements w1 ∧ events (emitted w1 w2) = [] ∧
             (∀ h e s, Invoke h e s ∉ emitted w1 w2)) as Hpos.
    { eexists. split; [apply reposition_absent; by left|].
      rewrite (emitted_app w1 _ [Reposition]) by done.
      split; [done|]. split; [done|]. split; [done|]. split; [done|].
      split; [done|]. intros h e s Hin.
      by apply list_elem_of_singleton in Hin. }
    assert (∃ w2, Ok tt w1 = Ok tt w2 ∧ this w2 = this w1 ∧
             objects w2 = objects w1 ∧ records w2 = records w1 ∧
             elements w2 = elements w1 ∧ events (emitted w1 w2) = [] ∧
             (∀ h e s, Invoke h e s ∉ emitted w1 w2)) as Hnone.
    { exists w1. rewrite (emitted_app w1 w1 []) by by rewrite app_nil_r.
      split; [done|]. split; [done|]. split; [done|]. split; [done|].
      split; [done|]. split; [done|]. intros h e s Hin.
      by apply elem_of_nil in Hin. }
    intros f target Hf1 Hf2. destruct f; simpl; try done.
    + unfold bind, field, gets. by rewrite Hc.
    + rewrite (bind_run _ _ w1 st w1 (read_state_ok w1 st Hl1)).
      by destruct (collapsed st).
    + rewrite (bind_run _ _ w1 st w1 (read_state_ok w1 st Hl1)).
      by destruct (collapsed st).
  - intros target. simpl.
    destruct (toggle_detached_facts w1 st Hl1 Hp)
      as (w2 & s & Hrun2 & _ & Hels & _ & Hl2 & Hlog).
    exists w2. split; [done|]. split; [done|]. split; [done|].
    rewrite Hlog. unfold emission. by rewrite Heh.
Qed.

(** ** Clicks outside the control *)

Lemma contains_self w n : contains w n n = true.
Proof. unfold contains. simpl. by rewrite bool_decide_true. Qed.

Lemma contains_child w n t :
  parentNode (element w t) = Some n → contains w n t = true.
Proof.
  intros Hp. unfold contains. simpl.
  unfold element in Hp. rewrite Hp.
  destruct (size (elements w)); simpl;
    rewrite (bool_decide_true (n = n)) by done;
    by rewrite orb_true_r.
Qed.

(** X12: The document's click listener.  On an attached control, a click whose
    target lies neither in the container nor in the panel collapses the
    control: the flag is [true] afterwards and the panel is hidden; that
    emits [collapse], then [statechange] when the control was expanded, and
    changes nothing when it was collapsed already.  A click inside either
    element changes nothing; so a click on the panel, on the container or on
    the toggle button does not close the panel. *)
Theorem clickOutside_collapses w st container panel :
  wf w → mirrors w → live w = Some st →
  _container (this w) = Some container → _panel (this w) = Some panel →
  (∀ target,
     contains w container target = false →
     contains w panel target = false →
     ∃ w', call ClickOutside target w = Ok tt w' ∧
           live w' = Some (set_collapsed true st) ∧
           panel_expanded w' panel = false ∧
           (collapsed st = true → w' = w) ∧
           (collapsed st = false →
              events (emitted w w') = [EvCollapse; EvStatechange])) ∧
  (∀ target,
     contains w container target = true ∨ contains w panel target = true →
     call ClickOutside target w = Ok tt w) ∧
  call ClickOutside panel w = Ok tt w ∧
  call ClickOutside container w = Ok tt w ∧
  (∀ button, parentNode (element w button) = Some container →
             call ClickOutside button w = Ok tt w).
Proof.
  intros Hwf Hm Hl Hc Hp.
  assert (∀ target,
            contains w container target = true ∨
            contains w panel target = true →
            call ClickOutside target w = Ok tt w) as Hinside.
  { intros target Hin. simpl. unfold bind, field, gets, id. rewrite Hc, Hp.
    by destruct Hin as [-> | ->]; rewrite ?orb_true_r, ?andb_false_r. }
  split; [|split; [done|split; [|split]]].
  - intros target Hout1 Hout2. simpl. unfold bind, field, gets, id.
    rewrite Hc, Hp, Hout1, Hout2. simpl.
    unfold collapse. rewrite (bind_run _ _ w st w (read_state_ok w st Hl)).
    destruct (collapsed st) eqn:Hcol; simpl.
    + exists w. split; [done|].
      split; [rewrite Hl; f_equal; destruct st; simpl in *; by subst|].
      split; [by rewrite (Hm st panel Hl Hp), Hcol|]. done.
    + destruct (toggle_collapsing_facts w st panel Hl Hcol Hp)
        as (w' & s1 & s2 & Hrun & _ & _ & Hl' & Hhidden & Hlog).
      exists w'. split; [done|]. split; [done|]. split; [done|].
      split; [done|]. intros _.
      by rewrite Hlog, events_app, !events_emission.
  - apply Hinside. right. apply contains_self.
  - apply Hinside. left. apply contains_self.
  - intros button Hb. apply Hinside. left. by apply contains_child.
Qed.

(** ** The positioner, again *)

(** X11: Positioning is idempotent: a second run of the positioner right after
    the first leaves every element as the first one made it.  So the resize
    listeners and the animation frame can fire any number of times. *)
Theorem updatePanelPosition_idempotent w :
  (∀ p, _panel (this w) = Some p → p ∈ dom (elements w)) →
  ∃ w1 w2,
    _updatePanelPosition w = Ok tt w1 ∧
    _updatePanelPosition w1 = Ok tt w2 ∧
    elements w2 = elements w1 ∧
    this w2 = this w ∧ objects w2 = objects w ∧ records w2 = records w ∧
    events (emitted w w2) = [].
Proof.
  intros Hdom.
  set (wt := with_trace (λ t, t ++ [Reposition]) w).
  set (wtt := with_trace (λ t, t ++ [Reposition]) wt).
  assert (emitted w wtt = [Reposition; Reposition]) as Hlog.
  { apply emitted_app. simpl. by rewrite <- app_assoc. }
  destruct (_container (this w)) as [c|] eqn:Hc.
  2:{ exists wt, wtt. split; [apply reposition_absent; auto|].
      split; [apply reposition_absent; auto|]. by rewrite Hlog. }
  destruct (_panel (this w)) as [p|] eqn:Hp.
  2:{ exists wt, wtt. split; [apply reposition_absent; auto|].
      split; [apply reposition_absent; auto|]. by rewrite Hlog. }
  destruct (_mapContainer (this w)) as [m|] eqn:Hmc.
  2:{ exists wt, wtt. split; [apply reposition_absent; auto|].
      split; [apply reposition_absent; auto|]. by rewrite Hlog. }
  destruct (querySelector w c "plugin-control-toggle") as [b|] eqn:Hq.
  2:{ assert (∀ w0, this w0 = this w → elements w0 = elements w →
                _updatePanelPosition w0
                = Ok tt (with_trace (λ t, t ++ [Reposition]) w0)) as Hno.
      { intros w0 Ht He.
        unfold _updatePanelPosition, bind, field, gets, log, modify. simpl.
        rewrite Ht, Hc, Hp, Hmc.
        assert (querySelector (with_trace (λ t, t ++ [Reposition]) w0) c
                  "plugin-control-toggle" = None) as ->; [|done].
        unfold querySelector, element. simpl. rewrite He. exact Hq. }
      exists wt, wtt. split; [by apply Hno|]. split; [by apply Hno|].
      by rewrite Hlog. }
  pose proof (reposition_present w c p m b Hc Hp Hmc Hq) as Hrun1.
  set (F := λ (w0 : World (num := num) (unknown := unknown)) e,
         set_style
           (spec_panel_style (_getControlPosition w0)
              (getBoundingClientRect w0 b) (getBoundingClientRect w0 m)
              (style_width (style e))) e) in *.
  set (w1 := alter_element p (F w) wt) in *.
  assert (p ∈ dom (elements wt)) as Hpd by by apply Hdom.
  assert (querySelector w1 c "plugin-control-toggle" = Some b) as Hq1.
  { unfold w1. rewrite querySelector_alter by done. exact Hq. }
  pose proof (reposition_present w1 c p m b Hc Hp Hmc Hq1) as Hrun2.
  assert (_getControlPosition w1 = _getControlPosition w) as Hpos.
  { unfold w1. by rewrite getControlPosition_alter. }
  rewrite Hpos in Hrun2.
  change (getBoundingClientRect w1) with (getBoundingClientRect w) in Hrun2.
  fold (F w) in Hrun2.
  eexists _, _. split; [exact Hrun1|]. split; [exact Hrun2|].
  split.
  { unfold w1, alter_element, element. simpl.
    rewrite lookup_element_insert_eq, insert_insert_eq. f_equal.
    unfold F, spec_panel_style. simpl.
    by destruct (_getControlPosition w). }
  split; [done|]. split; [done|]. split; [done|].
  rewrite (emitted_app w _ [Reposition; Reposition]); [done|].
  simpl. by rewrite <- app_assoc.
Qed.

(** ** The state hook *)

Lemma read_object_ok w l st :
  objects w !! l = Some st → read_object l w = Ok st w.
Proof. intros Hl. unfold read_object, bind, gets, deref. by rewrite Hl. Qed.

Lemma alloc_object_facts w st :
  closed_heap w →
  (∀ r, data st = Some r → is_Some (records w !! r)) →
  let l := fresh (dom (objects w)) in
  let w' := with_objects (<[l := st]>) w in
  closed_heap w' ∧ objects w' !! l = Some st ∧ objects w !! l = None ∧
  objects w ⊆ objects w'.
Proof.
  intros Hcl Hst l w'.
  assert (objects w !! l = None) as Hfresh by apply fresh_object.
  split; [|split; [apply lookup_insert_eq|split; [done|]]].
  - intros l' st' Hl' r Hr. simpl in *.
    destruct (decide (l = l')) as [<-|Hne].
    + rewrite lookup_insert_eq in Hl'. simplify_eq. by apply Hst.
    + rewrite lookup_insert_ne in Hl' by done. by apply (Hcl l' st' Hl').
  - by apply insert_subseteq.
Qed.

Lemma fresh_record w : records w !! fresh (dom (records w)) = None.
Proof. apply not_elem_of_dom, is_fresh. Qed.

Lemma setData_updater_facts w prev st data' new :
  closed_heap w →
  objects w !! prev = Some st →
  records w !! data' = Some new →
  ∃ next merged w',
    setData_updater data' prev w = Ok next w' ∧
    closed_heap w' ∧
    objects w !! next = None ∧ records w !! merged = None ∧
    objects w' !! next = Some (set_data (Some merged) st) ∧
    records w' !! merged
    = Some (new ∪ default ∅ (data st ≫= λ r, records w !! r)) ∧
    objects w ⊆ objects w' ∧ records w ⊆ records w' ∧
    this w' = this w ∧ elements w' = elements w ∧ trace w' = trace w.
Proof.
  intros Hcl Hprev Hnew. unfold setData_updater.
  rewrite (bind_run _ _ w st w (read_object_ok w prev st Hprev)).
  set (old := default ∅ (data st ≫= λ r, records w !! r)).
  assert (record_entries (data st) w = Ok old w) as Hold.
  { unfold record_entries, old. destruct (data st) as [r|] eqn:Hd; [|done].
    destruct (Hcl prev st Hprev r Hd) as [m Hm].
    unfold bind, gets, deref. simpl. by rewrite Hm. }
  rewrite (bind_run _ _ w old w Hold).
  assert (record_entries (Some data') w = Ok new w) as Hnew'.
  { unfold record_entries, bind, gets, deref. by rewrite Hnew. }
  rewrite (bind_run _ _ w new w Hnew').
  set (merged := fresh (dom (records w))).
  set (w1 := with_records (<[merged := new ∪ old]>) w).
  rewrite (bind_run _ _ w merged w1) by done.
  assert (records w !! merged = None) as Hfresh by apply fresh_record.
  assert (closed_heap w1) as Hcl1.
  { intros l st' Hl r Hr. simpl.
    destruct (Hcl l st' Hl r Hr) as [m Hm]. exists m.
    rewrite lookup_insert_ne; [done|]. intros <-. by rewrite Hfresh in Hm. }
  destruct (alloc_object_facts w1 (set_data (Some merged) st) Hcl1)
    as (Hcl2 & Hnext & Hnone & Hsub).
  { intros r [= <-]. simpl. rewrite lookup_insert_eq. by eexists. }
  eexists _, merged, _. split; [reflexivity|].
  split; [done|]. split; [done|]. split; [done|]. split; [done|].
  split; [apply lookup_insert_eq|]. split; [done|].
  split; [by apply insert_subseteq|]. done.
Qed.

(** X21: The hook's [setData(data)] merges one level deep: in the new state,
    [data] is a new mapping in which every key of the argument has the
    argument's value and every other key of the previous [data] keeps its
    value; this is the merge the specification describes.  The state is a
    new object with the previous [collapsed] and [panelWidth]; the previous
    state object, the previous mapping and the argument are not written
    to. *)
Theorem hook_setData_merges w prev st data' new :
  closed_heap w →
  objects w !! prev = Some st →
  records w !! data' = Some new →
  let old := default ∅ (data st ≫= λ r, records w !! r) in
  ∃ next merged m w',
    setData_updater data' prev w = Ok next w' ∧
    next ≠ prev ∧ data st ≠ Some merged ∧ merged ≠ data' ∧
    objects w' !! next
    = Some {| collapsed := collapsed st; panelWidth := panelWidth st;
              data := Some merged |} ∧
    records w' !! merged = Some m ∧
    m = spec_merge_data old new ∧
    (∀ k v, new !! k = Some v → m !! k = Some v) ∧
    (∀ k, new !! k = None → m !! k = old !! k) ∧
    objects w' !! prev = Some st ∧
    records w' !! data' = Some new ∧
    (∀ r, data st = Some r → records w' !! r = records w !! r).
Proof.
  intros Hcl Hprev Hnew old.
  destruct (setData_updater_facts w prev st data' new Hcl Hprev Hnew)
    as (next & merged & w' & Hrun & _ & Hnext & Hmerged & Hst' & Hm & Ho & Hr
        & _).
  exists next, merged, (new ∪ old), w'.
  split; [done|].
  split; [intros ->; by rewrite Hprev in Hnext|].
  split.
  { intros Hd. destruct (Hcl prev st Hprev merged Hd) as [x Hx].
    by rewrite Hmerged in Hx. }
  split; [intros ->; by rewrite Hnew in Hmerged|].
  split; [done|]. split; [done|]. split; [done|].
  split; [intros k v Hk; by apply lookup_union_Some_l|].
  split; [intros k Hk; by apply lookup_union_r|].
  split; [by apply (lookup_weaken _ _ _ _ Hprev)|].
  split; [by apply (lookup_weaken _ _ _ _ Hnew)|].
  intros r Hd. destruct (Hcl prev st Hprev r Hd) as [x Hx].
  rewrite Hx. by apply (lookup_weaken _ _ _ _ Hx).
Qed.

Lemma initial_fields_closed w stD initialState :
  initial_ok w initialState →
  (∀ r, data stD = Some r → is_Some (records w !! r)) →
  ∀ r, data (initial_fields stD initialState) = Some r →
       is_Some (records w !! r).
Proof.
  intros Hinit HD r. unfold initial_fields.
  destruct initialState as [p|]; [|apply HD].
  unfold spread. simpl. destruct (p_data p) as [[r'|]|] eqn:Hp; simpl.
  - intros [= <-]. by apply (Hinit p).
  - done.
  - apply HD.
Qed.

Lemma apply_update_facts w DEFAULT_STATE initialState u prev stD st :
  closed_heap w → objects w !! DEFAULT_STATE = Some stD →
  objects w !! prev = Some st →
  initial_ok w initialState → update_ok w u →
  ∃ next st' w',
    apply_update DEFAULT_STATE initialState u prev w = Ok next w' ∧
    closed_heap w' ∧ objects w' !! next = Some st' ∧
    objects w !! next = None ∧
    (u = UpdReset → st' = initial_fields stD initialState) ∧
    objects w ⊆ objects w' ∧ records w ⊆ records w' ∧
    this w' = this w ∧ elements w' = elements w ∧ trace w' = trace w.
Proof.
  intros Hcl HD Hprev Hinit Hu.
  assert (∀ r, data st = Some r → is_Some (records w !! r)) as Hst
    by (intros r; by apply (Hcl prev st Hprev)).
  destruct u as [c|n|d| |]; simpl.
  - unfold setCollapsed_updater.
    rewrite (bind_run _ _ w st w (read_object_ok w prev st Hprev)).
    destruct (alloc_object_facts w (set_collapsed c st) Hcl Hst)
      as (Hcl' & Hnext & Hnone & Hsub).
    eexists _, _, _. split; [reflexivity|].
    split; [exact Hcl'|]. split; [exact Hnext|]. split; [exact Hnone|].
    split; [done|]. split; [exact Hsub|]. done.
  - unfold setPanelWidth_updater.
    rewrite (bind_run _ _ w st w (read_object_ok w prev st Hprev)).
    destruct (alloc_object_facts w (set_panelWidth n st) Hcl Hst)
      as (Hcl' & Hnext & Hnone & Hsub).
    eexists _, _, _. split; [reflexivity|].
    split; [exact Hcl'|]. split; [exact Hnext|]. split; [exact Hnone|].
    split; [done|]. split; [exact Hsub|]. done.
  - destruct Hu as [new Hnew].
    destruct (setData_updater_facts w prev st d new Hcl Hprev Hnew)
      as (next & merged & w' & Hrun & Hcl' & Hnone & _ & Hnext & _ & Ho & Hr
          & Hrest).
    exists next, (set_data (Some merged) st), w'.
    split; [done|]. split; [done|]. split; [done|]. split; [done|].
    split; [done|]. split; [done|]. split; [done|]. done.
  - unfold toggle_updater.
    rewrite (bind_run _ _ w st w (read_object_ok w prev st Hprev)).
    destruct (alloc_object_facts w (set_collapsed (negb (collapsed st)) st)
                Hcl Hst)
      as (Hcl' & Hnext & Hnone & Hsub).
    eexists _, _, _. split; [reflexivity|].
    split; [exact Hcl'|]. split; [exact Hnext|]. split; [exact Hnone|].
    split; [done|]. split; [exact Hsub|]. done.
  - unfold usePluginState_initial.
    rewrite (bind_run _ _ w stD w (read_object_ok w _ stD HD)).
    fold (initial_fields stD initialState).
    destruct (alloc_object_facts w (initial_fields stD initialState) Hcl)
      as (Hcl' & Hnext & Hnone & Hsub).
    { apply initial_fields_closed; [done|].
      intros r; by apply (Hcl DEFAULT_STATE stD HD). }
    eexists _, _, _. split; [reflexivity|].
    split; [exact Hcl'|]. split; [exact Hnext|]. split; [exact Hnone|].
    split; [done|]. split; [exact Hsub|]. done.
Qed.

Lemma initial_ok_mono w w' initialState :
  records w ⊆ records w' → initial_ok w initialState →
  initial_ok w' initialState.
Proof.
  intros Hsub Hinit p r Hp Hr. destruct (Hinit p r Hp Hr) as [m Hm].
  exists m. by apply (lookup_weaken _ _ _ _ Hm).
Qed.

Lemma update_ok_mono w w' u :
  records w ⊆ records w' → update_ok w u → update_ok w' u.
Proof.
  intros Hsub. destruct u; try done. simpl. intros [m Hm].
  exists m. by apply (lookup_weaken _ _ _ _ Hm).
Qed.

Lemma apply_updates_facts w DEFAULT_STATE initialState us prev stD st :
  closed_heap w → objects w !! DEFAULT_STATE = Some stD →
  objects w !! prev = Some st →
  initial_ok w initialState → Forall (update_ok w) us →
  ∃ next st' w',
    apply_updates DEFAULT_STATE initialState us prev w = Ok next w' ∧
    closed_heap w' ∧ objects w' !! next = Some st' ∧
    (last us = Some UpdReset → st' = initial_fields stD initialState) ∧
    objects w ⊆ objects w' ∧ records w ⊆ records w' ∧
    this w' = this w ∧ elements w' = elements w ∧ trace w' = trace w.
Proof.
  intros Hcl HD Hprev Hinit Hus. revert w prev st Hcl HD Hprev Hinit Hus.
  induction us as [|u us IH]; intros w prev st Hcl HD Hprev Hinit Hus.
  - exists prev, st, w. by repeat split.
  - apply Forall_cons in Hus as [Hu Hus]. simpl.
    destruct (apply_update_facts w DEFAULT_STATE initialState u prev stD st
                Hcl HD Hprev Hinit Hu)
      as (n1 & st1 & w1 & Hrun & Hcl1 & Hn1 & _ & Hreset & Ho1 & Hr1 & Ht1
          & He1 & Htr1).
    rewrite (bind_run _ _ w n1 w1 Hrun).
    destruct (IH w1 n1 st1 Hcl1) as
      (n2 & st2 & w2 & Hrun2 & Hcl2 & Hn2 & Hreset2 & Ho2 & Hr2 & Ht2 & He2
       & Htr2).
    { by apply (lookup_weaken _ _ _ _ HD). }
    { done. }
    { by apply (initial_ok_mono w). }
    { eapply Forall_impl; [exact Hus|]. intros u'. by apply update_ok_mono. }
    exists n2, st2, w2. split; [done|]. split; [done|]. split; [done|].
    split.
    { intros Hlast. destruct us as [|u' us'].
      - injection Hlast as ->. injection Hrun2 as -> ->.
        rewrite Hn1 in Hn2. injection Hn2 as <-. by apply Hreset.
      - apply Hreset2. exact Hlast. }
    split; [by etrans|]. split; [by etrans|].
    split; [congruence|]. split; [congruence|]. congruence.
Qed.


(** X22: Every update through the hook returns and builds new objects only: the
    state objects and the mappings that existed, the module's default state
    among them, keep their contents; the control, the elements and the log
    are not touched. *)
Theorem hook_updates_never_mutate w DEFAULT_STATE initialState us prev :
  closed_heap w → is_Some (objects w !! DEFAULT_STATE) →
  is_Some (objects w !! prev) →
  initial_ok w initialState → Forall (update_ok w) us →
  ∃ next w',
    apply_updates DEFAULT_STATE initialState us prev w = Ok next w' ∧
    is_Some (objects w' !! next) ∧
    (∀ l x, objects w !! l = Some x → objects w' !! l = Some x) ∧
    (∀ r m, records w !! r = Some m → records w' !! r = Some m) ∧
    this w' = this w ∧ elements w' = elements w ∧ trace w' = trace w.
Proof.
  intros Hcl [stD HD] [st Hprev] Hinit Hus.
  destruct (apply_updates_facts w DEFAULT_STATE initialState us prev stD st
              Hcl HD Hprev Hinit Hus)
    as (next & st' & w' & Hrun & _ & Hnext & _ & Ho & Hr & Hrest).
  exists next, w'. split; [done|]. split; [by eexists|].
  split; [intros l x Hx; by apply (lookup_weaken _ _ _ _ Hx)|].
  split; [intros r m Hm; by apply (lookup_weaken _ _ _ _ Hm)|].
  done.
Qed.


(** ** Building the elements: [_createContainer], [_createPanel], [onAdd] *)

(** *** Classes and widths *)

Lemma tokens_from_app cur a sp b :
  is_space sp = true →
  tokens_from cur (a +:+ String sp b) = tokens_from cur a ++ tokens_from "" b.
Proof.
  intros Hsp. revert cur. induction a as [|x a IH]; intros cur; simpl.
  - by rewrite Hsp.
  - destruct (is_space x); [by rewrite IH, app_assoc | apply IH].
Qed.

Lemma container_className (className : string) :
  class_tokens
    ("maplibregl-ctrl maplibregl-ctrl-group plugin-control" +:+
     (if decide (className = "") then "" else " " +:+ className))
  = container_classes className.
Proof.
  unfold class_tokens, container_classes, class_names.
  case_decide as Hc; [subst; reflexivity|].
  change (" " +:+ className) with (String (Ascii.ascii_of_nat 32) className).
  rewrite tokens_from_app by reflexivity. by rewrite foldl_app.
Qed.

Lemma set_width_px_blank (n : num) :
  set_width_px n blank_style = set_width (css_width n) blank_style.
Proof. unfold set_width_px, css_width. by destruct (num_nonneg n). Qed.


(** *** New elements *)

Lemma element_create w n :
  element (with_elements (<[fresh (dom (elements w)) := blank_element]>) w) n
  = if decide (n = fresh (dom (elements w))) then blank_element else element w n.
Proof.
  unfold element. simpl. case_decide as Hn.
  - subst. apply lookup_element_insert_eq.
  - by apply lookup_element_insert_ne.
Qed.

Lemma element_create_eq w :
  element (with_elements (<[fresh (dom (elements w)) := blank_element]>) w)
    (fresh (dom (elements w))) = blank_element.
Proof. by rewrite element_create, decide_True. Qed.

Lemma element_create_ne w n :
  n ≠ fresh (dom (elements w)) →
  element (with_elements (<[fresh (dom (elements w)) := blank_element]>) w) n
  = element w n.
Proof. intros. by rewrite element_create, decide_False. Qed.

Lemma fresh_ne w m :
  m ∈ dom (elements w) → m ≠ fresh (dom (elements w)).
Proof. intros Hm ->. by apply (is_fresh (dom (elements w))). Qed.

Lemma dom_alter_in w n f m :
  m ∈ dom (elements w) → m ∈ dom (elements (alter_element n f w)).
Proof. intros Hm. rewrite dom_alter. by apply elem_of_union_r. Qed.

Lemma dom_alter_new w n f : n ∈ dom (elements (alter_element n f w)).
Proof. rewrite dom_alter. by apply elem_of_union_l, elem_of_singleton. Qed.

Lemma dom_create_in w m :
  m ∈ dom (elements w) →
  m ∈ dom (elements
             (with_elements (<[fresh (dom (elements w)) := blank_element]>) w)).
Proof. intros Hm. simpl. rewrite dom_insert_L. by apply elem_of_union_r. Qed.

Lemma dom_create_new w :
  fresh (dom (elements w))
  ∈ dom (elements
           (with_elements (<[fresh (dom (elements w)) := blank_element]>) w)).
Proof.
  simpl. rewrite dom_insert_L. by apply elem_of_union_l, elem_of_singleton.
Qed.

Lemma appendChild_orphan w a b :
  parentNode (element w b) = None →
  appendChild a b w
  = Ok tt (alter_element b (set_parentNode (Some a))
             (alter_element a
                (λ e, set_childNodes (childNodes e ++ [b]) e) w)).
Proof.
  intros Hb. unfold appendChild, bind, gets, update_element, modify, ret.
  cbv beta iota. by rewrite Hb.
Qed.

Lemma alter_same w n f :
  n ∈ dom (elements w) → f (element w n) = element w n →
  alter_element n f w = w.
Proof.
  intros Hn Hf. unfold alter_element. rewrite Hf.
  apply elem_of_dom in Hn as [e He].
  unfold element, lookup_element, with_elements. rewrite He. simpl.
  rewrite insert_id by done. by destruct w.
Qed.

(** *** Renderings *)

Lemma renders_MElement new (els : gmap node (Element (num := num)))
    parent k class content :
  renders new els parent k (MElement class content) ↔
  k ∈ new ∧
  set_childNodes [] (lookup_element els k)
  = set_parentNode (Some parent) (set_className class blank_element) ∧
  renders_all new els k (childNodes (lookup_element els k)) content.
Proof.
  simpl. unfold renders_all.
  generalize (childNodes (lookup_element els k)). intros ks.
  apply and_iff_compat_l, and_iff_compat_l.
  revert ks. induction content as [|m ms IH]; intros [|k' ks].
  - split; [constructor|done].
  - split; [done|inversion 1].
  - split; [done|inversion 1].
  - rewrite IH. split; [intros [? ?]; by constructor|].
    inversion 1; by subst.
Qed.

Lemma renders_weaken m :
  ∀ new new' (els els' : gmap node (Element (num := num))) parent k,
    new ⊆ new' →
    (∀ x, x ∈ new → lookup_element els' x = lookup_element els x) →
    renders new els parent k m → renders new' els' parent k m.
Proof.
  induction m as [|class content IH] using Markup_ind;
    intros new new' els els' parent k Hsub Hsame.
  - simpl. intros [Hk He]. split; [by apply Hsub|]. by rewrite Hsame.
  - rewrite !renders_MElement. intros (Hk & He & Hall).
    split; [by apply Hsub|]. rewrite Hsame by done. split; [done|].
    unfold renders_all in *. revert Hall.
    generalize (childNodes (lookup_element els k)).
    induction IH as [|m ms Hm _ IHms]; intros ks Hall;
      inversion Hall; subst; constructor; [by eapply Hm | by apply IHms].
Qed.

Lemma renders_all_weaken new new' (els els' : gmap node (Element (num := num)))
    parent ks ms :
  new ⊆ new' →
  (∀ x, x ∈ new → lookup_element els' x = lookup_element els x) →
  renders_all new els parent ks ms → renders_all new' els' parent ks ms.
Proof.
  intros Hsub Hsame Hall. unfold renders_all in *.
  eapply Forall2_impl; [exact Hall|]. intros k m. by apply renders_weaken.
Qed.

(** *** The parser *)

Lemma grown_refl w n : n ∈ dom (elements w) → grown w n [] w.
Proof.
  intros Hn. split; [by destruct w|]. split; [done|]. split; [done|].
  rewrite app_nil_r. by destruct (element w n).
Qed.

Lemma parse_all_facts (ms : list Markup) :
  Forall (λ m, ∀ w parent, parent ∈ dom (elements w) →
            ∃ w' k, parse_into parent m w = Ok tt w' ∧ grown w parent [k] w' ∧
                    renders (dom (elements w') ∖ dom (elements w))
                            (elements w') parent k m) ms →
  ∀ w parent, parent ∈ dom (elements w) →
    ∃ w' ks, forEach ms (parse_into parent) w = Ok tt w' ∧
             grown w parent ks w' ∧
             renders_all (dom (elements w') ∖ dom (elements w))
                         (elements w') parent ks ms.
Proof.
  induction 1 as [|m ms Hm _ IH]; intros w parent Hp.
  - exists w, []. split; [done|]. split; [by apply grown_refl|]. constructor.
  - destruct (Hm w parent Hp) as (w1 & k & Hrun1 & Hg1 & Hr1).
    destruct Hg1 as (Hs1 & Hd1 & Ho1 & Hp1).
    destruct (IH w1 parent) as (w2 & ks & Hrun2 & Hg2 & Hr2); [by apply Hd1|].
    destruct Hg2 as (Hs2 & Hd2 & Ho2 & Hp2).
    exists w2, (k :: ks). split.
    { simpl. by rewrite (bind_run _ _ w tt w1 Hrun1). }
    split.
    { split; [rewrite Hs2 at 1; rewrite Hs1; by destruct w|].
      split; [by transitivity (dom (elements w1))|]. split.
      - intros x Hx Hne. rewrite Ho2; [by apply Ho1|by apply Hd1|done].
      - rewrite Hp2, Hp1. simpl. rewrite <- app_assoc.
        by destruct (element w parent). }
    constructor.
    + eapply renders_weaken; [| |exact Hr1]; [by apply difference_mono_r|].
      intros x Hx. apply elem_of_difference in Hx as [Hx1 Hx0].
      apply Ho2; [done|]. by intros ->.
    + eapply renders_all_weaken; [| |exact Hr2];
        [by apply difference_mono_l|done].
Qed.

Lemma parse_into_facts m :
  ∀ w parent, parent ∈ dom (elements w) →
    ∃ w' k, parse_into parent m w = Ok tt w' ∧ grown w parent [k] w' ∧
            renders (dom (elements w') ∖ dom (elements w))
                    (elements w') parent k m.
Proof.
  induction m as [|class content IH] using Markup_ind; intros w parent Hp.
  - pose proof (is_fresh (dom (elements w))) as Hfresh.
    pose proof (fresh_ne w parent Hp) as Hne.
    simpl. unfold createTextNode, createElement, bind at 1.
    set (t := fresh (dom (elements w))) in *.
    set (w1 := with_elements (<[t := blank_element]>) w).
    assert (element w1 t = blank_element) as Ht1 by apply element_create_eq.
    assert (∀ x, x ≠ t → element w1 x = element w x) as Ho1
      by (intros x Hx; by apply element_create_ne).
    rewrite appendChild_orphan by by rewrite Ht1.
    eexists _, t. split; [reflexivity|].
    split; [split; [by destruct w|split; [|split]]|].
    + intros x Hx. by apply dom_alter_in, dom_alter_in, dom_create_in.
    + intros x Hx Hxp.
      rewrite !element_alter, !decide_False; [by apply Ho1, fresh_ne|done|].
      by apply fresh_ne.
    + rewrite element_alter, decide_False by done.
      rewrite element_alter, decide_True by done. by rewrite Ho1.
    + cbn [renders]. split.
      * apply elem_of_difference. split; [|done]. apply dom_alter_new.
      * change (lookup_element (elements ?w0) ?n0) with (element w0 n0).
        rewrite element_alter, decide_True by done.
        rewrite element_alter, decide_False by done. by rewrite Ht1.
  - pose proof (is_fresh (dom (elements w))) as Hfresh.
    pose proof (fresh_ne w parent Hp) as Hne.
    rewrite parse_into_MElement.
    unfold createElement, update_element, modify, bind at 1 2.
    set (e := fresh (dom (elements w))) in *.
    set (w1 := with_elements (<[e := blank_element]>) w).
    assert (element w1 e = blank_element) as He1 by apply element_create_eq.
    assert (∀ x, x ≠ e → element w1 x = element w x) as Ho1
      by (intros x Hx; by apply element_create_ne).
    set (w2 := alter_element e (set_className class) w1).
    assert (parentNode (element w2 e) = None) as Hpar.
    { unfold w2. rewrite element_alter, decide_True by done. by rewrite He1. }
    unfold bind at 1. rewrite appendChild_orphan by done.
    set (w3 := alter_element e _ (alter_element parent _ w2)).
    assert (element w3 e
            = set_parentNode (Some parent) (set_className class blank_element))
      as He3.
    { unfold w3. rewrite element_alter, decide_True by done.
      rewrite element_alter, decide_False by done.
      unfold w2. rewrite element_alter, decide_True by done. by rewrite He1. }
    assert (element w3 parent
            = set_childNodes (childNodes (element w parent) ++ [e])
                (element w parent)) as Hp3.
    { unfold w3. rewrite element_alter, decide_False by done.
      rewrite element_alter, decide_True by done.
      unfold w2. rewrite element_alter, decide_False by done.
      by rewrite Ho1. }
    assert (∀ x, x ≠ e → x ≠ parent → element w3 x = element w x) as Ho3.
    { intros x Hxe Hxp. unfold w3, w2.
      rewrite !element_alter, !decide_False by done. by apply Ho1. }
    assert (dom (elements w) ⊆ dom (elements w3)) as Hd3.
    { intros x Hx. by apply dom_alter_in, dom_alter_in, dom_alter_in,
        dom_create_in. }
    assert (e ∈ dom (elements w3)) as Hed3 by apply dom_alter_new.
    assert (w3 = with_elements (λ _, elements w3) w) as Hs3 by by destruct w.
    clearbody w3. clear w2 Hpar w1 He1 Ho1.
    destruct (parse_all_facts content IH w3 e Hed3)
      as (w4 & ks & Hrun & (Hs4 & Hd4 & Ho4 & He4) & Hr4).
    exists w4, e. split; [done|].
    split; [split; [|split; [|split]]|].
    + rewrite Hs4 at 1. rewrite Hs3. by destruct w.
    + by transitivity (dom (elements w3)).
    + intros x Hx Hxp. rewrite Ho4; [apply Ho3; [by apply fresh_ne|done]| |].
      * by apply Hd3.
      * by apply fresh_ne.
    + rewrite Ho4; [done|by apply Hd3|done].
    + apply renders_MElement.
      change (lookup_element (elements w4) e) with (element w4 e).
      rewrite He4, He3. simpl.
      split; [|split; [done|]].
      * apply elem_of_difference. split; [by apply Hd4|done].
      * eapply renders_all_weaken; [| |exact Hr4]; [|done].
        by apply difference_mono_l.
Qed.

Lemma removeChildren_none w n :
  n ∈ dom (elements w) → childNodes (element w n) = [] →
  removeChildren n w = Ok tt w.
Proof.
  intros Hn Hc. unfold removeChildren, gets, bind at 1. rewrite Hc. simpl.
  unfold bind, ret, update_element, modify. f_equal.
  apply alter_same; [done|]. rewrite <- Hc. by destruct (element w n).
Qed.

Lemma set_innerHTML_facts w n ms :
  childNodes (element w n) = [] → n ∈ dom (elements w) →
  ∃ w' ks, set_innerHTML n ms w = Ok tt w' ∧ grown w n ks w' ∧
           renders_all (dom (elements w') ∖ dom (elements w))
                       (elements w') n ks ms.
Proof.
  intros Hc Hn. unfold set_innerHTML.
  rewrite (bind_run _ _ w tt w (removeChildren_none w n Hn Hc)).
  apply parse_all_facts; [|done].
  apply Forall_forall. intros m _. apply parse_into_facts.
Qed.

Lemma set_textContent_facts w n text :
  childNodes (element w n) = [] → n ∈ dom (elements w) →
  ∃ w' ks, set_textContent n text w = Ok tt w' ∧ grown w n ks w' ∧
           renders_all (dom (elements w') ∖ dom (elements w))
                       (elements w') n ks (text_markup text).
Proof.
  intros Hc Hn. unfold set_textContent, text_markup.
  rewrite (bind_run _ _ w tt w (removeChildren_none w n Hn Hc)).
  case_decide.
  - exists w, []. split; [done|]. split; [by apply grown_refl|]. constructor.
  - destruct (parse_into_facts MText w n Hn) as (w' & k & Hrun & Hg & Hr).
    exists w', [k]. split; [done|]. split; [done|].
    constructor; [done|constructor].
Qed.

(** *** Facts carried over one operation *)

Lemma known_alter_same w n e f :
  element w n = e → element (alter_element n f w) n = f e.
Proof. intros <-. by rewrite element_alter, decide_True. Qed.

Lemma known_alter_other w m e n f :
  element w m = e → m ≠ n → element (alter_element n f w) m = e.
Proof. intros <- Hne. by rewrite element_alter, decide_False. Qed.

Lemma known_create_other w m e :
  element w m = e → m ∈ dom (elements w) →
  element (with_elements (<[fresh (dom (elements w)) := blank_element]>) w) m
  = e.
Proof. intros <- Hm. apply element_create_ne. by apply fresh_ne. Qed.

Lemma known_grown_same w n e ks w' :
  element w n = e → childNodes e = [] → grown w n ks w' →
  element w' n = set_childNodes ks e.
Proof. intros <- Hc (_ & _ & _ & ->). by rewrite Hc. Qed.

Lemma known_grown_other w m e n ks w' :
  element w m = e → m ∈ dom (elements w) → m ≠ n → grown w n ks w' →
  element w' m = e.
Proof. intros <- Hm Hne (_ & _ & Ho & _). by apply Ho. Qed.

Lemma dom_grown_in w n ks w' m :
  grown w n ks w' → m ∈ dom (elements w) → m ∈ dom (elements w').
Proof. intros (_ & Hd & _) Hm. by apply Hd. Qed.

Lemma grown_this w n ks w' : grown w n ks w' → this w' = this w.
Proof. intros (-> & _). done. Qed.

Lemma grown_nextFn w n ks w' : grown w n ks w' → nextFn w' = nextFn w.
Proof. intros (-> & _). done. Qed.

Lemma sub_alter (X : gset node) w n f :
  X ⊆ dom (elements w) → X ⊆ dom (elements (alter_element n f w)).
Proof. intros Hs. rewrite dom_alter. by apply union_subseteq_r'. Qed.

Lemma sub_create (X : gset node) w :
  X ⊆ dom (elements w) →
  X ⊆ dom (elements
             (with_elements (<[fresh (dom (elements w)) := blank_element]>) w)).
Proof. intros Hs. simpl. rewrite dom_insert_L. by apply union_subseteq_r'. Qed.

Lemma sub_grown (X : gset node) w n ks w' :
  grown w n ks w' → X ⊆ dom (elements w) → X ⊆ dom (elements w').
Proof. intros (_ & Hd & _) Hs. by transitivity (dom (elements w)). Qed.

Lemma fresh_new (X : gset node) w :
  X ⊆ dom (elements w) → fresh (dom (elements w)) ∉ X.
Proof. intros Hs Hin. by apply (is_fresh (dom (elements w))), Hs. Qed.

Lemma old_not_new w w' m :
  m ∈ dom (elements w) → m ∉ dom (elements w') ∖ dom (elements w).
Proof. intros Hm. apply not_elem_of_difference. by right. Qed.

Lemma new_not_old (X : gset node) w w' :
  X ⊆ dom (elements w) →
  ∀ x, x ∈ dom (elements w') ∖ dom (elements w) → x ∉ X.
Proof.
  intros Hs x Hx HX. apply elem_of_difference in Hx as [_ Hx]. by apply Hx, Hs.
Qed.

Lemma extends_refl w : extends w w.
Proof. split; [by destruct w|]. by repeat split. Qed.

Lemma extends_fields w0 w w' :
  w = with_nextFn (λ _, nextFn w) (with_elements (λ _, elements w) w0) →
  w' = with_nextFn (λ _, nextFn w') (with_elements (λ _, elements w') w) →
  w' = with_nextFn (λ _, nextFn w') (with_elements (λ _, elements w') w0).
Proof. intros Hw Hw'. rewrite Hw' at 1. rewrite Hw. by destruct w0. Qed.

Lemma extends_alter w0 w n f :
  n ∉ dom (elements w0) → extends w0 w → extends w0 (alter_element n f w).
Proof.
  intros Hn (Hw & Hk & Hd & Hold).
  split; [|split; [done|split]].
  - apply (extends_fields w0 w); [done | by destruct w].
  - by apply sub_alter.
  - intros m Hm. rewrite element_alter, decide_False; [by apply Hold|].
    by intros ->.
Qed.

Lemma extends_create w0 w :
  extends w0 w →
  extends w0 (with_elements (<[fresh (dom (elements w)) := blank_element]>) w).
Proof.
  intros (Hw & Hk & Hd & Hold).
  split; [|split; [done|split]].
  - apply (extends_fields w0 w); [done | by destruct w].
  - by apply sub_create.
  - intros m Hm. rewrite element_create_ne; [by apply Hold|].
    intros ->. by apply (fresh_new (dom (elements w0)) w).
Qed.

Lemma extends_closure w0 w : extends w0 w → extends w0 (with_nextFn S w).
Proof.
  intros (Hw & Hk & Hd & Hold).
  split; [|split; [simpl; lia|done]].
  apply (extends_fields w0 w); [done | by destruct w].
Qed.

Lemma extends_grown w0 w n ks w' :
  n ∉ dom (elements w0) → grown w n ks w' → extends w0 w → extends w0 w'.
Proof.
  intros Hn (Hs & Hd' & Ho & _) (Hw & Hk & Hd & Hold).
  split; [|split; [|split]].
  - apply (extends_fields w0 w); [done|].
    assert (nextFn w' = nextFn w) as -> by by rewrite Hs.
    rewrite Hs at 1. by destruct w.
  - rewrite Hs. exact Hk.
  - by transitivity (dom (elements w)).
  - intros m Hm. rewrite Ho; [by apply Hold|by apply Hd|]. by intros ->.
Qed.

Lemma renders_alter (D : gset node) w n f p ks ms :
  n ∉ D → renders_all D (elements w) p ks ms →
  renders_all D (elements (alter_element n f w)) p ks ms.
Proof.
  intros Hn. apply renders_all_weaken; [done|]. intros x Hx.
  change (lookup_element (elements ?w0) ?n0) with (element w0 n0).
  rewrite element_alter, decide_False; [done|]. by intros ->.
Qed.

Lemma renders_create (D : gset node) w p ks ms :
  fresh (dom (elements w)) ∉ D → renders_all D (elements w) p ks ms →
  renders_all D
    (elements (with_elements (<[fresh (dom (elements w)) := blank_element]>) w))
    p ks ms.
Proof.
  intros Hn. apply renders_all_weaken; [done|]. intros x Hx.
  change (lookup_element (elements ?w0) ?n0) with (element w0 n0).
  apply element_create_ne. by intros ->.
Qed.

Lemma renders_grown (D : gset node) w n ks' w' p ks ms :
  D ⊆ dom (elements w) → n ∉ D → grown w n ks' w' →
  renders_all D (elements w) p ks ms → renders_all D (elements w') p ks ms.
Proof.
  intros Hs Hn (_ & _ & Ho & _). apply renders_all_weaken; [done|].
  intros x Hx.
  change (lookup_element (elements ?w0) ?n0) with (element w0 n0).
  apply Ho; [by apply Hs|]. by intros ->.
Qed.

(* The facts known about the world [W] of the goal, brought over one
   operation. *)
Ltac ne_hyp := first [assumption | apply not_eq_sym; assumption].

Ltac over_alter W n f :=
  repeat match goal with
  | H : element W n = ?e |- _ => apply (known_alter_same W n e f) in H
  | H : element W ?m = ?e |- _ =>
      apply (known_alter_other W m e n f) in H; [|ne_hyp]
  | H : ?m ∈ dom (elements W) |- _ => apply (dom_alter_in W n f m) in H
  | H : ?X ⊆ dom (elements W) |- _ => apply (sub_alter X W n f) in H
  | H : extends ?w0 W |- _ =>
      apply (extends_alter w0 W n f) in H; [|assumption]
  | H : renders_all ?D (elements W) ?p ?ks ?ms |- _ =>
      apply (renders_alter D W n f p ks ms) in H; [|assumption]
  | H : this W = ?c |- _ => change (this (alter_element n f W) = c) in H
  | H : nextFn W = ?k |- _ => change (nextFn (alter_element n f W) = k) in H
  end.

Ltac forget_world T :=
  let W' := fresh "W" in set (W' := T) in *; clearbody W'.

Ltac track_alter :=
  run;
  lazymatch goal with
  | |- ∃ b w', _ (alter_element ?n ?f ?W) = _ ∧ _ =>
      over_alter W n f; forget_world (alter_element n f W)
  end.

Ltac track_closure :=
  run;
  lazymatch goal with
  | |- ∃ b w', _ (with_nextFn S ?W) = _ ∧ _ =>
      repeat match goal with
      | H : element W ?m = ?e |- _ =>
          change (element (with_nextFn S W) m = e) in H
      | H : ?m ∈ dom (elements W) |- _ =>
          change (m ∈ dom (elements (with_nextFn S W))) in H
      | H : ?X ⊆ dom (elements W) |- _ =>
          change (X ⊆ dom (elements (with_nextFn S W))) in H
      | H : extends ?w0 W |- _ => apply (extends_closure w0 W) in H
      | H : renders_all ?D (elements W) ?p ?ks ?ms |- _ =>
          change (renders_all D (elements (with_nextFn S W)) p ks ms) in H
      | H : this W = ?c |- _ => change (this (with_nextFn S W) = c) in H
      | H : nextFn W = ?k |- _ =>
          rewrite H; apply (f_equal S) in H;
          change (nextFn (with_nextFn S W) = S k) in H
      end;
      forget_world (with_nextFn S W)
  end.

Ltac track_create n :=
  run;
  lazymatch goal with
  | |- ∃ b w', _ (with_elements _ ?W) = _ ∧ _ =>
      repeat match goal with
      | H : ?m ∈ dom (elements W) |- _ =>
          lazymatch goal with
          | _ : m ≠ fresh (dom (elements W)) |- _ => fail
          | _ => pose proof (fresh_ne W m H)
          end
      end;
      repeat match goal with
      | H : element W ?m = ?e, H' : ?m ∈ dom (elements W) |- _ =>
          apply (known_create_other W m e) in H; [|exact H']
      end;
      repeat match goal with
      | H : ?X ⊆ dom (elements W) |- _ =>
          pose proof (fresh_new X W H); apply (sub_create X W) in H
      end;
      repeat match goal with
      | H : ?m ∈ dom (elements W) |- _ => apply (dom_create_in W m) in H
      | H : extends ?w0 W |- _ => apply (extends_create w0 W) in H
      | H : renders_all ?D (elements W) ?p ?ks ?ms |- _ =>
          apply (renders_create D W p ks ms) in H; [|assumption]
      | H : this W = ?c |- _ =>
          change (this (with_elements
                          (<[fresh (dom (elements W)) := blank_element]>) W)
                  = c) in H
      | H : nextFn W = ?k |- _ =>
          change (nextFn (with_elements
                            (<[fresh (dom (elements W)) := blank_element]>) W)
                  = k) in H
      end;
      pose proof (element_create_eq W);
      pose proof (dom_create_new W);
      set (n := fresh (dom (elements W))) in *; clearbody n;
      forget_world (with_elements (<[n := blank_element]>) W)
  end.

Ltac track_append :=
  lazymatch goal with
  | Hb : element ?W ?b = ?E
    |- ∃ r w', (let* _ := appendChild ?a ?b in _) ?W = _ ∧ _ =>
      eapply bind_exists;
      [apply appendChild_orphan; rewrite Hb; reflexivity|]; cbv beta;
      lazymatch goal with
      | |- ∃ r w', _ (alter_element b ?g (alter_element a ?f W)) = _ ∧ _ =>
          over_alter W a f; forget_world (alter_element a f W)
      end;
      lazymatch goal with
      | |- ∃ r w', _ (alter_element b ?g ?W1) = _ ∧ _ =>
          over_alter W1 b g; forget_world (alter_element b g W1)
      end
  end.

(* [n.innerHTML = markup] and [n.textContent = text] on an element [n]
   known to have no child: [ks] names the new children and [D] the set of
   the new nodes. *)
Ltac over_grown W n ks W' Hg :=
  repeat match goal with
  | H : element W n = ?e |- _ =>
      apply (known_grown_same W n e ks W') in H; [|reflexivity|exact Hg]
  | H : element W ?m = ?e, H' : ?m ∈ dom (elements W) |- _ =>
      apply (known_grown_other W m e n ks W') in H;
      [|exact H'|ne_hyp|exact Hg]
  | H : extends ?w0 W |- _ =>
      apply (extends_grown w0 W n ks W') in H; [|assumption|exact Hg]
  | H : renders_all ?D (elements W) ?p ?ks0 ?ms, H' : ?D ⊆ dom (elements W)
    |- _ =>
      apply (renders_grown D W n ks W' p ks0 ms) in H;
      [|exact H'|assumption|exact Hg]
  | H : this W = ?c |- _ => rewrite <- (grown_this W n ks W' Hg) in H
  | H : nextFn W = ?k |- _ => rewrite <- (grown_nextFn W n ks W' Hg) in H
  end;
  repeat match goal with
  | H : ?m ∈ dom (elements W) |- _ =>
      pose proof (old_not_new W W' m H); apply (dom_grown_in W n ks W' m Hg) in H
  | H : ?X ⊆ dom (elements W) |- _ =>
      pose proof (new_not_old X W W' H); apply (sub_grown X W n ks W' Hg) in H
  end.

Ltac track_markup ks D :=
  lazymatch goal with
  | |- ∃ r w', (let* _ := ?op ?n ?arg in _) ?W = _ ∧ _ =>
      let W' := fresh "W" in
      let Hrun := fresh "Hrun" in
      let Hg := fresh "Hg" in
      let Hr := fresh "Hr" in
      let HD := fresh "HD" in
      lazymatch goal with
      | Hn : element W n = ?E, Hd : n ∈ dom (elements W) |- _ =>
          first
            [ destruct (set_innerHTML_facts W n arg (f_equal childNodes Hn) Hd)
                as (W' & ks & Hrun & Hg & Hr)
            | destruct (set_textContent_facts W n arg
                          (f_equal childNodes Hn) Hd)
                as (W' & ks & Hrun & Hg & Hr) ]
      end;
      eapply bind_exists; [exact Hrun|]; cbv beta; clear Hrun;
      over_grown W n ks W' Hg;
      assert (dom (elements W') ∖ dom (elements W) ⊆ dom (elements W'))
        as HD by (by apply subseteq_difference_l);
      clear Hg;
      set (D := dom (elements W') ∖ dom (elements W)) in *; clearbody D
  end.

Lemma createContainer_structure w :
  ∃ c w', _createContainer w = Ok c w' ∧ ∃ b,
    (c ∉ dom (elements w)) ∧ (b ∉ dom (elements w)) ∧ c ≠ b ∧
    c ∈ dom (elements w') ∧ b ∈ dom (elements w') ∧
    extends w w' ∧ nextFn w' = S (nextFn w) ∧
    element w' c
    = {| classList := container_classes (opt_className (_options (this w)));
         parentNode := None; childNodes := [b]; style := blank_style;
         clickListeners := [] |} ∧
    set_childNodes [] (element w' b)
    = {| classList := ["plugin-control-toggle"]; parentNode := Some c;
         childNodes := []; style := blank_style;
         clickListeners := [(nextFn w, ToggleClick)] |} ∧
    renders_all (dom (elements w') ∖ dom (elements w)) (elements w') b
      (childNodes (element w' b)) toggle_icon.
Proof.
  unfold _createContainer.
  assert (this w = this w) as Hthis by done.
  assert (nextFn w = nextFn w) as Hnf by done.
  assert (dom (elements w) ⊆ dom (elements w)) as Hsub by done.
  pose proof (extends_refl w) as Hext.
  revert Hthis Hnf Hsub Hext. generalize w at 1 3 6 8 9 as W.
  intros W Hthis Hnf Hsub Hext.
  track_create container. run. rewrite Hthis. track_alter.
  track_create toggleBtn. track_alter.
  track_markup ks D.
  track_closure. unfold addClickListener. track_alter.
  track_append.
  eexists _, _. split; [reflexivity|]. exists toggleBtn.
  do 7 (split; [assumption|]).
  repeat match goal with
  | Hn : element ?W0 ?n = _ |- context [element ?W0 ?n] => rewrite Hn; clear Hn
  end.
  split; [unfold set_className; by rewrite container_className|].
  split; [reflexivity|]. simpl.
  eapply renders_all_weaken; [| |eassumption]; [|done].
  intros x Hx. apply elem_of_difference. split; [by apply HD|auto].
Qed.

Lemma createPanel_structure w :
  ∃ panel w', _createPanel w = Ok panel w' ∧
    ∃ header title closeBtn content,
      NoDup [panel; header; title; closeBtn; content] ∧
      Forall (λ n, n ∉ dom (elements w))
             [panel; header; title; closeBtn; content] ∧
      panel ∈ dom (elements w') ∧
      extends w w' ∧ nextFn w' = S (nextFn w) ∧
      element w' panel
      = {| classList := ["plugin-control-panel"]; parentNode := None;
           childNodes := [header; content];
           style := set_width
                      (css_width (opt_panelWidth (_options (this w))))
                      blank_style;
           clickListeners := [] |} ∧
      element w' header
      = {| classList := ["plugin-control-header"];
           parentNode := Some panel; childNodes := [title; closeBtn];
           style := blank_style; clickListeners := [] |} ∧
      (set_childNodes [] (element w' title)
       = {| classList := ["plugin-control-title"];
            parentNode := Some header; childNodes := [];
            style := blank_style; clickListeners := [] |} ∧
       renders_all (dom (elements w') ∖ dom (elements w)) (elements w') title
         (childNodes (element w' title))
         (text_markup (opt_title (_options (this w))))) ∧
      (set_childNodes [] (element w' closeBtn)
       = {| classList := ["plugin-control-close"];
            parentNode := Some header; childNodes := [];
            style := blank_style;
            clickListeners := [(nextFn w, CloseClick)] |} ∧
       renders_all (dom (elements w') ∖ dom (elements w)) (elements w')
         closeBtn (childNodes (element w' closeBtn)) close_label) ∧
      (set_childNodes [] (element w' content)
       = {| classList := ["plugin-control-content"];
            parentNode := Some panel; childNodes := [];
            style := blank_style; clickListeners := [] |} ∧
       renders_all (dom (elements w') ∖ dom (elements w)) (elements w')
         content (childNodes (element w' content)) content_placeholder).
Proof.
  unfold _createPanel.
  assert (this w = this w) as Hthis by done.
  assert (nextFn w = nextFn w) as Hnf by done.
  assert (dom (elements w) ⊆ dom (elements w)) as Hsub by done.
  pose proof (extends_refl w) as Hext.
  revert Hthis Hnf Hsub Hext. generalize w at 1 3 6 8 9 as W.
  intros W Hthis Hnf Hsub Hext.
  track_create panel. track_alter.
  run. rewrite Hthis. unfold update_style. track_alter.
  track_create header. track_alter.
  track_create title. track_alter.
  run. rewrite Hthis. track_markup kt Dt.
  track_create closeBtn. track_alter.
  track_markup kc Dc.
  track_closure. unfold addClickListener. track_alter.
  track_append. track_append.
  track_create content. track_alter.
  track_markup ko Do.
  track_append. track_append.
  eexists _, _. split; [reflexivity|].
  exists header, title, closeBtn, content.
  split.
  { repeat (apply NoDup_cons; split;
            [rewrite ?elem_of_cons, elem_of_nil; intros Hin;
             repeat destruct Hin as [Hin|Hin]; try done;
             first [by subst | idtac]|]).
    apply NoDup_nil_2. }
  split; [by repeat apply Forall_cons_2|].
  do 3 (split; [assumption|]).
  change (style (set_className "plugin-control-panel" blank_element))
    with (blank_style (num := num)) in *.
  rewrite set_width_px_blank in *.
  repeat match goal with
  | Hn : element ?W0 ?n = _ |- context [element ?W0 ?n] => rewrite Hn; clear Hn
  end.
  split; [reflexivity|]. split; [reflexivity|].
  repeat split; try reflexivity; simpl;
    (eapply renders_all_weaken; [| |eassumption]; [|done];
     intros x Hx; apply elem_of_difference; split;
     [match goal with HDx : ?D ⊆ dom (elements _) |- _ => by apply HDx end
     |auto]).
Qed.

Lemma setupEventListeners_run w map :
  _map (this w) = Some map →
  _setupEventListeners w
  = Ok tt
      (with_mapResize
         (λ l, l ++ [(map_id map, (S (S (nextFn w)), MapResize))])
         (with_this
            (set_mapResizeHandler (Some (S (S (nextFn w)), MapResize)))
            (with_nextFn S
               (with_windowResize (set_add (S (nextFn w), WindowResize))
                  (with_this
                     (set_resizeHandler (Some (S (nextFn w), WindowResize)))
                     (with_nextFn S
                        (with_documentClick
                           (set_add (nextFn w, ClickOutside))
                           (with_this
                              (set_clickOutsideHandler
                                 (Some (nextFn w, ClickOutside)))
                              (with_nextFn S w))))))))).
Proof.
  intros Hm.
  unfold _setupEventListeners, bind, closure, assign, modify, field, gets, ret.
  simpl. by rewrite Hm.
Qed.


Lemma onAdd_shape w st map :
  live w = Some st → map_container map ∈ dom (elements w) →
  ∃ r w', onAdd map w = Ok r w' ∧ ∃ c b p fc fw fm,
    r = Some c ∧
    (c ∉ dom (elements w)) ∧ (b ∉ dom (elements w)) ∧
    (p ∉ dom (elements w)) ∧ c ≠ b ∧ p ≠ c ∧ p ≠ b ∧
    this w'
    = {| _map := Some map; _mapContainer := Some (map_container map);
         _container := Some c; _panel := Some p;
         _options := _options (this w); _state := _state (this w);
         _eventHandlers := _eventHandlers (this w);
         _resizeHandler := Some fw; _mapResizeHandler := Some fm;
         _clickOutsideHandler := Some fc |} ∧
    objects w' = objects w ∧ records w' = records w ∧
    trace w' = trace w ∧ layout w' = layout w ∧
    documentClick w' = set_add fc (documentClick w) ∧
    windowResize w' = set_add fw (windowResize w) ∧
    mapResize w' = mapResize w ++ [(map_id map, fm)] ∧
    (∃ ff, frames w'
           = frames w ++ (if collapsed st then [] else [ff]) ∧
           snd ff = FrameReposition) ∧
    (snd fc = ClickOutside ∧ snd fw = WindowResize ∧ snd fm = MapResize) ∧
    (nextFn w ≤ fst fc ∧ nextFn w ≤ fst fw ∧ nextFn w ≤ fst fm)%nat ∧
    dom (elements w) ⊆ dom (elements w') ∧
    element w' c
    = {| classList := container_classes (opt_className (_options (this w)));
         parentNode := None; childNodes := [b]; style := blank_style;
         clickListeners := [] |} ∧
    set_childNodes [] (element w' b)
    = {| classList := ["plugin-control-toggle"]; parentNode := Some c;
         childNodes := []; style := blank_style;
         clickListeners := [(nextFn w, ToggleClick)] |} ∧
    renders_all (dom (elements w') ∖ dom (elements w)) (elements w') b
      (childNodes (element w' b)) toggle_icon ∧
    classList (element w' p)
    = "plugin-control-panel" :: (if collapsed st then [] else ["expanded"]) ∧
    parentNode (element w' p) = Some (map_container map) ∧
    style (element w' p)
    = set_width (css_width (opt_panelWidth (_options (this w)))) blank_style ∧
    element w' (map_container map)
    = set_childNodes (childNodes (element w (map_container map)) ++ [p])
        (element w (map_container map)) ∧
    (∀ n, n ∈ dom (elements w) → n ≠ map_container map →
          element w' n = element w n).
Proof.
  intros Hl Hmc. unfold onAdd. run. run.
  match goal with |- ∃ b w', _ ?x = _ ∧ _ => set (wa := x) end.
  destruct (createContainer_structure wa)
    as (c & wb & Hrun & b & Hc & Hb & Hcb & Hcd & Hbd
        & (Hwb & _ & Hdb & Holdb) & Hnfb & Hec & Heb & Hrb).
  eapply bind_exists; [exact Hrun|]; cbv beta; clear Hrun.
  rewrite Hnfb in Hwb. unfold element in Hec, Heb, Hrb, Holdb.
  remember (elements wb) as eb eqn:Heqb. subst wb. clear Heqb Hnfb.
  run.
  match goal with |- ∃ b w', _ ?x = _ ∧ _ => set (wc := x) end.
  destruct (createPanel_structure wc)
    as (p & wd & Hrun & header & title & closeBtn & content & _ & Hnew & Hpd
        & (Hwd & Hkd & Hdd & Holdd) & Hnfd & Hep & _).
  eapply bind_exists; [exact Hrun|]; cbv beta; clear Hrun.
  apply Forall_cons_1 in Hnew as [Hpc _].
  rewrite Hnfd in Hwd. unfold element in Hep, Holdd.
  remember (elements wd) as ed eqn:Heqd. subst wd. clear Heqd Hnfd.
  change (elements wc) with eb in *.
  change (elements wa) with (elements w) in *.
  change (nextFn wa) with (nextFn w) in *.
  change (this wc)
    with (set_container (Some c)
            (set_mapContainer (Some (map_container map))
               (set_map (Some map) (this w)))) in *.
  change (this wa)
    with (set_mapContainer (Some (map_container map))
            (set_map (Some map) (this w))) in *.
  change (nextFn wc) with (S (nextFn w)) in *.
  simpl in Hec, Hep.
  set (mc := map_container map) in *.
  assert (c ≠ mc) as Hcmc by by intros ->.
  assert (b ≠ mc) as Hbmc by by intros ->.
  assert (mc ∈ dom eb) as Hmcd by by apply Hdb.
  assert (p ∉ dom (elements w)) as Hp0 by (intros Hin; by apply Hpc, Hdb).
  assert (p ≠ c) as Hpc' by by intros ->.
  assert (p ≠ b) as Hpb by by intros ->.
  assert (p ≠ mc) as Hpmc by by intros ->.
  assert (parentNode (lookup_element ed p) = None) as Hpar
    by by rewrite Hep.
  assert (classList (lookup_element ed p) = ["plugin-control-panel"]) as Hcls
    by by rewrite Hep.
  assert (style (lookup_element ed p)
          = set_width (css_width (opt_panelWidth (_options (this w))))
              blank_style) as Hsty by by rewrite Hep.
  run. run. simpl. run. run. simpl. run.
  match goal with |- ∃ b w', _ ?x = _ ∧ _ => set (we := x) end.
  assert (element we = lookup_element ed) as Hee by done.
  eapply bind_exists.
  { unfold appendChild, bind, gets, update_element, modify, ret.
    rewrite Hee, Hpar. reflexivity. }
  cbv beta.
  match goal with |- ∃ b w', _ ?x = _ ∧ _ => set (wf' := x) end.
  assert (_map (this wf') = Some map) as Hmap by done.
  eapply bind_exists; [exact (setupEventListeners_run wf' map Hmap)|].
  cbv beta.
  match goal with |- ∃ b w', _ ?x = _ ∧ _ => set (wg := x) end.
  assert (live wg = Some st) as Hlg by exact Hl.
  eapply bind_exists; [exact (read_state_ok wg st Hlg)|]. cbv beta.
  assert (element wf' c = lookup_element eb c) as Hfc.
  { unfold wf'. rewrite !element_alter, !decide_False by done.
    rewrite Hee. by apply Holdd. }
  assert (element wf' b = lookup_element eb b) as Hfb.
  { unfold wf'. rewrite !element_alter, !decide_False by done.
    rewrite Hee. by apply Holdd. }
  assert (element wf' p = set_parentNode (Some mc) (lookup_element ed p))
    as Hfp.
  { unfold wf'. rewrite element_alter, decide_True by done.
    rewrite element_alter, decide_False by done. by rewrite Hee. }
  assert (element wf' mc
          = set_childNodes (childNodes (element w mc) ++ [p]) (element w mc))
    as Hfmc.
  { unfold wf'. rewrite element_alter, decide_False by done.
    rewrite element_alter, decide_True by done.
    rewrite Hee, (Holdd mc Hmcd). by rewrite Holdb. }
  assert (∀ n, n ∈ dom (elements w) → n ≠ mc → element wf' n = element w n)
    as Hfold.
  { intros n Hn Hnmc.
    assert (n ≠ p) by by intros ->.
    unfold wf'. rewrite !element_alter, !decide_False by done.
    rewrite Hee, Holdd; [by apply Holdb|by apply Hdb]. }
  assert (∀ x, x ∈ dom eb ∖ dom (elements w) →
               element wf' x = lookup_element eb x) as Hfnew.
  { intros x Hx. apply elem_of_difference in Hx as [Hx1 Hx0].
    assert (x ≠ p) by by intros ->.
    assert (x ≠ mc) by by intros ->.
    unfold wf'. rewrite !element_alter, !decide_False by done.
    rewrite Hee. by apply Holdd. }
  assert (dom eb ⊆ dom (elements wf')) as Hfdom.
  { intros x Hx. unfold wf'. rewrite !dom_alter.
    by apply elem_of_union_r, elem_of_union_r, Hdd. }
  assert (∀ (wz : World (num := num) (unknown := unknown)),
            dom (elements wf') ⊆ dom (elements wz) →
            (∀ x, x ≠ p → element wz x = element wf' x) →
            dom (elements w) ⊆ dom (elements wz) ∧
            element wz c
            = {| classList :=
                   container_classes (opt_className (_options (this w)));
                 parentNode := None; childNodes := [b]; style := blank_style;
                 clickListeners := [] |} ∧
            set_childNodes [] (element wz b)
            = {| classList := ["plugin-control-toggle"]; parentNode := Some c;
                 childNodes := []; style := blank_style;
                 clickListeners := [(nextFn w, ToggleClick)] |} ∧
            renders_all (dom (elements wz) ∖ dom (elements w)) (elements wz) b
              (childNodes (element wz b)) toggle_icon) as Hrest.
  { intros wz Hzdom Hzold.
    split; [by transitivity (dom eb); [|transitivity (dom (elements wf'))]|].
    split; [by rewrite Hzold, Hfc|]. split; [by rewrite Hzold, Hfb|].
    rewrite Hzold, Hfb by done.
    eapply renders_all_weaken; [| |exact Hrb].
    - apply difference_mono_r.
      by transitivity (dom (elements wf')).
    - intros x Hx.
      change (lookup_element (elements wz) x) with (element wz x).
      rewrite Hzold; [by apply Hfnew|].
      apply elem_of_difference in Hx as [Hx _]. by intros ->. }
  assert (S (nextFn w) ≤ S (S (nextFn w)))%nat as Hk by lia.
  destruct (collapsed st) eqn:Hcol; simpl.
  - run. eexists _, _. split; [reflexivity|].
    exists c, b, p. eexists _, _, _. split; [done|].
    split; [done|]. split; [done|]. split; [done|]. split; [done|].
    split; [done|]. split; [done|]. split; [reflexivity|].
    split; [done|]. split; [done|]. split; [done|]. split; [done|].
    split; [done|]. split; [done|]. split; [done|].
    split; [exists (0, FrameReposition); split; [by rewrite app_nil_r|done]|].
    split; [done|]. split; [simpl; lia|].
    change (element wg) with (element wf').
    change (elements wg) with (elements wf').
    destruct (Hrest wf') as (Hr1 & Hr2 & Hr3 & Hr4); [done|done|].
    split; [done|]. split; [done|]. split; [done|]. split; [done|].
    split; [by rewrite Hfp|]. split; [by rewrite Hfp|].
    split; [by rewrite Hfp|]. split; [done|]. done.
  - run.
    eexists _, _. split; [reflexivity|].
    exists c, b, p. eexists _, _, _. split; [done|].
    split; [done|]. split; [done|]. split; [done|]. split; [done|].
    split; [done|]. split; [done|]. split; [reflexivity|].
    split; [done|]. split; [done|]. split; [done|]. split; [done|].
    split; [done|]. split; [done|]. split; [done|].
    split; [eexists; split; [reflexivity|done]|].
    split; [done|]. split; [simpl; lia|].
    match goal with |- context [element ?x c] => set (wh := x) end.
    assert (∀ n, n ≠ p → element wh n = element wf' n) as Hhn.
    { intros n Hn. unfold wh.
      change (element (with_frames ?f (with_nextFn ?g ?w0))) with (element w0).
      by rewrite element_alter, decide_False. }
    assert (element wh p
            = set_classList (set_add "expanded" (classList (element wf' p)))
                (element wf' p)) as Hhp.
    { unfold wh.
      change (element (with_frames ?f (with_nextFn ?g ?w0))) with (element w0).
      by rewrite element_alter, decide_True. }
    assert (dom (elements wf') ⊆ dom (elements wh)) as Hhdom.
    { unfold wh.
      change (elements (with_frames ?f (with_nextFn ?g ?w0)))
        with (elements w0).
      intros x Hx. rewrite dom_alter. by apply elem_of_union_r. }
    destruct (Hrest wh) as (Hr1 & Hr2 & Hr3 & Hr4); [done|done|].
    split; [done|]. split; [done|]. split; [done|]. split; [done|].
    split; [by rewrite Hhp, Hfp; simpl; rewrite Hcls|].
    split; [by rewrite Hhp, Hfp|]. split; [by rewrite Hhp, Hfp|].
    split; [by rewrite Hhn|].
    intros n Hn Hnmc. rewrite Hhn; [by apply Hfold|]. by intros ->.
Qed.

(** ** The control in a corner *)

(** [querySelector] visits the first child first. *)
Lemma querySelector_first_child w c b rest cls :
  childNodes (element w c) = b :: rest →
  cls ∈ classList (element w b) →
  querySelector w c cls = Some b.
Proof.
  intros Hc Hcls. unfold querySelector. simpl.
  fold (element w c). rewrite Hc. simpl.
  by rewrite filter_cons_True.
Qed.

Lemma docked_alter_panel w c b p cc corner f :
  docked w c b p cc corner → docked (alter_element p f w) c b p cc corner.
Proof.
  intros (Hc & Hp & Hpc & Hpb & Hpcc & Hch & Hcls & Hpar & Hcc).
  split; [done|]. split; [done|]. split; [done|]. split; [done|].
  split; [done|].
  rewrite !element_alter, !decide_False by done. done.
Qed.

Lemma docked_reposition w c b p cc corner mc :
  docked w c b p cc corner → _mapContainer (this w) = Some mc →
  _updatePanelPosition w
  = Ok tt (alter_element p
             (λ e, set_style
                  (spec_panel_style corner
                     (getBoundingClientRect w b)
                     (getBoundingClientRect w mc)
                     (style_width (style e))) e)
             (with_trace (λ t, t ++ [Reposition]) w)).
Proof.
  intros (Hc & Hp & Hpc & Hpb & Hpcc & Hch & Hcls & Hpar & Hcc) Hmc.
  rewrite (reposition_present w c p mc b Hc Hp Hmc)
    by by apply (querySelector_first_child w c b []).
  by rewrite (getControlPosition_detects w c cc corner).
Qed.

Lemma addControl_shape w st map cornerContainer corner :
  live w = Some st →
  map_container map ∈ dom (elements w) →
  cornerContainer ∈ dom (elements w) →
  classList (element w cornerContainer) = [corner_class corner] →
  ∃ w1 c b p fc fw fm,
    addControl map cornerContainer w = Ok tt w1 ∧
    docked w1 c b p cornerContainer corner ∧
    this w1
    = {| _map := Some map; _mapContainer := Some (map_container map);
         _container := Some c; _panel := Some p;
         _options := _options (this w); _state := _state (this w);
         _eventHandlers := _eventHandlers (this w);
         _resizeHandler := Some fw; _mapResizeHandler := Some fm;
         _clickOutsideHandler := Some fc |} ∧
    objects w1 = objects w ∧ records w1 = records w ∧
    trace w1 = trace w ∧ layout w1 = layout w ∧
    documentClick w1 = set_add fc (documentClick w) ∧
    windowResize w1 = set_add fw (windowResize w) ∧
    mapResize w1 = mapResize w ++ [(map_id map, fm)] ∧
    (∃ ff, frames w1
           = frames w ++ (if collapsed st then [] else [ff]) ∧
           snd ff = FrameReposition) ∧
    (snd fc = ClickOutside ∧ snd fw = WindowResize ∧ snd fm = MapResize) ∧
    (nextFn w ≤ fst fc ∧ nextFn w ≤ fst fw ∧ nextFn w ≤ fst fm)%nat ∧
    ((c ∉ dom (elements w)) ∧ (b ∉ dom (elements w)) ∧
     (p ∉ dom (elements w)) ∧ c ≠ b) ∧
    classList (element w1 b) = ["plugin-control-toggle"] ∧
    classList (element w1 p)
    = "plugin-control-panel" :: (if collapsed st then [] else ["expanded"]) ∧
    parentNode (element w1 p) = Some (map_container map) ∧
    style (element w1 p)
    = set_width (css_width (opt_panelWidth (_options (this w)))) blank_style ∧
    (∀ n, n ∈ dom (elements w) → n ≠ map_container map →
          n ≠ cornerContainer → element w1 n = element w n) ∧
    (cornerContainer ≠ map_container map →
       element w1 (map_container map)
       = set_childNodes (childNodes (element w (map_container map)) ++ [p])
           (element w (map_container map)) ∧
       element w1 cornerContainer
       = set_childNodes (childNodes (element w cornerContainer) ++ [c])
           (element w cornerContainer)).
Proof.
  intros Hl Hmc Hcc Hcls. unfold addControl.
  destruct (onAdd_shape w st map Hl Hmc)
    as (r & w' & Hrun & c & b & p & fc & fw & fm & -> & Hc & Hb & Hp & Hcb
        & Hpc & Hpb & Hthis & Hobj & Hrec & Htr & Hlay & Hdc & Hwr & Hmr
        & Hfr & Hsnd & Hfst & _
        & Hec & Heb & _ & Hpcls & Hppar & Hpsty & Hemc & Hold).
  eapply bind_run in Hrun. rewrite Hrun. clear Hrun.
  apply (f_equal classList) in Heb. simpl in Heb.
  assert (c ≠ cornerContainer) as Hccc by by intros ->.
  assert (b ≠ cornerContainer) as Hbcc by by intros ->.
  assert (p ≠ cornerContainer) as Hpcc by by intros ->.
  assert (classList (element w' cornerContainer) = [corner_class corner])
    as Hcls'.
  { destruct (decide (cornerContainer = map_container map)) as [->|Hne].
    - by rewrite Hemc.
    - by rewrite Hold. }
  unfold appendChild, bind, gets, update_element, modify, ret.
  rewrite Hec. simpl.
  eexists _, c, b, p, fc, fw, fm. split; [reflexivity|].
  match goal with |- docked ?x _ _ _ _ _ ∧ _ => set (w1 := x) end.
  assert (this w1 = this w') as Hthis1 by done.
  assert (objects w1 = objects w') as Hobj1 by done.
  rewrite Hthis in Hthis1.
  assert (element w1 c = set_parentNode (Some cornerContainer) (element w' c))
    as H1c.
  { unfold w1. rewrite element_alter, decide_True by done.
    by rewrite element_alter, decide_False. }
  assert (∀ n, n ≠ c → n ≠ cornerContainer → element w1 n = element w' n)
    as H1n.
  { intros n ? ?. unfold w1. by rewrite !element_alter, !decide_False. }
  assert (element w1 cornerContainer
          = set_childNodes (childNodes (element w' cornerContainer) ++ [c])
              (element w' cornerContainer)) as H1cc.
  { unfold w1. rewrite element_alter, decide_False by done.
    by rewrite element_alter, decide_True. }
  split.
  { split; [by rewrite Hthis1|]. split; [by rewrite Hthis1|].
    split; [done|]. split; [done|]. split; [done|].
    rewrite H1c, (H1n b), H1cc, Hec, Heb by done. simpl.
    split; [done|].
    split; [by apply list_elem_of_singleton|]. done. }
  split; [done|]. split; [done|]. split; [done|]. split; [done|].
  split; [done|]. split; [done|]. split; [done|]. split; [done|].
  split; [done|]. split; [done|]. split; [done|]. split; [done|].
  split; [by rewrite (H1n b), Heb|].
  rewrite (H1n p) by done.
  split; [done|]. split; [done|]. split; [done|].
  split.
  { intros n Hn Hnmc Hncc. rewrite H1n; [by apply Hold| |done]. by intros ->. }
  intros Hne. split.
  - rewrite H1n; [done| |done]. by intros <-.
  - rewrite H1cc, Hold; done.
Qed.

Lemma after_run {A} (m : M (World (num := num) (unknown := unknown)) A) w a w' :
  m w = Ok a w' → after m w = w'.
Proof. intros Hrun. unfold after, exec. by rewrite Hrun. Qed.

(** X14: From the host's [addControl] to a placed panel.  The page holds the
    map's container and the container of a corner, marked with the corner's
    class.  After [addControl] the panel exists, shown exactly when the
    control was constructed expanded.  If it is hidden, [expand()] shows it
    and places it by the corner's row of the table, computed from the
    rectangles of the new toggle button and of the map's container; the
    width is the one the [panelWidth] option gives, none when that is not a
    valid width.  If it is shown, the animation frame that [onAdd] requested
    places it so. *)
Theorem added_control_places_panel w st map cornerContainer corner :
  live w = Some st →
  map_container map ∈ dom (elements w) →
  cornerContainer ∈ dom (elements w) →
  classList (element w cornerContainer) = [corner_class corner] →
  ∃ w1 b p,
    addControl map cornerContainer w = Ok tt w1 ∧
    _panel (this w1) = Some p ∧
    (b ∉ dom (elements w)) ∧
    classList (element w1 b) = ["plugin-control-toggle"] ∧
    panel_expanded w1 p = negb (collapsed st) ∧
    let placed :=
      spec_panel_style corner (getBoundingClientRect w b)
        (getBoundingClientRect w (map_container map))
        (css_width (opt_panelWidth (_options (this w)))) in
    (collapsed st = true →
       ∃ w2, expand w1 = Ok tt w2 ∧ panel_expanded w2 p = true ∧
             style (element w2 p) = placed ∧
             events (emitted w1 w2) = [EvExpand; EvStatechange]) ∧
    (collapsed st = false →
       (∃ f, frames w1 = frames w ++ [f] ∧ snd f = FrameReposition) ∧
       ∀ target,
         ∃ w2, call FrameReposition target w1 = Ok tt w2 ∧
               panel_expanded w2 p = true ∧
               style (element w2 p) = placed ∧
               events (emitted w1 w2) = []).
Proof.
  intros Hl Hmc Hcc Hcls.
  destruct (addControl_shape w st map cornerContainer corner Hl Hmc Hcc Hcls)
    as (w1 & c & b & p & fc & fw & fm & Hrun & Hd & Hthis & Hobj & _ & Htr
        & Hlay & _ & _ & _ & Hfr & _ & _ & (_ & Hb & _) & Hbcls & Hpcls & _
        & Hsty & _).
  assert (live w1 = Some st) as Hl1.
  { unfold live. by rewrite Hthis, Hobj. }
  assert (_mapContainer (this w1) = Some (map_container map)) as Hmc1
    by by rewrite Hthis.
  assert (_panel (this w1) = Some p) as Hp1 by by rewrite Hthis.
  exists w1, b, p. split; [done|]. split; [done|]. split; [done|].
  split; [done|]. split.
  { unfold panel_expanded, classList_contains. rewrite Hpcls.
    by destruct (collapsed st). }
  intros placed. split.
  - intros Hcol.
    destruct (toggle_expanding_facts w1 st p Hl1 Hcol Hp1)
      as (w2 & s1 & s2 & Hrun2 & _ & _ & Hl2 & Hshown & Hlog).
    exists w2. split.
    { unfold expand.
      rewrite (bind_run _ _ w1 st w1 (read_state_ok w1 st Hl1)).
      by rewrite Hcol. }
    split; [done|]. split.
    + rewrite (toggle_expanding w1 st p Hl1 Hcol Hp1) in Hrun2.
      injection Hrun2 as <-.
      set (wx := alter_element p _ (with_objects _ w1)).
      assert (docked wx c b p cornerContainer corner) as Hdx.
      { unfold wx. apply docked_alter_panel. exact Hd. }
      pose proof (docked_reposition wx c b p cornerContainer corner _ Hdx Hmc1)
        as Hpos.
      rewrite (after_run _ _ _ _ Hpos).
      match goal with |- context [_emit EvExpand] =>
        set (wy := alter_element p _ (with_trace _ wx)) end.
      assert (live wy = Some (set_collapsed false st)) as Hly
        by apply lookup_insert_eq.
      unfold element.
      rewrite (after_emit_elements _ _ (set_collapsed false st))
        by by apply after_emit_live.
      rewrite (after_emit_elements _ _ (set_collapsed false st)) by done.
      fold (element wy p). unfold wy.
      rewrite element_alter, decide_True by done. simpl.
      change (element (with_trace ?f ?w0)) with (element w0).
      unfold wx at 3. rewrite element_alter, decide_True by done. simpl.
      change (element (with_objects ?f ?w0)) with (element w0).
      rewrite Hsty. unfold placed. simpl.
      unfold getBoundingClientRect.
      change (layout wx) with (layout w1). by rewrite Hlay.
    + rewrite Hlog. change (Reposition :: ?l) with ([Reposition] ++ l).
      by rewrite !events_app, !events_emission.
  - intros Hcol. split.
    { destruct Hfr as (ff & Hff & Hsnd). rewrite Hcol in Hff. by exists ff. }
    intros target. simpl.
    rewrite (docked_reposition w1 c b p cornerContainer corner _ Hd Hmc1).
    eexists. split; [reflexivity|].
    split.
    { unfold panel_expanded, classList_contains.
      rewrite element_alter, decide_True by done. simpl.
      change (element (with_trace ?f ?w0)) with (element w0).
      by rewrite Hpcls, Hcol. }
    split.
    { rewrite element_alter, decide_True by done. simpl.
      change (element (with_trace ?f ?w0)) with (element w0).
      rewrite Hsty. unfold placed, getBoundingClientRect. simpl.
      by rewrite Hlay. }
    by rewrite (emitted_app w1 _ [Reposition]).
Qed.


(** ** Attaching and detaching *)

Lemma elem_of_foldl_set_add {A} `{EqDecision A} (x : A) ts l :
  x ∈ foldl (λ acc t, set_add t acc) l ts ↔ x ∈ l ∨ x ∈ ts.
Proof.
  revert l. induction ts as [|t ts IH]; intros l; simpl.
  - rewrite elem_of_nil. tauto.
  - rewrite IH, elem_of_set_add_iff, elem_of_cons. tauto.
Qed.

Lemma NoDup_foldl_set_add {A} `{EqDecision A} (ts l : list A) :
  NoDup l → NoDup (foldl (λ acc t, set_add t acc) l ts).
Proof.
  revert l. induction ts as [|t ts IH]; intros l Hl; [done|]. simpl.
  apply IH. unfold set_add. case_decide as Hin; [done|].
  apply NoDup_app. split; [done|]. split; [|apply NoDup_singleton].
  intros x Hx Hx'. apply list_elem_of_singleton in Hx'. by subst.
Qed.

(** The container has the three classes of a control and the names in the
    [className] option, each once. *)
Lemma container_classes_spec (className : string) :
  NoDup (container_classes className) ∧
  ∀ cls, cls ∈ container_classes className ↔
         cls ∈ ["maplibregl-ctrl"; "maplibregl-ctrl-group"; "plugin-control"] ∨
         cls ∈ class_names className.
Proof.
  split.
  - apply NoDup_foldl_set_add.
    apply (bool_decide_unpack _). by vm_compute.
  - intros cls. apply elem_of_foldl_set_add.
Qed.

(** X13: [onAdd(map)] builds the control's elements and wires its listeners.  It
    returns the new container, which has the classes of a control and the
    names in the [className] option, and whose only child is the toggle
    button; the button holds the icon's markup and its only click listener
    toggles.  The panel is a new element too, appended as the last child of
    the map's container, with the width the [panelWidth] option gives (none
    when that is not a valid width), and shown exactly when the state is
    expanded.  No other element of the page changes.  A listener is
    registered on the document, one on the window and one on the map, and a
    reposition is requested for the next animation frame exactly when the
    state is expanded.  The state, the subscriptions and the mappings stay,
    and nothing is emitted. *)
Theorem onAdd_builds_control w st map :
  live w = Some st → map_container map ∈ dom (elements w) →
  ∃ r w', onAdd map w = Ok r w' ∧ ∃ c b p,
    r = Some c ∧
    getMap w' = Ok (Some map) w' ∧ getContainer w' = Ok (Some c) w' ∧
    _panel (this w') = Some p ∧
    ((c ∉ dom (elements w)) ∧ (b ∉ dom (elements w)) ∧
     (p ∉ dom (elements w)) ∧ c ≠ b ∧ p ≠ c ∧ p ≠ b) ∧
    element w' c
    = {| classList := container_classes (opt_className (_options (this w)));
         parentNode := None; childNodes := [b]; style := blank_style;
         clickListeners := [] |} ∧
    (NoDup (classList (element w' c)) ∧
     ∀ cls, cls ∈ classList (element w' c) ↔
            cls ∈ ["maplibregl-ctrl"; "maplibregl-ctrl-group";
                   "plugin-control"] ∨
            cls ∈ class_names (opt_className (_options (this w)))) ∧
    set_childNodes [] (element w' b)
    = {| classList := ["plugin-control-toggle"]; parentNode := Some c;
         childNodes := []; style := blank_style;
         clickListeners := [(nextFn w, ToggleClick)] |} ∧
    renders_all (dom (elements w') ∖ dom (elements w)) (elements w') b
      (childNodes (element w' b)) toggle_icon ∧
    classList (element w' p)
    = "plugin-control-panel" :: (if collapsed st then [] else ["expanded"]) ∧
    panel_expanded w' p = negb (collapsed st) ∧
    parentNode (element w' p) = Some (map_container map) ∧
    last (childNodes (element w' (map_container map))) = Some p ∧
    style (element w' p)
    = set_width (css_width (opt_panelWidth (_options (this w)))) blank_style ∧
    (∀ n, n ∈ dom (elements w) → n ≠ map_container map →
          element w' n = element w n) ∧
    (∃ fc fw fm,
       _clickOutsideHandler (this w') = Some fc ∧ fc ∈ documentClick w' ∧
       snd fc = ClickOutside ∧
       _resizeHandler (this w') = Some fw ∧ fw ∈ windowResize w' ∧
       snd fw = WindowResize ∧
       _mapResizeHandler (this w') = Some fm ∧
       (map_id map, fm) ∈ mapResize w' ∧ snd fm = MapResize) ∧
    (∃ ff, frames w' = frames w ++ (if collapsed st then [] else [ff]) ∧
           snd ff = FrameReposition) ∧
    live w' = Some st ∧
    _eventHandlers (this w') = _eventHandlers (this w) ∧
    records w' = records w ∧ emitted w w' = [].
Proof.
  intros Hl Hmc.
  destruct (onAdd_shape w st map Hl Hmc)
    as (r & w' & Hrun & c & b & p & fc & fw & fm & -> & Hc & Hb & Hp & Hcb
        & Hpc & Hpb & Hthis & Hobj & Hrec & Htr & Hlay & Hdc & Hwr & Hmr
        & Hfr & (Hs1 & Hs2 & Hs3) & Hfst & Hdom
        & Hec & Heb & Hrb & Hpcls & Hppar & Hpsty & Hemc & Hold).
  exists (Some c), w'. split; [done|]. exists c, b, p.
  split; [done|].
  split; [unfold getMap, field, gets; by rewrite Hthis|].
  split; [unfold getContainer, field, gets; by rewrite Hthis|].
  split; [by rewrite Hthis|]. split; [done|]. split; [done|].
  split; [rewrite Hec; apply container_classes_spec|].
  split; [done|]. split; [done|]. split; [done|].
  split.
  { unfold panel_expanded, classList_contains. rewrite Hpcls.
    by destruct (collapsed st). }
  split; [done|].
  split; [rewrite Hemc; simpl; apply last_snoc|].
  split; [done|]. split; [done|].
  split.
  { exists fc, fw, fm. rewrite Hthis, Hdc, Hwr, Hmr. simpl.
    split; [done|]. split; [apply elem_of_set_add|]. split; [done|].
    split; [done|]. split; [apply elem_of_set_add|]. split; [done|].
    split; [done|]. split; [|done].
    apply elem_of_app. right. by apply list_elem_of_singleton. }
  split; [done|].
  split; [unfold live; by rewrite Hthis, Hobj|].
  split; [by rewrite Hthis|]. split; [done|].
  apply emitted_app. by rewrite app_nil_r.
Qed.

Lemma detach_parent w n q :
  parentNode (element w n) = Some q →
  detach (Some n) w
  = Ok tt (alter_element n (set_parentNode None)
             (alter_element q
                (λ e, set_childNodes (set_delete n (childNodes e)) e) w)).
Proof.
  intros Hq. unfold detach, removeChild, update_element, modify, bind, gets.
  cbv beta iota. rewrite Hq. cbv beta iota. rewrite ?Hq.
  by rewrite decide_True.
Qed.

Lemma onRemove_attached w map c p fw fm fc q cc :
  _map (this w) = Some map → _container (this w) = Some c →
  _panel (this w) = Some p → _resizeHandler (this w) = Some fw →
  _mapResizeHandler (this w) = Some fm →
  _clickOutsideHandler (this w) = Some fc →
  parentNode (element w p) = Some q → parentNode (element w c) = Some cc →
  c ≠ p →
  ∃ w2, onRemove w = Ok tt w2 ∧
    elements w2
    = elements
        (alter_element c (set_parentNode None)
           (alter_element cc
              (λ e, set_childNodes (set_delete c (childNodes e)) e)
              (alter_element p (set_parentNode None)
                 (alter_element q
                    (λ e, set_childNodes (set_delete p (childNodes e)) e)
                    w)))) ∧
    windowResize w2 = set_delete fw (windowResize w) ∧
    documentClick w2 = set_delete fc (documentClick w) ∧
    mapResize w2 = remove_first (map_id map, fm) (mapResize w) ∧
    frames w2 = frames w.
Proof.
  intros Hm Hc Hp Hfw Hfm Hfc Hq Hcc Hcp.
  unfold onRemove, bind, field, gets. rewrite Hfw. simpl.
  rewrite Hfm, Hm. simpl. rewrite Hfc. simpl. rewrite Hp.
  erewrite detach_parent by exact Hq. simpl. rewrite Hc.
  erewrite detach_parent.
  2:{ rewrite element_alter, decide_False by done.
      rewrite element_alter. case_decide; [subst; simpl|]; exact Hcc. }
  eexists. split; [reflexivity|]. done.
Qed.

Lemma set_delete_fresh {A} `{EqDecision A} (a : A) l :
  a ∉ l → set_delete a l = l.
Proof.
  intros Ha. unfold set_delete. induction l as [|x l IH]; [done|].
  rewrite filter_cons_True.
  - f_equal. apply IH. intros ?. apply Ha. by right.
  - intros ->. apply Ha. by left.
Qed.

Lemma set_delete_snoc {A} `{EqDecision A} (a : A) l :
  a ∉ l → set_delete a (l ++ [a]) = l.
Proof.
  intros Ha. unfold set_delete. rewrite filter_app.
  fold (set_delete a l). rewrite set_delete_fresh by done.
  rewrite filter_cons_False by (by intros ?). by rewrite filter_nil, app_nil_r.
Qed.

Lemma set_delete_add {A} `{EqDecision A} (a : A) l :
  a ∉ l → set_delete a (set_add a l) = l.
Proof.
  intros Ha. unfold set_add. rewrite decide_False by done.
  by apply set_delete_snoc.
Qed.

Lemma remove_first_snoc {A} `{EqDecision A} (a : A) l :
  a ∉ l → remove_first a (l ++ [a]) = l.
Proof.
  intros Ha. induction l as [|x l IH]; simpl.
  - by rewrite decide_True.
  - rewrite decide_False.
    + f_equal. apply IH. intros ?. apply Ha. by right.
    + intros ->. apply Ha. by left.
Qed.

(** X17: Adding the control to a map and removing it again leaves the page as it
    was: every element that existed is unchanged, children included, and the
    listeners of the window, of the document and of the map are those from
    before.  The control holds no map, no element and none of its three
    listeners afterwards, its state is kept and nothing was emitted.  The
    frame requested by an expanded control is not cancelled. *)
Theorem addControl_onRemove_restores w st map cornerContainer corner :
  live w = Some st →
  map_container map ∈ dom (elements w) →
  cornerContainer ∈ dom (elements w) →
  cornerContainer ≠ map_container map →
  classList (element w cornerContainer) = [corner_class corner] →
  children_exist w (map_container map) →
  children_exist w cornerContainer →
  listeners_known w →
  ∃ w1 w2,
    addControl map cornerContainer w = Ok tt w1 ∧
    onRemove w1 = Ok tt w2 ∧
    (∀ n, n ∈ dom (elements w) → element w2 n = element w n) ∧
    windowResize w2 = windowResize w ∧
    documentClick w2 = documentClick w ∧
    mapResize w2 = mapResize w ∧
    holds_nothing (this w2) ∧ live w2 = Some st ∧
    records w2 = records w ∧ emitted w w2 = [] ∧
    (∃ ff, frames w2 = frames w ++ (if collapsed st then [] else [ff])).
Proof.
  intros Hl Hmc Hcc Hne Hcls Hchmc Hchcc Hknown.
  destruct (addControl_shape w st map cornerContainer corner Hl Hmc Hcc Hcls)
    as (w1 & c & b & p & fc & fw & fm & Hrun & Hd & Hthis & Hobj & Hrec & Htr
        & Hlay & Hdc & Hwr & Hmr & (ff & Hfr & _) & _ & (Hk1 & Hk2 & Hk3)
        & (Hc & Hb & Hp & Hcb) & _ & _ & Hppar & _ & Hold & Hboth).
  destruct (Hboth Hne) as [Hemc Hecc].
  destruct Hd as (_ & _ & Hpc & _ & _ & _ & _ & Hcpar & _).
  destruct (onRemove_attached w1 map c p fw fm fc (map_container map)
              cornerContainer)
    as (w2 & Hrun2 & Hels & Hwr2 & Hdc2 & Hmr2 & Hfr2);
    [by rewrite Hthis..|done|done|by intros ->|].
  destruct (onRemove_facts w1)
    as (w2' & Hrun2' & Hun & _ & _ & Hst & Hobj2 & Hrec2 & Htr2 & _ & _ & _
        & _ & _ & _ & _ & Hnone & _).
  rewrite Hrun2 in Hrun2'. injection Hrun2' as <-.
  assert (map_listener_ok (this w1)) as Hok
    by (intros _; rewrite Hthis; by eexists).
  unfold listeners_known in Hknown.
  rewrite !Forall_app in Hknown. destruct Hknown as (Hkw & Hkd & Hkm).
  assert (fw ∉ windowResize w) as Hfw.
  { intros Hin. rewrite Forall_forall in Hkw. apply Hkw in Hin. lia. }
  assert (fc ∉ documentClick w) as Hfc.
  { intros Hin. rewrite Forall_forall in Hkd. apply Hkd in Hin. lia. }
  assert ((map_id map, fm) ∉ mapResize w) as Hfm.
  { intros Hin. rewrite Forall_forall in Hkm.
    assert (fm ∈ (snd <$> mapResize w)) as Hin'.
    { apply list_elem_of_fmap. by exists (map_id map, fm). }
    apply Hkm in Hin'. lia. }
  assert (p ∉ childNodes (element w (map_container map))) as Hpch.
  { intros Hin. unfold children_exist in Hchmc.
    rewrite Forall_forall in Hchmc. by apply Hchmc in Hin. }
  assert (c ∉ childNodes (element w cornerContainer)) as Hcch.
  { intros Hin. unfold children_exist in Hchcc.
    rewrite Forall_forall in Hchcc. by apply Hchcc in Hin. }
  exists w1, w2. split; [done|]. split; [done|].
  split.
  { intros n Hn. unfold element at 1. rewrite Hels.
    change (lookup_element (elements ?w0) ?n0) with (element w0 n0).
    assert (n ≠ c) as Hnc by by intros ->.
    assert (n ≠ p) as Hnp by by intros ->.
    rewrite element_alter, decide_False by done.
    rewrite element_alter.
    case_decide as Hncc; [subst n|].
    - rewrite element_alter, decide_False by done.
      rewrite element_alter, decide_False by done.
      rewrite Hecc. simpl. rewrite set_delete_snoc by done.
      by destruct (element w cornerContainer).
    - rewrite element_alter, decide_False by done.
      rewrite element_alter.
      case_decide as Hnmc; [subst n|].
      + rewrite Hemc. simpl. rewrite set_delete_snoc by done.
        by destruct (element w (map_container map)).
      + by apply Hold. }
  split; [by rewrite Hwr2, Hwr, set_delete_add|].
  split; [by rewrite Hdc2, Hdc, set_delete_add|].
  split; [by rewrite Hmr2, Hmr, remove_first_snoc|].
  split; [split; [done|by apply Hnone]|].
  split; [unfold live; by rewrite Hobj2, Hst, Hobj, Hthis|].
  split; [by rewrite Hrec2|].
  split; [apply emitted_app; by rewrite Htr2, Htr, app_nil_r|].
  exists ff. by rewrite Hfr2.
Qed.


(** ** The React wrapper's lifecycle *)

(** X19: Mounting [PluginControlReact].  Without a map nothing happens and the
    ref stays empty.  With a map, the control is constructed from the props:
    its state has the [collapsed] and [panelWidth] of the props object, the
    defaults for a key the object lacks; [onStateChange], when given, is
    subscribed to [statechange] and nothing else is subscribed; the
    container is put into the host's container for the [position] prop,
    top-right without one, and that is the corner the control detects.  The
    panel is shown exactly when the [collapsed] flag of the state is not
    set.  Nothing is emitted while mounting, so the callback is not called.
    The cleanup, when the host still has the control, leaves it without a
    map, an element, a listener or a subscription; otherwise it changes
    nothing. *)
Theorem react_mount_wires_control w map options onStateChange
    controlPositions position :
  position = default TopRight (po_position options) →
  map_container map ∈ dom (elements w) →
  controlPositions position ∈ dom (elements w) →
  classList (element w (controlPositions position))
  = [corner_class position] →
  PluginControlReact_mount None options onStateChange controlPositions w
  = Ok false w ∧
  ∃ w1 c p d,
    PluginControlReact_mount (Some map) options onStateChange
      controlPositions w = Ok true w1 ∧
    live w1
    = Some {| collapsed := default true (po_collapsed options);
              panelWidth := default (num_lit 300) (po_panelWidth options);
              data := Some d |} ∧
    (∀ e h, subscribed (this w1) e h
            ↔ e = EvStatechange ∧ onStateChange = Some h) ∧
    getMap w1 = Ok (Some map) w1 ∧ getContainer w1 = Ok (Some c) w1 ∧
    parentNode (element w1 c) = Some (controlPositions position) ∧
    _getControlPosition w1 = position ∧
    _panel (this w1) = Some p ∧
    (∀ st, live w1 = Some st → panel_expanded w1 p = negb (collapsed st)) ∧
    emitted w w1 = [] ∧
    PluginControlReact_cleanup false w1 = Ok tt w1 ∧
    ∃ w2, PluginControlReact_cleanup true w1 = Ok tt w2 ∧
          holds_nothing (this w2) ∧ (∀ e h, ¬ subscribed (this w2) e h) ∧
          live w2 = live w1.
Proof.
  intros Hposition Hmc Hcc Hcls. split; [done|].
  unfold PluginControlReact_mount.
  set (opts := spread_options DEFAULT_OPTIONS (Some options)).
  set (st := {| collapsed := default true (po_collapsed options);
                panelWidth := default (num_lit 300) (po_panelWidth options);
                data := Some (fresh (dom (records w))) |}).
  set (wn := after (new_PluginControl (Some options)) w).
  assert (new_PluginControl (Some options) w = Ok tt wn) as Hnew by done.
  assert (live wn = Some st) as Hln.
  { unfold live, wn. simpl. by rewrite lookup_insert_eq. }
  rewrite (bind_run _ _ w tt wn Hnew).
  set (hs := match onStateChange with
             | Some h => {[EvStatechange := [h]]}
             | None => ∅
             end : gmap PluginControlEvent (list Handler)).
  set (wo := with_this (set_eventHandlers hs) wn).
  assert (match onStateChange with
          | Some h => on EvStatechange h
          | None => ret tt
          end wn = Ok tt wo) as Hon.
  { unfold wo, hs. destruct onStateChange as [h|].
    - by rewrite on_run.
    - done. }
  rewrite (bind_run _ _ wn tt wo Hon).
  assert (live wo = Some st) as Hlo by done.
  destruct (addControl_shape wo st map (controlPositions position) position
              Hlo Hmc Hcc Hcls)
    as (w1 & c & b & p & fc & fw & fm & Hrun & Hd & Hthis & Hobj & Hrec & Htr
        & _ & _ & _ & _ & _ & _ & _ & _ & _ & Hpcls & _).
  rewrite <- Hposition. rewrite (bind_run _ _ wo tt w1 Hrun).
  exists w1, c, p, (fresh (dom (records w))). split; [done|].
  split; [unfold live; by rewrite Hthis, Hobj|].
  split.
  { intros e h. unfold subscribed. rewrite Hthis. simpl. unfold hs.
    destruct onStateChange as [h0|].
    - split.
      + intros (l & Hl & Hin).
        apply lookup_singleton_Some in Hl as [<- <-].
        by apply list_elem_of_singleton in Hin as ->.
      + intros [-> [= ->]]. exists [h]. rewrite lookup_singleton_eq.
        split; [done|]. by apply list_elem_of_singleton.
    - split; [by intros (l & Hl & _)|by intros [_ ?]]. }
  destruct Hd as (Hc1 & Hp1 & _ & _ & _ & _ & _ & Hcpar & Hcc1).
  split; [unfold getMap, field, gets; by rewrite Hthis|].
  split; [unfold getContainer, field, gets; by rewrite Hthis|].
  split; [done|].
  split; [by apply (getControlPosition_detects w1 c (controlPositions position))|].
  split; [done|].
  split.
  { intros st' Hst'. unfold live in Hst'. rewrite Hthis, Hobj in Hst'.
    change (live wo = Some st') in Hst'. rewrite Hlo in Hst'.
    injection Hst' as <-.
    unfold panel_expanded, classList_contains. rewrite Hpcls. simpl.
    by destruct (default true (po_collapsed options)). }
  split; [apply emitted_app; rewrite Htr; simpl; by rewrite app_nil_r|].
  split; [done|].
  destruct (onRemove_facts w1)
    as (w2 & Hrun2 & Hun & Heh & _ & Hst & Hobj2 & _ & _ & _ & _ & _ & _ & _
        & _ & _ & Hnone & _).
  assert (map_listener_ok (this w1)) as Hok
    by (intros _; rewrite Hthis; by eexists).
  exists w2. split; [done|]. split; [split; [done|by apply Hnone]|].
  split.
  { intros e h (l & Hl & _). by rewrite Heh in Hl. }
  unfold live. by rewrite Hobj2, Hst.
Qed.


(** ** The structure of the panel *)

(** What a rendering of a single text node is. *)
Lemma renders_all_text new (els : gmap node (Element (num := num))) n ks :
  renders_all new els n ks [MText] ↔
  ∃ t, ks = [t] ∧ t ∈ new ∧
       lookup_element els t = set_parentNode (Some n) blank_element.
Proof.
  unfold renders_all. split.
  - intros Hall. inversion Hall as [|t m ks' ms' Hr Hrest]; subst.
    inversion Hrest; subst. cbn [renders] in Hr. destruct Hr as [Ht He].
    by exists t.
  - intros (t & -> & Ht & He). constructor; [|constructor].
    cbn [renders]. by split.
Qed.

(** X24: [_createPanel]: the panel it returns is a new element of class
    [plugin-control-panel], with the width the [panelWidth] option gives
    (none when that is not a valid width) and not yet in the page.  It holds
    a header and a content area, in this order; the header holds the title
    and the close button, in this order.  The title holds one text node,
    none for an empty [title] option; the close button holds the text of its
    label and the content area the placeholder paragraph between two text
    nodes, all of them new nodes.  The five elements are new and distinct,
    and the close button's only click listener calls [collapse()].  Building
    the panel changes no element that existed, and nothing else but the
    counter of closures. *)
Theorem createPanel_builds_panel w :
  ∃ panel w', _createPanel w = Ok panel w' ∧
    ∃ header title closeBtn content,
      NoDup [panel; header; title; closeBtn; content] ∧
      Forall (λ n, n ∉ dom (elements w))
             [panel; header; title; closeBtn; content] ∧
      (classList (element w' panel) = ["plugin-control-panel"] ∧
       parentNode (element w' panel) = None ∧
       childNodes (element w' panel) = [header; content] ∧
       style (element w' panel)
       = set_width (css_width (opt_panelWidth (_options (this w))))
           blank_style) ∧
      (classList (element w' header) = ["plugin-control-header"] ∧
       parentNode (element w' header) = Some panel ∧
       childNodes (element w' header) = [title; closeBtn]) ∧
      (classList (element w' title) = ["plugin-control-title"] ∧
       parentNode (element w' title) = Some header ∧
       (opt_title (_options (this w)) = "" →
          childNodes (element w' title) = []) ∧
       (opt_title (_options (this w)) ≠ "" →
          ∃ t, childNodes (element w' title) = [t] ∧
               (t ∉ dom (elements w)) ∧
               element w' t = set_parentNode (Some title) blank_element)) ∧
      (classList (element w' closeBtn) = ["plugin-control-close"] ∧
       parentNode (element w' closeBtn) = Some header ∧
       renders_all (dom (elements w') ∖ dom (elements w)) (elements w')
         closeBtn (childNodes (element w' closeBtn)) close_label ∧
       ∃ f, clickListeners (element w' closeBtn) = [f] ∧
            ∀ target (w0 : World (num := num) (unknown := unknown)),
              call (snd f) target w0 = collapse w0) ∧
      (classList (element w' content) = ["plugin-control-content"] ∧
       parentNode (element w' content) = Some panel ∧
       renders_all (dom (elements w') ∖ dom (elements w)) (elements w')
         content (childNodes (element w' content)) content_placeholder) ∧
      (∀ n, n ∈ dom (elements w) → element w' n = element w n) ∧
      w' = with_nextFn S (with_elements (λ _, elements w') w).
Proof.
  destruct (createPanel_structure w)
    as (panel & w' & Hrun & header & title & closeBtn & content & Hnd & Hnew
        & _ & (Hw & _ & _ & Hold) & Hnf & Hp & Hh & (Ht & Hrt) & (Hc & Hrc)
        & (Hco & Hro)).
  exists panel, w'. split; [done|].
  exists header, title, closeBtn, content.
  split; [done|]. split; [done|].
  rewrite Hp, Hh. simpl.
  split; [done|]. split; [done|].
  split.
  { split; [by apply (f_equal classList) in Ht|].
    split; [by apply (f_equal parentNode) in Ht|].
    unfold text_markup in Hrt. split.
    - intros Hempty. rewrite decide_True in Hrt by done.
      by inversion Hrt.
    - intros Hfull. rewrite decide_False in Hrt by done.
      apply renders_all_text in Hrt as (t & Hks & Hnewt & Het).
      exists t. split; [done|]. split; [|done].
      by apply elem_of_difference in Hnewt as [_ ?]. }
  split.
  { split; [by apply (f_equal classList) in Hc|].
    split; [by apply (f_equal parentNode) in Hc|]. split; [done|].
    exists (nextFn w, CloseClick).
    split; [by apply (f_equal clickListeners) in Hc|]. done. }
  split.
  { split; [by apply (f_equal classList) in Hco|].
    split; [by apply (f_equal parentNode) in Hco|]. done. }
  split; [done|].
  rewrite Hw at 1. rewrite Hnf. by destruct w.
Qed.

End Properties.


(** * The properties on the concrete page *)

Lemma wf_constructed : wf constructed.
Proof. apply (bool_decide_unpack _). vm_compute. exact I. Qed.

Lemma wf_attached : wf attached.
Proof. apply (bool_decide_unpack _). vm_compute. exact I. Qed.

(** C1, as stated, fails: the control's [data] is [{ a: 1 }] and
    [setState({ data: { b: 2 } })] leaves it with [{ b: 2 }]; the key [a],
    which the one-level merge [{ a: 1, b: 2 }] keeps, is gone. *)
Lemma setState_data_not_merged :
  live_data with_data = Some {[ "a" := 1%Z ]} ∧
  records with_data !! 2 = Some {[ "b" := 2%Z ]} ∧
  ∃ w', setState only_data with_data = Ok tt w' ∧
        live_data w' = Some {[ "b" := 2%Z ]} ∧
        (live_data w' ≫= (.!! "a")) = None ∧
        spec_merge_data {[ "a" := 1%Z ]} {[ "b" := 2%Z ]} !! "a" = Some 1%Z ∧
        live_data w'
        ≠ Some (spec_merge_data {[ "a" := 1%Z ]} {[ "b" := 2%Z ]}).
Proof.
  split; [vm_compute; reflexivity|]. split; [vm_compute; reflexivity|].
  exists (after (setState only_data) with_data).
  split; [vm_compute; reflexivity|]. split; [vm_compute; reflexivity|].
  split; [vm_compute; reflexivity|]. split; [vm_compute; reflexivity|].
  intros Heq. apply (f_equal (λ o, o ≫= (.!! "a"))) in Heq.
  vm_compute in Heq. discriminate.
Qed.

Lemma setState_shallow_merge_witness :
  ∃ w',
    setState only_data with_data = Ok tt w' ∧
    live w' = Some {| collapsed := true; panelWidth := 300%Z;
                      data := Some 2 |} ∧
    live_data w' = records with_data !! 2 ∧
    events (emitted with_data w') = [EvStatechange].
Proof.
  destruct (setState_shallow_merge with_data
              {| collapsed := true; panelWidth := 300%Z; data := Some 1 |}
              only_data)
    as (w' & s & Hrun & Hl & Hd & _ & _ & _ & Hev);
    [vm_compute; reflexivity|].
  exists w'. split; [done|]. split; [done|]. split; [|done].
  by apply (Hd 2).
Defined.

(** C2 fails on [setState]: on the attached, collapsed control (panel 19,
    without the ['expanded'] class), [setState({ collapsed: false })] sets
    the flag to [false] and leaves the panel's classes alone; the flag says
    expanded, the panel is hidden. *)
Lemma setState_collapsed_leaves_panel :
  _panel (this attached) = Some 19 ∧
  (collapsed <$> live attached) = Some true ∧
  panel_expanded attached 19 = false ∧
  ∃ w', setState only_collapsed_false attached = Ok tt w' ∧
        _panel (this w') = Some 19 ∧
        (collapsed <$> live w') = Some false ∧
        panel_expanded w' 19 = false.
Proof.
  split; [vm_compute; reflexivity|]. split; [vm_compute; reflexivity|].
  split; [vm_compute; reflexivity|].
  exists (after (setState only_collapsed_false) attached).
  split; [vm_compute; reflexivity|]. split; [vm_compute; reflexivity|].
  split; vm_compute; reflexivity.
Qed.

Lemma toggle_expand_then_collapse_witness :
  ∃ w0 w1 w2,
    toggle attached = Ok tt w1 ∧
    panel_expanded w1 19 = true ∧
    trace w0 = trace attached ++ [Reposition] ∧
    style (element w0 19)
    = {| style_top := css_px 44%Z; style_bottom := css_unset;
         style_left := css_unset; style_right := css_px 10%Z;
         style_width := css_px 300%Z |} ∧
    (_emit EvExpand ;; _emit EvStatechange) w0 = Ok tt w1 ∧
    style (element w1 19) = style (element w0 19) ∧
    events (emitted attached w1) = [EvExpand; EvStatechange] ∧
    head (emitted attached w1) = Some Reposition ∧
    calls 7 EvExpand (emitted attached w1) = 1 ∧
    calls 8 EvStatechange (emitted attached w1) = 1 ∧
    toggle w1 = Ok tt w2 ∧
    live w2 = Some initial_state ∧
    panel_expanded w2 19 = false ∧
    events (emitted w1 w2) = [EvCollapse; EvStatechange].
Proof.
  destruct (toggle_expand_then_collapse attached initial_state 2 19 0 3)
    as (w0 & w1 & w2 & s1 & s2 & s3 & s4 & Hrun1 & _ & Hshown & Htr0 & Hsty0
        & Hemit & Hsame & Hlog1 & Hev1 & Hcalls1 & Hrun2 & Hl2 & Hhidden & _
        & Hev2 & _).
  - exact wf_attached.
  - vm_compute. reflexivity.
  - reflexivity.
  - vm_compute. reflexivity.
  - vm_compute. reflexivity.
  - vm_compute. reflexivity.
  - apply (bool_decide_unpack _). vm_compute. exact I.
  - vm_compute. reflexivity.
  - exists w0, w1, w2.
    split; [exact Hrun1|]. split; [exact Hshown|]. split; [exact Htr0|].
    split; [rewrite Hsty0; vm_compute; reflexivity|].
    split; [exact Hemit|]. split; [exact Hsame|]. split; [exact Hev1|].
    split; [rewrite Hlog1; reflexivity|].
    split.
    { apply (Hcalls1 7 EvExpand). exists [7].
      split; [vm_compute; reflexivity | left]. }
    split.
    { apply (Hcalls1 8 EvStatechange). exists [8].
      split; [vm_compute; reflexivity | left]. }
    split; [exact Hrun2|]. split; [exact Hl2|]. split; [exact Hhidden|].
    exact Hev2.
Defined.

Lemma updatePanelPosition_table_witness :
  ∃ w',
    _updatePanelPosition attached = Ok tt w' ∧
    style (element w' 19)
    = {| style_top := css_px 44%Z; style_bottom := css_unset;
         style_left := css_unset; style_right := css_px 10%Z;
         style_width := css_px 300%Z |}.
Proof.
  destruct (updatePanelPosition_table attached 2 19 0 3 TopRight)
    as (w' & Hrun & Hstyle & _); try (vm_compute; reflexivity).
  exists w'. split; [exact Hrun|]. rewrite Hstyle. vm_compute. reflexivity.
Defined.

Lemma setState_panelWidth_witness :
  ∃ w',
    setState {| p_collapsed := None; p_panelWidth := Some 400%Z;
                p_data := None |} constructed = Ok tt w' ∧
    events (emitted constructed w') = [EvStatechange] ∧
    ∃ snapshot w'',
      getState w' = Ok snapshot w'' ∧
      objects w'' !! snapshot
      = Some {| collapsed := true; panelWidth := 400%Z; data := Some 0 |}.
Proof.
  destruct (setState_panelWidth constructed initial_state)
    as (w' & s & Hrun & _ & Hev & _ & Hget); [vm_compute; reflexivity|].
  exists w'. split; [exact Hrun|]. split; [exact Hev | exact Hget].
Defined.

Lemma on_twice_fires_once_witness :
  ∃ w1 w2,
    on EvExpand 7 constructed = Ok tt w1 ∧
    on EvExpand 7 w1 = Ok tt w1 ∧
    _emit EvExpand w1 = Ok tt w2 ∧
    calls 7 EvExpand (emitted w1 w2) = 1.
Proof.
  destruct (on_twice_fires_once constructed EvExpand 7 wf_constructed)
    as (w1 & w2 & Hrun1 & Hrun2 & _ & Hemit & Hcalls).
  exists w1, w2.
  split; [exact Hrun1|]. split; [exact Hrun2|]. split; [exact Hemit|].
  exact Hcalls.
Defined.

Lemma defensive_no_ops_witness :
  off EvExpand 7 constructed = Ok tt constructed ∧
  (∃ w', _emit EvExpand constructed = Ok tt w' ∧
         emitted constructed w' = [Emit EvExpand]) ∧
  _updatePanelPosition constructed
  = Ok tt (with_trace (λ t, t ++ [Reposition]) constructed) ∧
  (∃ w1, onRemove attached = Ok tt w1 ∧ onRemove w1 = Ok tt w1) ∧
  onRemove constructed = Ok tt constructed.
Proof.
  assert (∀ h, ¬ subscribed (this constructed) EvExpand h) as Hnone.
  { intros h (hs & Hhs & _). vm_compute in Hhs. discriminate. }
  destruct (defensive_no_ops constructed EvExpand 7)
    as (_ & Hoff & Hemit & Hpos & _ & Hnever).
  destruct (defensive_no_ops attached EvExpand 7)
    as (_ & _ & _ & _ & Htwice & _).
  split; [apply Hoff, Hnone|].
  split.
  { destruct Hemit as (w' & Hrun & Hlog & _);
      [eexists; vm_compute; reflexivity | exact Hnone |].
    exists w'. split; [exact Hrun | exact Hlog]. }
  split; [apply Hpos; left; vm_compute; reflexivity|].
  split; [exact Htwice|].
  rewrite Hnever; [vm_compute; reflexivity|].
  vm_compute. repeat split; reflexivity.
Defined.

(** C8, as stated, fails on the nested mapping: after
    [const snapshot = control.getState()] the assignment
    [snapshot.data.k = 5] changes the [data] of the control's live state
    from [{}] to [{ k: 5 }]. *)
Lemma snapshot_data_is_shared :
  getState constructed = Ok 1 snapshot_taken ∧
  live_data snapshot_taken = Some ∅ ∧
  ∃ w', assign_data_key 1 "k" 5%Z snapshot_taken = Ok tt w' ∧
        live w' = live snapshot_taken ∧
        live_data w' = Some {[ "k" := 5%Z ]} ∧
        live_data w' ≠ live_data snapshot_taken.
Proof.
  split; [vm_compute; reflexivity|]. split; [vm_compute; reflexivity|].
  exists (after (assign_data_key 1 "k" 5%Z) snapshot_taken).
  split; [vm_compute; reflexivity|]. split; [vm_compute; reflexivity|].
  split; [vm_compute; reflexivity|].
  intros Heq. apply (f_equal (λ o, o ≫= (.!! "k"))) in Heq.
  vm_compute in Heq. discriminate.
Qed.

Lemma getState_shallow_copy_witness :
  ∃ snapshot w1,
    getState constructed = Ok snapshot w1 ∧
    snapshot ≠ _state (this w1) ∧
    objects w1 !! snapshot = Some initial_state ∧
    (∃ w2, (assign_collapsed snapshot false ;;
            assign_panelWidth snapshot 1%Z ;;
            assign_data snapshot None) w1 = Ok tt w2 ∧
           live w2 = Some initial_state) ∧
    (∃ w2, toggle w1 = Ok tt w2 ∧
           objects w2 !! snapshot = Some initial_state).
Proof.
  destruct (getState_shallow_copy constructed initial_state)
    as (s & w1 & Hrun & _ & Hne & Hcopy & _ & _ & Hwrite & Htoggle & _);
    [vm_compute; reflexivity|].
  exists s, w1.
  split; [exact Hrun|]. split; [exact Hne|]. split; [exact Hcopy|].
  split; [|exact Htoggle].
  destruct (Hwrite false 1%Z None) as (w2 & Hrun2 & _ & Hl2 & _).
  exists w2. split; [exact Hrun2 | exact Hl2].
Defined.

Lemma expand_collapse_guarded_witness :
  collapse constructed = Ok tt constructed ∧
  expand constructed = toggle constructed.
Proof.
  destruct (expand_collapse_guarded constructed initial_state)
    as (_ & Hcollapse & Hexpand & _); [vm_compute; reflexivity|].
  split; [apply Hcollapse | apply Hexpand]; reflexivity.
Defined.

Lemma toggle_without_panel_witness :
  ∃ w',
    toggle constructed = Ok tt w' ∧
    live w' = Some (set_collapsed false initial_state) ∧
    events (emitted constructed w') = [EvStatechange] ∧
    elements w' = elements constructed.
Proof.
  destruct (toggle_without_panel constructed initial_state)
    as (w' & s & Hrun & Hl & _ & Hev & _ & Hels);
    try (vm_compute; reflexivity).
  exists w'.
  split; [exact Hrun|]. split; [exact Hl|]. split; [exact Hev | exact Hels].
Defined.

(** ** Further properties on the concrete page *)

Lemma mirrors_attached : mirrors attached.
Proof.
  intros st p Hl Hp. vm_compute in Hp. injection Hp as <-.
  vm_compute in Hl. injection Hl as <-. vm_compute. reflexivity.
Qed.

Lemma wf_shown : wf shown.
Proof. apply (bool_decide_unpack _). vm_compute. exact I. Qed.

Lemma mirrors_shown : mirrors shown.
Proof.
  intros st p Hl Hp. vm_compute in Hp. injection Hp as <-.
  vm_compute in Hl. injection Hl as <-. vm_compute. reflexivity.
Qed.

Lemma closed_hook_heap : closed_heap hook_heap.
Proof. apply (bool_decide_unpack _). vm_compute. exact I. Qed.

Lemma getState_reads_only_witness :
  ∃ s1 w1 s2 w2,
    getState constructed = Ok s1 w1 ∧ getState w1 = Ok s2 w2 ∧ s1 ≠ s2 ∧
    objects w2 !! s1 = Some initial_state ∧
    objects w2 !! s2 = Some initial_state ∧
    trace w2 = trace constructed ∧ live w2 = Some initial_state.
Proof.
  destruct (getState_reads_only constructed initial_state)
    as (s1 & w1 & s2 & w2 & Hrun1 & Hrun2 & Hne & Hs1 & Hs2 & _ & _ & _ & Htr
        & Hl & _); [vm_compute; reflexivity|].
  exists s1, w1, s2, w2.
  split; [exact Hrun1|]. split; [exact Hrun2|]. split; [exact Hne|].
  split; [exact Hs1|]. split; [exact Hs2|]. split; [exact Htr | exact Hl].
Defined.

Lemma setState_no_change_still_emits_witness :
  ∃ w',
    setState {| p_collapsed := Some true; p_panelWidth := None;
                p_data := None |} attached = Ok tt w' ∧
    live w' = Some initial_state ∧
    _state (this w') ≠ _state (this attached) ∧
    events (emitted attached w') = [EvStatechange] ∧
    calls 8 EvStatechange (emitted attached w') = 1.
Proof.
  destruct (setState_no_change_still_emits attached initial_state
              {| p_collapsed := Some true; p_panelWidth := None;
                 p_data := None |})
    as (w' & Hrun & Hl & Hne & Hev & Hcalls).
  - exact wf_attached.
  - vm_compute. reflexivity.
  - reflexivity.
  - exists w'. split; [exact Hrun|]. split; [exact Hl|]. split; [exact Hne|].
    split; [exact Hev|]. apply Hcalls. exists [8].
    split; [vm_compute; reflexivity | left].
Defined.

Lemma setState_hands_new_state_witness :
  ∃ w',
    setState only_collapsed_false attached = Ok tt w' ∧
    live w' = Some expanded_state ∧
    ∀ h e s, Invoke h e s ∈ emitted attached w' →
             e = EvStatechange ∧ objects w' !! s = Some expanded_state.
Proof.
  destruct (setState_hands_new_state attached initial_state
              only_collapsed_false)
    as (w' & Hrun & Hl & Hall); [vm_compute; reflexivity|].
  exists w'. split; [exact Hrun|]. split; [exact Hl|].
  intros h e s Hin. destruct (Hall h e s Hin) as (He & _ & Hs).
  split; [exact He | exact Hs].
Defined.

Lemma toggle_hands_new_state_witness :
  ∃ w',
    toggle attached = Ok tt w' ∧
    live w' = Some expanded_state ∧
    ∀ h e s, Invoke h e s ∈ emitted attached w' →
             objects w' !! s = Some expanded_state.
Proof.
  destruct (toggle_hands_new_state attached initial_state)
    as (w' & Hrun & Hl & Hall); [vm_compute; reflexivity|].
  exists w'. split; [exact Hrun|]. split; [exact Hl|].
  intros h e s Hin. destruct (Hall h e s Hin) as (_ & Hs). exact Hs.
Defined.

Lemma expand_collapse_reach_witness :
  (∃ w1, expand attached = Ok tt w1 ∧
         (collapsed <$> live w1) = Some false ∧
         panel_expanded w1 19 = true ∧ expand w1 = Ok tt w1) ∧
  (∃ w1, collapse shown = Ok tt w1 ∧
         (collapsed <$> live w1) = Some true ∧
         panel_expanded w1 19 = false ∧ collapse w1 = Ok tt w1).
Proof.
  destruct (expand_collapse_reach attached wf_attached mirrors_attached)
    as ((w1 & Hrun1 & _ & _ & Hl1 & Hp1 & Hagain1) & _).
  destruct (expand_collapse_reach shown wf_shown mirrors_shown)
    as (_ & (w2 & Hrun2 & _ & _ & Hl2 & Hp2 & Hagain2)).
  split.
  - exists w1. split; [exact Hrun1|]. split; [exact Hl1|].
    split; [apply Hp1; vm_compute; reflexivity | exact Hagain1].
  - exists w2. split; [exact Hrun2|]. split; [exact Hl2|].
    split; [apply Hp2; vm_compute; reflexivity | exact Hagain2].
Defined.

Lemma emit_calls_exactly_subscribers_witness :
  ∃ w',
    _emit EvStatechange attached = Ok tt w' ∧
    events (emitted attached w') = [EvStatechange] ∧
    calls 8 EvStatechange (emitted attached w') = 1 ∧
    calls 7 EvStatechange (emitted attached w') = 0 ∧
    calls 7 EvExpand (emitted attached w') = 0.
Proof.
  destruct (emit_calls_exactly_subscribers attached EvStatechange
              wf_attached)
    as (w' & Hrun & Hev & Hsub & Hnot & Hother).
  exists w'. split; [exact Hrun|]. split; [exact Hev|].
  split.
  { apply Hsub. exists [8]. split; [vm_compute; reflexivity | left]. }
  split.
  { apply Hnot. intros (hs & Hhs & Hin). vm_compute in Hhs.
    injection Hhs as <-. apply list_elem_of_singleton in Hin. discriminate. }
  apply Hother. discriminate.
Defined.

Lemma emit_in_registration_order_witness :
  ∃ w1 w2 s,
    on EvStatechange 9 attached = Ok tt w1 ∧
    _emit EvStatechange w1 = Ok tt w2 ∧
    emitted w1 w2
    = [Emit EvStatechange; Invoke 8 EvStatechange s;
       Invoke 9 EvStatechange s].
Proof.
  destruct (emit_in_registration_order attached initial_state EvStatechange
              9)
    as (w1 & w2 & s & Hrun1 & Hrun2 & Hlog).
  - vm_compute. reflexivity.
  - intros Hin. vm_compute in Hin. apply list_elem_of_singleton in Hin.
    discriminate.
  - exists w1, w2, s. split; [exact Hrun1|]. split; [exact Hrun2|].
    rewrite Hlog. reflexivity.
Defined.

Lemma off_unsubscribes_witness :
  ∃ w1 w2,
    off EvStatechange 8 attached = Ok tt w1 ∧
    _emit EvStatechange w1 = Ok tt w2 ∧
    calls 8 EvStatechange (emitted w1 w2) = 0 ∧
    subscribed (this w1) EvExpand 7.
Proof.
  destruct (off_unsubscribes attached EvStatechange 8 wf_attached)
    as (w1 & w2 & Hrun1 & _ & _ & Hrest & Hrun2 & Hcalls & _).
  exists w1, w2. split; [exact Hrun1|]. split; [exact Hrun2|].
  split; [exact Hcalls|].
  apply Hrest; [left; discriminate|].
  exists [7]. split; [vm_compute; reflexivity | left].
Defined.

Lemma updatePanelPosition_idempotent_witness :
  ∃ w1 w2,
    _updatePanelPosition attached = Ok tt w1 ∧
    _updatePanelPosition w1 = Ok tt w2 ∧
    elements w2 = elements w1.
Proof.
  destruct (updatePanelPosition_idempotent attached)
    as (w1 & w2 & Hrun1 & Hrun2 & Hels & _).
  - intros p Hp. vm_compute in Hp. injection Hp as <-.
    apply (bool_decide_unpack _). vm_compute. exact I.
  - exists w1, w2. split; [exact Hrun1|]. split; [exact Hrun2 | exact Hels].
Defined.

Lemma clickOutside_collapses_witness :
  (∃ w', call ClickOutside 0 shown = Ok tt w' ∧
         live w' = Some initial_state ∧
         panel_expanded w' 19 = false ∧
         events (emitted shown w') = [EvCollapse; EvStatechange]) ∧
  call ClickOutside 3 shown = Ok tt shown ∧
  call ClickOutside 19 shown = Ok tt shown.
Proof.
  destruct (clickOutside_collapses shown expanded_state 2 19 wf_shown
              mirrors_shown)
    as (Hout & _ & Hpanel & _ & Hbutton);
    [vm_compute; reflexivity..|].
  split.
  - destruct (Hout 0) as (w' & Hrun & Hl & Hhidden & _ & Hev);
      [vm_compute; reflexivity..|].
    exists w'. split; [exact Hrun|]. split; [exact Hl|].
    split; [exact Hhidden|]. apply Hev. reflexivity.
  - split; [|exact Hpanel]. apply Hbutton. vm_compute. reflexivity.
Defined.

Lemma onAdd_builds_control_witness :
  ∃ c b p w',
    onAdd the_map styled = Ok (Some c) w' ∧
    getContainer w' = Ok (Some c) w' ∧
    classList (element w' c)
    = ["maplibregl-ctrl"; "maplibregl-ctrl-group"; "plugin-control";
       "wide"; "dark"] ∧
    childNodes (element w' c) = [b] ∧
    classList (element w' b) = ["plugin-control-toggle"] ∧
    length (childNodes (element w' b)) = 3 ∧
    classList (element w' p) = ["plugin-control-panel"] ∧
    style (element w' p) = blank_style ∧
    parentNode (element w' p) = Some 0 ∧
    element w' 1 = element styled 1 ∧
    frames w' = [] ∧ emitted styled w' = [].
Proof.
  destruct (onAdd_builds_control styled styled_state the_map)
    as (r & w' & Hrun & c & b & p & -> & _ & Hget & _ & _ & Hc & _ & Hb & Hrb
        & Hp & _ & Hpar & _ & Hsty & Hold & _ & (ff & Hfr & _) & _ & _ & _
        & Hlog).
  - vm_compute. reflexivity.
  - apply (bool_decide_unpack _). vm_compute. exact I.
  - exists c, b, p, w'. split; [exact Hrun|]. split; [exact Hget|].
    split; [rewrite Hc; vm_compute; reflexivity|].
    split; [rewrite Hc; reflexivity|].
    split; [exact (f_equal classList Hb)|].
    split; [exact (Forall2_length _ _ _ Hrb)|].
    split; [exact Hp|].
    split; [rewrite Hsty; vm_compute; reflexivity|].
    split; [exact Hpar|].
    split.
    { apply Hold; [|discriminate].
      apply (bool_decide_unpack _). vm_compute. exact I. }
    split; [exact Hfr | exact Hlog].
Defined.

Lemma added_control_places_panel_witness :
  ∃ w1 b p w2,
    addControl the_map 1 constructed = Ok tt w1 ∧
    classList (element w1 b) = ["plugin-control-toggle"] ∧
    panel_expanded w1 p = false ∧
    expand w1 = Ok tt w2 ∧ panel_expanded w2 p = true ∧
    style (element w2 p)
    = spec_panel_style TopRight (getBoundingClientRect constructed b)
        map_rect (css_px 300%Z) ∧
    events (emitted w1 w2) = [EvExpand; EvStatechange].
Proof.
  destruct (added_control_places_panel constructed initial_state the_map 1
              TopRight)
    as (w1 & b & p & Hrun & _ & _ & Hb & Hhidden & Hexpand & _).
  - vm_compute. reflexivity.
  - apply (bool_decide_unpack _). vm_compute. exact I.
  - apply (bool_decide_unpack _). vm_compute. exact I.
  - vm_compute. reflexivity.
  - destruct (Hexpand eq_refl) as (w2 & Hrun2 & Hshown & Hstyle & Hev).
    exists w1, b, p, w2. split; [exact Hrun|]. split; [exact Hb|].
    split; [exact Hhidden|]. split; [exact Hrun2|]. split; [exact Hshown|].
    split; [exact Hstyle | exact Hev].
Defined.

Lemma onRemove_tears_down_witness :
  ∃ w1,
    onRemove attached = Ok tt w1 ∧
    getMap w1 = Ok None w1 ∧ getContainer w1 = Ok None w1 ∧
    _resizeHandler (this w1) = None ∧
    _mapResizeHandler (this w1) = None ∧
    _clickOutsideHandler (this w1) = None ∧
    parentNode (element w1 19) = None ∧
    parentNode (element w1 2) = None ∧
    mapResize w1 = [] ∧
    live w1 = Some initial_state ∧ emitted attached w1 = [].
Proof.
  destruct (onRemove_tears_down attached)
    as (w1 & Hrun & Hmap & Hcont & ((_ & _ & _ & _ & Hrh & Hch) & Hmh) & _
        & Hl & _ & _ & Hlog & Hp & Hc & _ & _ & _ & _ & _ & Hmr).
  - intros _. eexists. vm_compute. reflexivity.
  - exists w1. split; [exact Hrun|]. split; [exact Hmap|].
    split; [exact Hcont|]. split; [exact Hrh|]. split; [exact Hmh|].
    split; [exact Hch|].
    split; [apply Hp; vm_compute; reflexivity|].
    split; [apply Hc; vm_compute; reflexivity|].
    split.
    { rewrite (Hmr (4, MapResize) the_map); vm_compute; reflexivity. }
    split; [rewrite Hl; vm_compute; reflexivity | exact Hlog].
Defined.

Lemma listeners_after_removal_witness :
  ∃ w1,
    onRemove attached = Ok tt w1 ∧
    (∃ w2, call FrameReposition 0 w1 = Ok tt w2 ∧
           elements w2 = elements w1 ∧ events (emitted w1 w2) = []) ∧
    (∃ w2, call ClickOutside 0 w1 = Ok tt w2 ∧ elements w2 = elements w1) ∧
    (∃ w2, call ToggleClick 3 w1 = Ok tt w2 ∧
           live w2 = Some expanded_state ∧
           emitted w1 w2 = [Emit EvStatechange]).
Proof.
  destruct (listeners_after_removal attached initial_state)
    as (w1 & Hrun & Hquiet & Htoggle); [vm_compute; reflexivity|].
  exists w1. split; [exact Hrun|].
  split.
  { destruct (Hquiet FrameReposition 0) as (w2 & Hrun2 & _ & _ & _ & Hels
                                            & Hev & _); [discriminate..|].
    exists w2. split; [exact Hrun2|]. split; [exact Hels | exact Hev]. }
  split.
  { destruct (Hquiet ClickOutside 0) as (w2 & Hrun2 & _ & _ & _ & Hels & _);
      [discriminate..|].
    exists w2. split; [exact Hrun2 | exact Hels]. }
  destruct (Htoggle 3) as (w2 & Hrun2 & Hl & _ & Hlog).
  exists w2. split; [exact Hrun2|]. split; [exact Hl | exact Hlog].
Defined.

Lemma addControl_onRemove_restores_witness :
  ∃ w1 w2,
    addControl the_map 1 constructed = Ok tt w1 ∧
    onRemove w1 = Ok tt w2 ∧
    element w2 0 = element constructed 0 ∧
    element w2 1 = element constructed 1 ∧
    windowResize w2 = [] ∧ documentClick w2 = [] ∧ mapResize w2 = [] ∧
    holds_nothing (this w2) ∧
    live w2 = Some initial_state ∧ frames w2 = [].
Proof.
  destruct (addControl_onRemove_restores constructed initial_state the_map 1
              TopRight)
    as (w1 & w2 & Hrun1 & Hrun2 & Hold & Hwr & Hdc & Hmr & Hnone & Hl & _
        & _ & (ff & Hfr)).
  - vm_compute. reflexivity.
  - apply (bool_decide_unpack _). vm_compute. exact I.
  - apply (bool_decide_unpack _). vm_compute. exact I.
  - discriminate.
  - vm_compute. reflexivity.
  - unfold children_exist. apply (bool_decide_unpack _). vm_compute. exact I.
  - unfold children_exist. apply (bool_decide_unpack _). vm_compute. exact I.
  - unfold listeners_known. apply (bool_decide_unpack _). vm_compute. exact I.
  - exists w1, w2. split; [exact Hrun1|]. split; [exact Hrun2|].
    split; [apply Hold; apply (bool_decide_unpack _); vm_compute; exact I|].
    split; [apply Hold; apply (bool_decide_unpack _); vm_compute; exact I|].
    split; [exact Hwr|]. split; [exact Hdc|]. split; [exact Hmr|].
    split; [exact Hnone|]. split; [exact Hl | exact Hfr].
Defined.

Lemma collapsed_mirrors_panel_witness :
  ∃ w',
    (new_PluginControl None ;;
     forEach [CallOnAdd the_map; CallToggle;
              CallSetState {| p_collapsed := None;
                              p_panelWidth := Some 400%Z;
                              p_data := None |};
              CallClosure ClickOutside 0; CallOnRemove] perform) page
    = Ok tt w' ∧
    wf w' ∧ mirrors w'.
Proof.
  apply (collapsed_mirrors_panel page None
           [CallOnAdd the_map; CallToggle;
            CallSetState {| p_collapsed := None; p_panelWidth := Some 400%Z;
                            p_data := None |};
            CallClosure ClickOutside 0; CallOnRemove]).
  repeat constructor.
Defined.

Lemma react_mount_wires_control_witness :
  ∃ w1 c p,
    PluginControlReact_mount (Some the_map) props_expanded (Some 9)
      (λ _, 1) page = Ok true w1 ∧
    (collapsed <$> live w1) = Some false ∧
    subscribed (this w1) EvStatechange 9 ∧
    parentNode (element w1 c) = Some 1 ∧
    _getControlPosition w1 = TopRight ∧
    panel_expanded w1 p = true ∧
    emitted page w1 = [] ∧
    ∃ w2, PluginControlReact_cleanup true w1 = Ok tt w2 ∧
          holds_nothing (this w2) ∧
          ¬ subscribed (this w2) EvStatechange 9.
Proof.
  destruct (react_mount_wires_control page the_map props_expanded (Some 9)
              (λ _, 1) TopRight)
    as (_ & w1 & c & p & d & Hrun & Hl & Hsub & _ & _ & Hpar & Hpos & _
        & Hshown & Hlog & _ & w2 & Hrun2 & Hnothing & Hnone & _).
  - reflexivity.
  - apply (bool_decide_unpack _). vm_compute. exact I.
  - apply (bool_decide_unpack _). vm_compute. exact I.
  - vm_compute. reflexivity.
  - exists w1, c, p. split; [exact Hrun|].
    split; [rewrite Hl; reflexivity|].
    split; [apply Hsub; split; reflexivity|].
    split; [exact Hpar|]. split; [exact Hpos|].
    split; [exact (Hshown _ Hl)|].
    split; [exact Hlog|].
    exists w2. split; [exact Hrun2|]. split; [exact Hnothing | apply Hnone].
Defined.

Lemma react_sync_follows_prop_witness :
  (∃ w', PluginControlReact_sync true (Some false) attached = Ok tt w' ∧
         live w' = Some expanded_state ∧
         EvStatechange ∈ events (emitted attached w')) ∧
  (∃ w', PluginControlReact_sync true (Some true) attached = Ok tt w' ∧
         live w' = Some initial_state ∧ emitted attached w' = []).
Proof.
  destruct (react_sync_follows_prop attached initial_state wf_attached
              mirrors_attached)
    as (Hsync & _); [vm_compute; reflexivity|].
  split.
  - destruct (Hsync false) as (w' & Hrun & _ & _ & Hl & _ & Hev).
    exists w'. split; [exact Hrun|]. split; [exact Hl|].
    apply Hev. discriminate.
  - destruct (Hsync true) as (w' & Hrun & _ & _ & Hl & Hquiet & _).
    exists w'. split; [exact Hrun|]. split; [exact Hl|].
    apply Hquiet. reflexivity.
Defined.

Lemma hook_setData_merges_witness :
  ∃ next merged w',
    setData_updater 3 2 hook_heap = Ok next w' ∧
    objects w' !! next
    = Some {| collapsed := true; panelWidth := 300%Z;
              data := Some merged |} ∧
    records w' !! merged = Some {[ "a" := 1%Z; "b" := 2%Z ]} ∧
    records w' !! 2 = Some {[ "a" := 1%Z ]} ∧
    records w' !! 3 = Some {[ "b" := 2%Z ]}.
Proof.
  destruct (hook_setData_merges hook_heap 2
              {| collapsed := true; panelWidth := 300%Z; data := Some 2 |}
              3 {[ "b" := 2%Z ]} closed_hook_heap)
    as (next & merged & m & w' & Hrun & _ & _ & _ & Hnext & Hm & -> & _ & _
        & _ & Hnew & Hold); [vm_compute; reflexivity..|].
  exists next, merged, w'. split; [exact Hrun|]. split; [exact Hnext|].
  split; [rewrite Hm; vm_compute; reflexivity|].
  split; [|exact Hnew].
  transitivity (records hook_heap !! 2);
    [exact (Hold 2 eq_refl) | vm_compute; reflexivity].
Defined.

Lemma hook_updates_never_mutate_witness :
  ∃ next w',
    apply_updates 0 None
      [UpdToggle; UpdData 3; UpdPanelWidth 400%Z; UpdReset;
       UpdCollapsed false] 2 hook_heap = Ok next w' ∧
    is_Some (objects w' !! next) ∧
    objects w' !! 0 = objects hook_heap !! 0 ∧
    objects w' !! 2 = objects hook_heap !! 2 ∧
    records w' !! 0 = Some ∅ ∧
    records w' !! 2 = Some {[ "a" := 1%Z ]}.
Proof.
  destruct (hook_updates_never_mutate hook_heap 0 None
              [UpdToggle; UpdData 3; UpdPanelWidth 400%Z; UpdReset;
               UpdCollapsed false] 2 closed_hook_heap)
    as (next & w' & Hrun & Hnext & Hobj & Hrec & _).
  - eexists. vm_compute. reflexivity.
  - eexists. vm_compute. reflexivity.
  - intros p r Hp. discriminate.
  - repeat constructor. eexists. vm_compute. reflexivity.
  - exists next, w'. split; [exact Hrun|]. split; [exact Hnext|].
    assert (objects hook_heap !! 0
            = Some {| collapsed := true; panelWidth := 300%Z;
                      data := Some 0 |}) as H0 by (vm_compute; reflexivity).
    assert (objects hook_heap !! 2
            = Some {| collapsed := true; panelWidth := 300%Z;
                      data := Some 2 |}) as H2 by (vm_compute; reflexivity).
    split; [rewrite H0; apply Hobj; exact H0|].
    split; [rewrite H2; apply Hobj; exact H2|].
    split; [apply Hrec; vm_compute; reflexivity|].
    apply Hrec. vm_compute. reflexivity.
Defined.

